(** * PythonTutorial: magnetometry parsing and series helpers

    A shallow embedding of [tutorial/utils/u02_parsing.py] and
    [tutorial_answers/utils/u03_oop.py].

    Conventions of the model.
    - A float64 sample is a [num]: NaN (which pandas also uses for a missing
      value), one of the two infinities, or a rational.  Every arithmetic
      operation rounds its exact result to binary64 (to nearest, ties to
      even, with gradual underflow and overflow to an infinity), as IEEE 754
      prescribes; zero carries no sign.
    - A sum adds from left to right.  numpy adds in this order up to seven
      terms and pairwise in blocks beyond; the operations and their rounding
      are the same, the order of the additions is not.
    - A pandas Series is the list of its (index label, value) pairs in
      positional order; a DataFrame is its row index with its named columns;
      row labels are integers.
    - A Python exception is an [exn] carried by [result]. *)

From Stdlib Require Import QArith Qround Qabs Qpower Lqa ZArith Lia List String Ascii Bool Sorted.
From stdpp Require Import base option list gmap strings.

Local Open Scope Z_scope.

(** ** Exceptions *)

Inductive exn : Type :=
  | KeyError
  | IndexError
  | TypeError
  | ValueError
  | ParserError
  | EmptyDataError
  | CsvError       (* csv.Error *)
  | Unsupported.   (* no Python exception: the input is outside what the
                      model of a library function covers *)

Inductive result (A : Type) : Type :=
  | Ok (a : A)
  | Raise (e : exn).
Arguments Ok {A} a.
Arguments Raise {A} e.

#[global] Instance result_ret : MRet result := fun A a => Ok a.
#[global] Instance result_bind : MBind result := fun A B f m =>
  match m with
  | Ok a => f a
  | Raise e => Raise e
  end.

#[global] Instance result_fmap : FMap result := fun A B f m =>
  match m with
  | Ok a => Ok (f a)
  | Raise e => Raise e
  end.

Definition is_ok {A} (r : result A) : bool :=
  match r with Ok _ => true | Raise _ => false end.

(** ** Numbers *)

Module Num.

Inductive num : Type :=
  | NaN
  | NegInf
  | PosInf
  | Finite (q : Q).

(** A count or a small constant as a float (exact below 2^53). *)
Definition of_Z (z : Z) : num := Finite (inject_Z z).
Definition of_nat (n : nat) : num := of_Z (Z.of_nat n).

Definition isnan (x : num) : bool :=
  match x with NaN => true | _ => false end.

Definition notnan (x : num) : bool := negb (isnan x).

Definition isfinite (x : num) : bool :=
  match x with Finite _ => true | _ => false end.

(** *** Rounding to binary64 *)

(** The nearest integer, a tie going to the even one. *)
Definition round_half_even (q : Q) : Z :=
  let n := Qfloor q in
  match ((q - inject_Z n) ?= (1 # 2))%Q with
  | Lt => n
  | Gt => n + 1
  | Eq => if Z.even n then n else n + 1
  end.

(** [floor (log2 q)] of a positive rational. *)
Definition Qlog2 (q : Q) : Z :=
  let k := Z.log2 (Qnum q) - Z.log2 (Zpos (Qden q)) in
  if Qle_bool (2 ^ k) q then k else k - 1.

(** The exponent of the unit in the last place of the binary64 numbers
    around a positive [q]: 53 significant bits, and no unit below 2^-1074. *)
Definition ulp_exponent (q : Q) : Z := Z.max (Qlog2 q - 52) (-1074).

(** The multiple of that unit nearest to a positive [q], a tie going to the
    even multiple. *)
Definition nearest (q : Q) : Q :=
  let e := ulp_exponent q in
  Qred (inject_Z (round_half_even (q / 2 ^ e)) * 2 ^ e).

(** The binary64 number an exact result is rounded to: an infinity from
    2^1024 on. *)
Definition round (q : Q) : num :=
  let q := Qred q in
  match (q ?= 0)%Q with
  | Eq => Finite 0
  | Gt => let r := nearest q in
          if Qle_bool (2 ^ 1024) r then PosInf else Finite r
  | Lt => let r := nearest (- q) in
          if Qle_bool (2 ^ 1024) r then NegInf else Finite (- r)
  end.

(** An integer converted to float64. *)
Definition of_int (z : Z) : num := round (inject_Z z).

(** *** Arithmetic *)

Definition neg (x : num) : num :=
  match x with
  | NaN => NaN
  | NegInf => PosInf
  | PosInf => NegInf
  | Finite q => Finite (- q)
  end.

Definition add (x y : num) : num :=
  match x, y with
  | NaN, _ | _, NaN => NaN
  | PosInf, NegInf | NegInf, PosInf => NaN
  | PosInf, _ | _, PosInf => PosInf
  | NegInf, _ | _, NegInf => NegInf
  | Finite a, Finite b => round (a + b)
  end.

Definition sub (x y : num) : num := add x (neg y).

(** The infinity whose sign is that of [q] times [pos]; 0 * inf is NaN. *)
Definition inf_signed (pos : bool) (q : Q) : num :=
  match (q ?= 0)%Q with
  | Eq => NaN
  | Gt => if pos then PosInf else NegInf
  | Lt => if pos then NegInf else PosInf
  end.

Definition mul (x y : num) : num :=
  match x, y with
  | NaN, _ | _, NaN => NaN
  | PosInf, PosInf | NegInf, NegInf => PosInf
  | PosInf, NegInf | NegInf, PosInf => NegInf
  | PosInf, Finite q | Finite q, PosInf => inf_signed true q
  | NegInf, Finite q | Finite q, NegInf => inf_signed false q
  | Finite a, Finite b => round (a * b)
  end.

Definition div (x y : num) : num :=
  match x, y with
  | NaN, _ | _, NaN => NaN
  | Finite a, Finite b =>
      if Qeq_bool b 0 then inf_signed true a else round (a / b)
  | Finite _, _ => Finite 0
  | _, PosInf | _, NegInf => NaN
  | PosInf, Finite b => if Qle_bool 0 b then PosInf else NegInf
  | NegInf, Finite b => if Qle_bool 0 b then NegInf else PosInf
  end.

Definition abs (x : num) : num :=
  match x with
  | NaN => NaN
  | NegInf | PosInf => PosInf
  | Finite q => Finite (Qabs q)
  end.

(** [x < y]; every comparison with NaN is false. *)
Definition ltb (x y : num) : bool :=
  match x, y with
  | NaN, _ | _, NaN => false
  | _, NegInf => false
  | NegInf, _ => true
  | PosInf, _ => false
  | _, PosInf => true
  | Finite a, Finite b => negb (Qle_bool b a)
  end.

Definition gtb (x y : num) : bool := ltb y x.

(** [x <= y] *)
Definition leb (x y : num) : bool :=
  match x, y with
  | NaN, _ | _, NaN => false
  | _, _ => negb (ltb y x)
  end.

Definition eqb (x y : num) : bool :=
  match x, y with
  | NegInf, NegInf | PosInf, PosInf => true
  | Finite a, Finite b => Qeq_bool a b
  | _, _ => false
  end.

(** The square root of the numeric library, on the rationals. *)
Class Sqrt : Type := {
  qsqrt : Q -> Q;
  qsqrt_0 : forall q, (q == 0)%Q -> (qsqrt q == 0)%Q
}.

Definition sqrt `{Sqrt} (x : num) : num :=
  match x with
  | NaN | NegInf => NaN
  | PosInf => PosInf
  | Finite q => if Qle_bool 0 q then Finite (qsqrt q) else NaN
  end.

(** The binary64 square root: the multiple of the unit in the last place of
    the root that is nearest to it.  With [e] the exponent of that unit and
    [s] the integer part of the root in that unit, the root lies below the
    midpoint [s + 1/2] exactly when [q / 4^e < s^2 + s + 1/4]. *)
Definition qsqrt_nearest (q : Q) : Q :=
  if Qle_bool q 0 then 0%Q
  else
    let q := Qred q in
    let e := Z.max (Qlog2 q / 2 - 52) (-1074) in
    let y := (q / 2 ^ (2 * e))%Q in
    let s := Z.sqrt (Qfloor y) in
    let m :=
      match (y ?= inject_Z (s * s + s) + (1 # 4))%Q with
      | Lt => s
      | Gt => s + 1
      | Eq => if Z.even s then s else s + 1
      end in
    Qred (inject_Z m * 2 ^ e).

#[global, refine] Instance binary64_Sqrt : Sqrt := {| qsqrt := qsqrt_nearest |}.
Proof.
  intros q Hq. unfold qsqrt_nearest.
  assert (Hle : Qle_bool q 0 = true) by (apply Qle_bool_iff; rewrite Hq; apply Qle_refl).
  rewrite Hle. reflexivity.
Defined.

(** numpy's [rint]: to the nearest integer, ties to even. *)
Definition rint (x : num) : num :=
  match x with
  | Finite q => Finite (inject_Z (round_half_even q))
  | _ => x
  end.

(** [round(x, 1)] on a numpy float: the number is scaled by ten, rounded to
    an integer and scaled back, each step in float64. *)
Definition round1 (x : num) : num := div (rint (mul x (Finite 10))) (Finite 10).

(** numpy's [sum]: accumulation from zero. *)
Definition np_sum (l : list num) : num := fold_left add l (Finite 0).

End Num.
Export Num.

(** ** Text files *)

Module Text.

(** A text file: its lines, without their line ends.  Every line is taken
    to end in a newline. *)
Definition file : Type := list string.

Definition tab : ascii := Ascii.ascii_of_nat 9.
Definition comma : ascii := ","%char.
Definition newline : ascii := Ascii.ascii_of_nat 10.
Definition carriage_return : ascii := Ascii.ascii_of_nat 13.
Definition quote : ascii := Ascii.ascii_of_nat 34.

(** The fields of one line for a delimiter (no quoting). *)
Fixpoint split_fields (sep : ascii) (line : string) : list string :=
  match line with
  | EmptyString => [EmptyString]
  | String c rest =>
      if Ascii.eqb c sep then EmptyString :: split_fields sep rest
      else
        match split_fields sep rest with
        | f :: fs => String c f :: fs
        | [] => [String c EmptyString]
        end
  end.

Definition digit_of (c : ascii) : option Z :=
  let n := Ascii.nat_of_ascii c in
  if ((48 <=? n) && (n <=? 57))%nat then Some (Z.of_nat (n - 48)) else None.

(** Reads a run of digits onto [acc]; yields the number, the count of
    digits read and the rest. *)
Fixpoint take_digits (cs : list ascii) (acc : Z) (count : nat) : Z * nat * list ascii :=
  match cs with
  | [] => (acc, count, [])
  | c :: cs' =>
      match digit_of c with
      | Some d => take_digits cs' (10 * acc + d) (S count)
      | None => (acc, count, cs)
      end
  end.

Definition take_sign (cs : list ascii) : bool * list ascii :=
  match cs with
  | "-"%char :: cs' => (true, cs')
  | "+"%char :: cs' => (false, cs')
  | _ => (false, cs)
  end.

(** White space as C's [isspace] has it. *)
Definition is_space (c : ascii) : bool :=
  let n := Ascii.nat_of_ascii c in ((n =? 32) || ((9 <=? n) && (n <=? 13)))%nat.

Fixpoint drop_spaces (cs : list ascii) : list ascii :=
  match cs with
  | c :: cs' => if is_space c then drop_spaces cs' else cs
  | [] => []
  end.

(** The characters of a field without the white space around them. *)
Definition strip (s : string) : list ascii :=
  rev (drop_spaces (rev (drop_spaces (list_ascii_of_string s)))).

(** A decimal literal: sign, digits with an optional point, optional
    exponent; its exact value. *)
Definition parse_decimal (cs : list ascii) : option Q :=
  let '(negative, cs) := take_sign cs in
  let '(whole, n_whole, cs) := take_digits cs 0 0 in
  let '(mantissa, n_frac, cs) :=
    match cs with
    | "."%char :: cs' => take_digits cs' whole 0
    | _ => (whole, 0%nat, cs)
    end in
  if (n_whole + n_frac =? 0)%nat then None
  else
    let exponent :=
      match cs with
      | [] => Some 0
      | c :: cs' =>
          if Ascii.eqb c "e" || Ascii.eqb c "E" then
            let '(negative_e, cs') := take_sign cs' in
            match take_digits cs' 0 0 with
            | (e, S _, []) => Some (if negative_e then - e else e)
            | _ => None
            end
          else None
      end in
    match exponent with
    | Some e =>
        let m := inject_Z (if negative then - mantissa else mantissa) in
        Some (m * Qpower 10 (e - Z.of_nat n_frac))%Q
    | None => None
    end.

(** An integer literal: sign and digits. *)
Definition parse_integer (cs : list ascii) : option Z :=
  let '(negative, cs) := take_sign cs in
  match take_digits cs 0 0 with
  | (n, S _, []) => Some (if negative then - n else n)
  | _ => None
  end.

Definition lower (c : ascii) : ascii :=
  let n := Ascii.nat_of_ascii c in
  if ((65 <=? n) && (n <=? 90))%nat then Ascii.ascii_of_nat (n + 32) else c.

End Text.

(** ** Python's csv module *)

Module Csv.
Import Text.

(** The states of the reader for the default dialect ([excel]: the double
    quote as quote character, written twice inside a quoted field; no
    escape character; not strict). *)
Inductive state : Type :=
  | START_RECORD
  | START_FIELD
  | IN_FIELD
  | IN_QUOTED_FIELD
  | QUOTE_IN_QUOTED_FIELD
  | EAT_CRNL.

Record parser : Type := {
  st : state;
  fields : list string;   (* the fields of the record read so far *)
  field : string          (* the field being read *)
}.

(** [csv.field_size_limit()] *)
Definition field_limit : Z := 131072.

Definition parse_reset : parser :=
  {| st := START_RECORD; fields := []; field := "" |}.

Definition parse_add_char (p : parser) (c : ascii) : result parser :=
  if field_limit <=? Z.of_nat (String.length (field p)) then Raise CsvError
  else Ok {| st := st p; fields := fields p; field := field p ++ String c "" |}.

Definition parse_save_field (p : parser) : parser :=
  {| st := st p; fields := fields p ++ [field p]; field := "" |}.

Definition set_state (s : state) (p : parser) : parser :=
  {| st := s; fields := fields p; field := field p |}.

Definition is_eol (c : ascii) : bool :=
  Ascii.eqb c newline || Ascii.eqb c carriage_return.

(** One character of a line, or the end of the line ([None]). *)
Definition parse_process_char (delimiter : ascii) (p : parser) (c : option ascii)
    : result parser :=
  let start_field (p : parser) : result parser :=
    match c with
    | None => Ok (set_state START_RECORD (parse_save_field p))
    | Some ch =>
        if is_eol ch then Ok (set_state EAT_CRNL (parse_save_field p))
        else if Ascii.eqb ch quote then Ok (set_state IN_QUOTED_FIELD p)
        else if Ascii.eqb ch delimiter then Ok (parse_save_field p)
        else set_state IN_FIELD <$> parse_add_char p ch
    end in
  match st p with
  | START_RECORD =>
      match c with
      | None => Ok p
      | Some ch =>
          if is_eol ch then Ok (set_state EAT_CRNL p)
          else start_field (set_state START_FIELD p)
      end
  | START_FIELD => start_field p
  | IN_FIELD =>
      match c with
      | None => Ok (set_state START_RECORD (parse_save_field p))
      | Some ch =>
          if is_eol ch then Ok (set_state EAT_CRNL (parse_save_field p))
          else if Ascii.eqb ch delimiter then Ok (set_state START_FIELD (parse_save_field p))
          else parse_add_char p ch
      end
  | IN_QUOTED_FIELD =>
      match c with
      | None => Ok p
      | Some ch =>
          if Ascii.eqb ch quote then Ok (set_state QUOTE_IN_QUOTED_FIELD p)
          else parse_add_char p ch
      end
  | QUOTE_IN_QUOTED_FIELD =>
      match c with
      | None => Ok (set_state START_RECORD (parse_save_field p))
      | Some ch =>
          if Ascii.eqb ch quote then set_state IN_QUOTED_FIELD <$> parse_add_char p ch
          else if Ascii.eqb ch delimiter then Ok (set_state START_FIELD (parse_save_field p))
          else if is_eol ch then Ok (set_state EAT_CRNL (parse_save_field p))
          else set_state IN_FIELD <$> parse_add_char p ch
      end
  | EAT_CRNL =>
      match c with
      | None => Ok (set_state START_RECORD p)
      | Some ch => if is_eol ch then Ok p else Raise CsvError
      end
  end.

Fixpoint parse_chars (delimiter : ascii) (p : parser) (cs : list ascii) : result parser :=
  match cs with
  | [] => Ok p
  | c :: cs' =>
      p' ← parse_process_char delimiter p (Some c);
      parse_chars delimiter p' cs'
  end.

(** A line of the file: its characters, its newline, then the end of the
    line. *)
Definition parse_line (delimiter : ascii) (p : parser) (line : string) : result parser :=
  p' ← parse_chars delimiter p (list_ascii_of_string line ++ [newline]);
  parse_process_char delimiter p' None.

(** The rows the reader yields over the lines that are left, from the state
    it is in; an exception ends the iteration.  A record is complete when a
    line leaves the reader in [START_RECORD]; at the end of the file a field
    that was begun, or a quoted field left open, closes the last record. *)
Fixpoint rows (delimiter : ascii) (p : parser) (lines : file) : list (result (list string)) :=
  match lines with
  | [] =>
      match st p, field p with
      | IN_QUOTED_FIELD, _ | _, String _ _ => [Ok (fields (parse_save_field p))]
      | _, _ => []
      end
  | line :: lines' =>
      match parse_line delimiter p line with
      | Raise e => [Raise e]
      | Ok p' =>
          match st p' with
          | START_RECORD => Ok (fields p') :: rows delimiter parse_reset lines'
          | _ => rows delimiter p' lines'
          end
      end
  end.

(** [csv.reader(f, delimiter=delimiter)] *)
Definition reader (delimiter : ascii) (f : file) : list (result (list string)) :=
  rows delimiter parse_reset f.

End Csv.

(** ** pandas: Series and DataFrame *)

Module Pandas.
Import Text.

(** A cell of a table: a float64 (NaN when missing), an int64 or text. *)
Inductive cell : Type :=
  | Num (x : num)
  | Int (z : Z)
  | Str (s : string).

(** A Series in positional order, each value with its index label. *)
Definition Series (A : Type) : Type := list (Z * A).

Definition index {A} (s : Series A) : list Z := List.map fst s.
Definition values {A} (s : Series A) : list A := List.map snd s.

Definition map_values {A B} (f : A -> B) (s : Series A) : Series B :=
  List.map (fun lv => (fst lv, f (snd lv))) s.

(** [notna()] on one cell: only NaN is missing. *)
Definition notna (c : cell) : bool :=
  match c with
  | Num x => notnan x
  | Int _ | Str _ => true
  end.

(** [s.notna().all()] *)
Definition notna_all (s : Series cell) : bool := forallb notna (values s).

(** The values of a float64 column; a column that holds anything but
    floats has none. *)
Fixpoint as_float64 (s : Series cell) : result (Series num) :=
  match s with
  | [] => Ok []
  | (l, Num x) :: s' => s'' ← as_float64 s'; Ok ((l, x) :: s'')
  | (_, Int _) :: _ | (_, Str _) :: _ => Raise TypeError
  end.

(** The values of an int64 column. *)
Fixpoint as_int64 (s : Series cell) : option (Series Z) :=
  match s with
  | [] => Some []
  | (l, Int z) :: s' => s'' ← as_int64 s'; Some ((l, z) :: s'')
  | _ => None
  end.

(** A column of numbers in float arithmetic: integers are converted, text
    raises TypeError. *)
Fixpoint to_float64 (s : Series cell) : result (Series num) :=
  match s with
  | [] => Ok []
  | (l, Num x) :: s' => s'' ← to_float64 s'; Ok ((l, x) :: s'')
  | (l, Int z) :: s' => s'' ← to_float64 s'; Ok ((l, of_int z) :: s'')
  | (_, Str _) :: _ => Raise TypeError
  end.

Definition of_float64 (s : Series num) : Series cell := map_values Num s.
Definition of_int64 (s : Series Z) : Series cell := map_values Int s.

(** int64 arithmetic wraps around. *)
Definition wrap64 (z : Z) : Z := (z + 2 ^ 63) mod 2 ^ 64 - 2 ^ 63.

(** [skipna=True]: the values that take part in a reduction. *)
Definition dropna (s : Series num) : list num := List.filter notnan (values s).

(** [s.mean()]: sum over count of the non-missing values (0/0 is NaN). *)
Definition mean (s : Series num) : num :=
  let vs := dropna s in
  div (np_sum vs) (of_nat (length vs)).

(** [s.var()] with [ddof=1], by the two-pass algorithm: NaN unless more
    than one value is present. *)
Definition var (s : Series num) : num :=
  let vs := dropna s in
  let count := length vs in
  if (count <=? 1)%nat then NaN
  else
    let avg := div (np_sum vs) (of_nat count) in
    let sqr := List.map (fun v => let d := sub avg v in mul d d) vs in
    div (np_sum sqr) (of_nat (count - 1)).

(** [s.std()] *)
Definition std `{Sqrt} (s : Series num) : num := sqrt (var s).

(** [s.min()]: least non-missing value, NaN when there is none. *)
Definition min (s : Series num) : num :=
  match dropna s with
  | [] => NaN
  | v :: vs => fold_left (fun m x => if ltb x m then x else m) vs v
  end.

(** [s - c], [s / c], [s.abs()], [s > c] with a scalar [c]. *)
Definition sub_scalar (s : Series num) (c : num) : Series num :=
  map_values (fun v => sub v c) s.
Definition div_scalar (s : Series num) (c : num) : Series num :=
  map_values (fun v => div v c) s.
Definition abs (s : Series num) : Series num := map_values Num.abs s.
Definition gt_scalar (s : Series num) (c : num) : Series bool :=
  map_values (fun v => gtb v c) s.

(** [s[mask]] for a boolean mask over the same index. *)
Definition mask {A} (s : Series A) (m : Series bool) : Series A :=
  List.map fst (List.filter (fun p => snd (snd p)) (combine s m)).

(** [s.diff()]: the first entry is NaN, each later one the value minus its
    predecessor; the labels stay. *)
Definition diff_values (vs : list num) : list num :=
  match vs with
  | [] => []
  | v :: vs' => NaN :: List.map (fun p => sub (snd p) (fst p)) (combine (v :: vs') vs')
  end.

Definition diff (s : Series num) : Series num :=
  combine (index s) (diff_values (values s)).

(** [s.diff()] on an int64 column: the differences are taken in int64,
    which wraps around, and stored as floats. *)
Definition diff_int64 (s : Series Z) : Series num :=
  combine (index s)
    (match values s with
     | [] => []
     | v :: vs' =>
         NaN :: List.map (fun p => of_int (wrap64 (snd p - fst p))) (combine (v :: vs') vs')
     end).

(** [s.diff()] on a column of a table. *)
Definition column_diff (s : Series cell) : result (Series num) :=
  match as_int64 s with
  | Some (lz :: zs) => Ok (diff_int64 (lz :: zs))
  | _ => f ← to_float64 s; Ok (diff f)
  end.

(** [s.iloc[a:-b]] for [a, b >= 0]: positions [a <= p < len - b]. *)
Definition iloc {A} (a b : nat) (s : Series A) : Series A :=
  firstn (length s - b - a) (skipn a s).

(** numpy's [argmin] over values without NaN: first position of the least. *)
Fixpoint argmin_from (best : num) (besti : nat) (i : nat) (l : list num) : nat :=
  match l with
  | [] => besti
  | v :: l' =>
      if ltb v best then argmin_from v i (S i) l'
      else argmin_from best besti (S i) l'
  end.

Definition fill_inf (x : num) : num := if isnan x then PosInf else x.

(** [s.idxmin()] ([skipna=True]): NaN is replaced by +inf before the
    search.  An empty series raises ValueError; so does one that is all
    NaN (pandas 3; earlier versions hand back NaN, which is no label). *)
Definition idxmin (s : Series num) : result Z :=
  match values s with
  | [] => Raise ValueError
  | v :: vs =>
      if forallb isnan (v :: vs) then Raise ValueError
      else
        let i := argmin_from (fill_inf v) 0 1 (List.map fill_inf vs) in
        match nth_error (index s) i with
        | Some l => Ok l
        | None => Raise IndexError
        end
  end.

Record DataFrame : Type := {
  df_index : list Z;
  df_columns : list (string * list cell)
}.

Definition empty_frame : DataFrame := {| df_index := []; df_columns := [] |}.

(** Every column of a frame has one cell per row. *)
Definition wf_frame (df : DataFrame) : Prop :=
  Forall (fun kc => length (snd kc) = length (df_index df)) (df_columns df).

Fixpoint assoc {A} (k : string) (l : list (string * A)) : option A :=
  match l with
  | [] => None
  | (k', v) :: l' => if String.eqb k k' then Some v else assoc k l'
  end.

(** Replace the entry of [k] where it stands, or append it. *)
Fixpoint upsert {A} (k : string) (v : A) (l : list (string * A)) : list (string * A) :=
  match l with
  | [] => [(k, v)]
  | (k', v') :: l' =>
      if String.eqb k k' then (k, v) :: l' else (k', v') :: upsert k v l'
  end.

(** [df.shape] *)
Definition shape (df : DataFrame) : nat * nat :=
  (length (df_index df), length (df_columns df)).

(** [df[name]] *)
Definition getitem (df : DataFrame) (name : string) : result (Series cell) :=
  match assoc name (df_columns df) with
  | Some col => Ok (combine (df_index df) col)
  | None => Raise KeyError
  end.

Fixpoint lookup_label {A} (l : Z) (s : Series A) : option A :=
  match s with
  | [] => None
  | (l', v) :: s' => if Z.eqb l l' then Some v else lookup_label l s'
  end.

(** [s.reindex(idx)]: duplicate labels in [s] raise ValueError; a label that
    [s] lacks gets NaN. *)
Definition reindex (s : Series cell) (idx : list Z) : result (list cell) :=
  if bool_decide (NoDup (index s)) then
    Ok (List.map (fun l => default (Num NaN) (lookup_label l s)) idx)
  else Raise ValueError.

(** [df[name] = s].  A frame without rows takes over the index of [s] (its
    columns, all empty, are filled with NaN); a Series over the frame's own
    index is stored as it is; any other is reindexed first. *)
Definition setitem (df : DataFrame) (name : string) (s : Series cell) : result DataFrame :=
  match df_index df with
  | [] =>
      let blank := List.map (fun _ => Num NaN) (index s) in
      Ok {| df_index := index s;
            df_columns := upsert name (values s)
                            (List.map (fun kc => (fst kc, blank)) (df_columns df)) |}
  | _ :: _ =>
      if bool_decide (index s = df_index df) then
        Ok {| df_index := df_index df;
              df_columns := upsert name (values s) (df_columns df) |}
      else
        col ← reindex s (df_index df);
        Ok {| df_index := df_index df;
              df_columns := upsert name col (df_columns df) |}
  end.

(** *** Reading a table

    [pd.read_csv] with the C engine and its defaults, on delimited text
    with a header line.  What the model does not cover is answered by
    [Unsupported]: a double quote anywhere in the file (quoted fields), a
    column name that is empty or occurs twice (pandas renames these), more
    than one leading column without a name or one whose labels are not
    integers (the row labels of the model are integers), a column of
    booleans, an integer column beyond int64. *)

(** The strings read as a missing value. *)
Definition na_values : list string :=
  [""; "#N/A"; "#N/A N/A"; "#NA"; "-1.#IND"; "-1.#QNAN"; "-NaN"; "-nan";
   "1.#IND"; "1.#QNAN"; "<NA>"; "N/A"; "NA"; "NULL"; "NaN"; "None"; "n/a";
   "nan"; "null"]%string.

Definition is_na (s : string) : bool := existsb (String.eqb s) na_values.

(** An integer field of an int64 column. *)
Definition parse_int64 (s : string) : option Z := parse_integer (strip s).

Definition in_int64 (z : Z) : bool := (- 2 ^ 63 <=? z) && (z <? 2 ^ 63).

(** A field of a float64 column: a missing value, an infinity in any
    letter case, or a decimal literal, rounded; a literal too large for a
    float is no number.  (The converter of pandas keeps 17 significant
    digits and scales them by a power of ten: it agrees with the rounded
    value on literals of up to 15 digits with an exponent of at most 22 in
    size, and can be off in the last place beyond.) *)
Definition parse_float (s : string) : option num :=
  if is_na s then Some NaN
  else
    let cs := strip s in
    let word := string_of_list_ascii (List.map lower cs) in
    if existsb (String.eqb word) ["inf"; "+inf"; "infinity"; "+infinity"]%string then Some PosInf
    else if existsb (String.eqb word) ["-inf"; "-infinity"]%string then Some NegInf
    else
      match round <$> parse_decimal cs with
      | Some (Finite q) => Some (Finite q)
      | _ => None
      end.

Definition is_bool_word (s : string) : bool :=
  existsb (String.eqb s) ["True"; "TRUE"; "true"; "False"; "FALSE"; "false"]%string.

(** The cells of a column from its fields: int64 when every field is an
    integer, else float64 when every field reads as a float, else text with
    NaN for the missing fields. *)
Definition convert_column (fields : list string) : result (list cell) :=
  match mapM parse_int64 fields with
  | Some zs =>
      if forallb in_int64 zs then Ok (List.map Int zs) else Raise Unsupported
  | None =>
      match mapM parse_float fields with
      | Some xs => Ok (List.map Num xs)
      | None =>
          if forallb (fun s => is_bool_word s || is_na s) fields then Raise Unsupported
          else Ok (List.map (fun s => if is_na s then Num NaN else Str s) fields)
      end
  end.

(** A line that is skipped: empty, or blanks and tabs that are not the
    delimiter. *)
Definition is_blank (delimiter : ascii) (line : string) : bool :=
  forallb (fun c => (Ascii.eqb c " " || Ascii.eqb c tab) && negb (Ascii.eqb c delimiter))
    (list_ascii_of_string line).

(** One data line against [n] fields: more fields is a ParserError, fewer
    are padded with missing ones. *)
Definition read_row (sep : ascii) (n : nat) (line : string) : result (list string) :=
  let fields := split_fields sep line in
  if (n <? length fields)%nat then Raise ParserError
  else Ok (fields ++ repeat ""%string (n - length fields)).

Fixpoint read_rows (sep : ascii) (n : nat) (lines : list string) : result (list (list string)) :=
  match lines with
  | [] => Ok []
  | line :: lines' =>
      row ← read_row sep n line;
      rows ← read_rows sep n lines';
      Ok (row :: rows)
  end.

Fixpoint has_duplicate (names : list string) : bool :=
  match names with
  | [] => false
  | name :: names' => existsb (String.eqb name) names' || has_duplicate names'
  end.

(** The columns [first .. first + length names - 1] of the rows. *)
Fixpoint read_columns (names : list string) (first : nat) (rows : list (list string))
    : result (list (string * list cell)) :=
  match names with
  | [] => Ok []
  | name :: names' =>
      col ← convert_column (List.map (fun row => nth first row ""%string) rows);
      cols ← read_columns names' (S first) rows;
      Ok ((name, col) :: cols)
  end.

(** The first data line fixes the number of fields of a row, which is at
    least the number of names; fields beyond the names stand in front and
    label the rows. *)
Definition read_csv (f : file) (sep : option ascii) (skiprows : nat) : result DataFrame :=
  let delimiter := default comma sep in
  if existsb (fun line => existsb (Ascii.eqb quote) (list_ascii_of_string line)) f
  then Raise Unsupported
  else
    match List.filter (fun line => negb (is_blank delimiter line)) (skipn skiprows f) with
    | [] => Raise EmptyDataError
    | head :: lines =>
        let names := split_fields delimiter head in
        if existsb (String.eqb "") names || has_duplicate names then Raise Unsupported
        else
          let width :=
            match lines with
            | [] => length names
            | first :: _ => Nat.max (length names) (length (split_fields delimiter first))
            end in
          rows ← read_rows delimiter width lines;
          match (width - length names)%nat with
          | O =>
              cols ← read_columns names 0 rows;
              Ok {| df_index := List.map Z.of_nat (seq 0 (length rows)); df_columns := cols |}
          | S O =>
              match mapM parse_int64 (List.map (fun row => nth 0 row ""%string) rows) with
              | Some labels =>
                  if forallb in_int64 labels then
                    cols ← read_columns names 1 rows;
                    Ok {| df_index := labels; df_columns := cols |}
                  else Raise Unsupported
              | None => Raise Unsupported
              end
          | _ => Raise Unsupported
          end
    end.

(** *** The object store

    DataFrames are objects: a function is handed a reference and reads and
    writes the table behind it. *)

Definition ref : Type := nat.

Definition Py (A : Type) : Type :=
  gmap nat DataFrame -> gmap nat DataFrame * result A.

#[global] Instance Py_ret : MRet Py := fun A a h => (h, Ok a).
#[global] Instance Py_bind : MBind Py := fun A B f m h =>
  match m h with
  | (h', Ok a) => f a h'
  | (h', Raise e) => (h', Raise e)
  end.

Definition lift {A} (r : result A) : Py A := fun h => (h, r).

(** A fresh object holding [df]. *)
Definition new_object (df : DataFrame) : Py ref := fun h =>
  let r := fresh (dom h) in (<[r := df]> h, Ok r).

(** What is not a DataFrame cannot be subscripted: TypeError. *)
Definition deref (r : ref) : Py DataFrame := fun h =>
  (h, match h !! r with Some df => Ok df | None => Raise TypeError end).

Definition store (r : ref) (df : DataFrame) : Py unit := fun h =>
  (<[r := df]> h, Ok tt).

(** [pd.DataFrame()] *)
Definition new_DataFrame : Py ref := new_object empty_frame.

(** [df[name]] and [df[name] = s] through a reference. *)
Definition df_getitem (r : ref) (name : string) : Py (Series cell) :=
  df ← deref r; lift (getitem df name).

Definition df_setitem (r : ref) (name : string) (s : Series cell) : Py unit :=
  df ← deref r; df' ← lift (setitem df name s); store r df'.

(** A scalar in float arithmetic. *)
Definition scalar_float (c : cell) : result num :=
  match c with
  | Num x => Ok x
  | Int z => Ok (of_int z)
  | Str _ => Raise TypeError
  end.

(** [s.min()] on a column: an integer for an int64 column, else a float. *)
Definition series_min (s : Series cell) : result cell :=
  match as_int64 s with
  | Some ((_, z) :: zs) => Ok (Int (fold_left Z.min (values zs) z))
  | _ => f ← to_float64 s; Ok (Num (min f))
  end.

(** [s - c] on a column: int64 arithmetic, which wraps around, for an
    int64 column and an integer; else float arithmetic. *)
Definition series_sub (s : Series cell) (c : cell) : result (Series cell) :=
  match as_int64 s, c with
  | Some ((l, z) :: zs), Int m =>
      Ok (of_int64 (map_values (fun v => wrap64 (v - m)) ((l, z) :: zs)))
  | _, _ =>
      f ← to_float64 s;
      x ← scalar_float c;
      Ok (of_float64 (sub_scalar f x))
  end.

End Pandas.

(** ** numpy and scikit-learn *)

Module Sklearn.
Import Pandas.

(** [np.unique]: the distinct values, sorted. *)
Fixpoint insert_unique (z : Z) (l : list Z) : list Z :=
  match l with
  | [] => [z]
  | y :: l' =>
      if z <? y then z :: l
      else if z =? y then l
      else y :: insert_unique z l'
  end.

Definition np_unique (l : list Z) : list Z := fold_right insert_unique [] l.

(** [np.nansum]: NaN counts as zero. *)
Definition np_nansum (l : list num) : num := np_sum (List.filter notnan l).

(** [np.finfo(np.float64).eps] *)
Definition float_eps : num := Finite (2 ^ (-52)).

(** [_incremental_mean_and_var] on the first batch of one feature: the
    mean and the population variance of the samples that are not NaN, the
    variance by the two-pass algorithm with its correction term. *)
Definition incremental_mean_and_var (X : list num) : num * num * nat :=
  let n := length (List.filter notnan X) in
  let new_sum := np_nansum X in
  let new_sample_count := of_nat n in
  let updated_mean := div (add (Finite 0) new_sum) new_sample_count in
  let T := div new_sum new_sample_count in
  let temp := List.map (fun x => sub x T) X in
  let correction := np_nansum temp in
  let temp := List.map (fun t => mul t t) temp in
  let new_unnormalized_variance := np_nansum temp in
  let new_unnormalized_variance :=
    sub new_unnormalized_variance (div (mul correction correction) new_sample_count) in
  let updated_variance := div new_unnormalized_variance new_sample_count in
  (updated_mean, updated_variance, n).

(** [_is_constant_feature]: the variance is within what rounding alone
    can produce. *)
Definition is_constant_feature (var mean : num) (n_samples : nat) : bool :=
  let n := of_nat n_samples in
  let t := mul (mul n mean) float_eps in
  let upper_bound := add (mul (mul n float_eps) var) (mul t t) in
  leb var upper_bound.

(** The scaler fitted to [X] and applied to it: each sample is centred on
    the mean and divided by the standard deviation, which is replaced by 1
    for a constant feature. *)
Definition standardize `{Sqrt} (X : list num) : list num :=
  let '(mean_, var_, n_samples_seen_) := incremental_mean_and_var X in
  let scale_ :=
    if is_constant_feature var_ mean_ n_samples_seen_ then Finite 1 else sqrt var_ in
  List.map (fun x => div (sub x mean_) scale_) X.

(** [StandardScaler().fit_transform(X)] on one feature.  Input validation
    wants at least one sample and no infinity (NaN is let through). *)
Definition StandardScaler_fit_transform `{Sqrt} (X : list num) : result (list num) :=
  match X with
  | [] => Raise ValueError
  | _ :: _ =>
      if forallb (fun x => isnan x || isfinite x) X then Ok (standardize X)
      else Raise ValueError
  end.

(** Positions of the samples within [eps] of sample [x] (itself included). *)
Definition neighborhood (eps : num) (X : list num) (x : num) : list nat :=
  List.map fst
    (List.filter (fun iy => negb (ltb eps (Num.abs (sub x (snd iy)))))
       (combine (seq 0 (length X)) X)).

Definition get_label (labels : list Z) (i : nat) : Z := nth i labels (-1).

(** The depth-first expansion of one cluster from sample [i]: an unlabelled
    sample takes the label, and a core sample pushes its unlabelled
    neighbours; the walk ends when the stack is empty. *)
Fixpoint expand_cluster (fuel : nat) (is_core : list bool) (neighborhoods : list (list nat))
    (label_num : Z) (i : nat) (stack : list nat) (labels : list Z) : list Z :=
  match fuel with
  | O => labels
  | S fuel' =>
      let unlabelled := get_label labels i =? -1 in
      let labels' := if unlabelled then <[i := label_num]> labels else labels in
      let stack' :=
        if unlabelled && nth i is_core false then
          rev (List.filter (fun v => get_label labels' v =? -1) (nth i neighborhoods []))
            ++ stack
        else stack in
      match stack' with
      | [] => labels'
      | j :: stack'' =>
          expand_cluster fuel' is_core neighborhoods label_num j stack'' labels'
      end
  end.

(** The outer loop of DBSCAN over the samples in order. *)
Fixpoint dbscan_inner (is_core : list bool) (neighborhoods : list (list nat))
    (todo : list nat) (label_num : Z) (labels : list Z) : list Z :=
  match todo with
  | [] => labels
  | i :: todo' =>
      if negb (get_label labels i =? -1) || negb (nth i is_core false) then
        dbscan_inner is_core neighborhoods todo' label_num labels
      else
        let n := length labels in
        let labels' :=
          expand_cluster (n * n + n + 1) is_core neighborhoods label_num i [] labels in
        dbscan_inner is_core neighborhoods todo' (label_num + 1) labels'
  end.

(** The labels DBSCAN gives to validated samples.  A sample is a core
    sample when its neighbourhood holds at least [min_samples] samples;
    label -1 is noise. *)
Definition dbscan (eps : num) (min_samples : Z) (X : list num) : list Z :=
  let neighborhoods := List.map (neighborhood eps X) X in
  let is_core :=
    List.map (fun nb => min_samples <=? Z.of_nat (length nb)) neighborhoods in
  dbscan_inner is_core neighborhoods (seq 0 (length X)) 0 (List.map (fun _ => -1) X).

(** [DBSCAN(eps=eps, min_samples=min_samples).fit_predict(X)] on one
    feature.  [eps] must lie in the open interval from 0 to infinity and
    [min_samples] be at least 1, and [X] must be non-empty and finite, else
    ValueError. *)
Definition DBSCAN_fit_predict (eps : num) (min_samples : Z) (X : list num) : result (list Z) :=
  if negb (gtb eps (Finite 0) && isfinite eps) || (min_samples <? 1) then Raise ValueError
  else
    match X with
    | [] => Raise ValueError
    | _ :: _ =>
        if forallb isfinite X then Ok (dbscan eps min_samples X)
        else Raise ValueError
    end.

End Sklearn.

(** ** tutorial_answers/utils/u03_oop.py *)

Module u03_oop.
Import Pandas Sklearn.

Section Functions.
Context `{Sqrt}.

Definition label_clusters (vals : Series num) (eps : num) (min_samples : Z) : result (list Z) :=
  let reshaped_vals := values vals in
  reshaped_normalized_vals ← StandardScaler_fit_transform reshaped_vals;
  cluster_labels ← DBSCAN_fit_predict eps min_samples reshaped_normalized_vals;
  Ok cluster_labels.

(** [x[cluster_labels == i]]: a boolean array of another length than [x]
    raises IndexError. *)
Definition select_label (x : Series num) (cluster_labels : list Z) (i : Z) : result (Series num) :=
  if (length cluster_labels =? length x)%nat then
    Ok (List.map fst (List.filter (fun p => snd p =? i) (combine x cluster_labels)))
  else Raise IndexError.

(** The body of the loop of [unique_values] over the remaining labels. *)
Fixpoint unique_values_loop (x : Series num) (cluster_labels : list Z) (todo : list Z)
    (unique_values : list num) : result (list num) :=
  match todo with
  | [] => Ok unique_values
  | i :: todo' =>
      cluster ← select_label x cluster_labels i;
      let unique_val := mean cluster in
      let unique_val := round1 unique_val in
      unique_values_loop x cluster_labels todo' (unique_values ++ [unique_val])
  end.

Definition unique_values (x : Series num) (eps : num) (min_samples : Z) : result (list num) :=
  cluster_labels ← label_clusters x eps min_samples;
  unique_values_loop x cluster_labels (np_unique cluster_labels) [].

Definition find_outlier_indices (x : Series num) (threshold : num) : list Z :=
  let z_scores := div_scalar (sub_scalar x (mean x)) (std x) in
  let outliers := gt_scalar (abs z_scores) threshold in
  index (mask outliers outliers).

Definition find_temp_turnaround_point (df : DataFrame) : result Z :=
  col ← getitem df "Temperature (K)";
  differences ← column_diff col;
  let outlier_indices := find_outlier_indices differences (of_Z 3) in
  if (length outlier_indices =? 0)%nat then
    col ← getitem df "Temperature (K)";
    differences ← column_diff (iloc 20 20 col);
    zero_point ← idxmin (abs differences);
    Ok zero_point
  else
    match outlier_indices with
    | i :: _ => Ok i
    | [] => Raise IndexError
    end.

End Functions.

End u03_oop.

(** ** tutorial/utils/u02_parsing.py *)

Module u02_parsing.
Import Text Pandas.

(** [csv.reader(f, delimiter=sep)] *)
Definition csv_reader (sep : ascii) (f : file) : list (result (list string)) :=
  Csv.reader sep f.

(** The loop of [get_header] over the rows the reader yields: an exception
    of the reader ends it, and [row[0]] of an empty row is an IndexError. *)
Fixpoint get_header_loop (reader : list (result (list string))) (header : list (list string))
    : result (list (list string)) :=
  match reader with
  | [] => Ok header
  | Raise e :: _ => Raise e
  | Ok row :: reader' =>
      let header := header ++ [row] in
      match row with
      | [] => Raise IndexError
      | field0 :: _ =>
          if String.eqb field0 "[Data]" then Ok header
          else get_header_loop reader' header
      end
  end.

Definition get_header (file_path : file) : result (list (list string)) :=
  get_header_loop (csv_reader tab file_path) [].

Definition measurement_type (df : ref) : Py string :=
  let meas_type := ""%string in
  moment ← df_getitem df "Moment (emu)";
  if notna_all moment then mret "VSM"%string
  else
    dc_moment ← df_getitem df "DC Moment Free Ctr (emu)";
    if notna_all dc_moment then mret "DC"%string
    else mret meas_type.

Definition simplify_magnetic_df (df : ref) : Py ref :=
  new_df ← new_DataFrame;
  stamp ← df_getitem df "Time Stamp (sec)";
  stamp' ← df_getitem df "Time Stamp (sec)";
  least ← lift (series_min stamp');
  time ← lift (series_sub stamp least);
  df_setitem new_df "time" time;;
  temp ← df_getitem df "Temperature (K)";
  df_setitem new_df "temp" temp;;
  field ← df_getitem df "Magnetic Field (Oe)";
  df_setitem new_df "field" field;;
  meas_type ← measurement_type df;
  (if String.eqb meas_type "VSM" then
     moment ← df_getitem df "Moment (emu)";
     df_setitem new_df "moment" moment;;
     moment_err ← df_getitem df "M. Std. Err. (emu)";
     df_setitem new_df "moment_err" moment_err
   else if String.eqb meas_type "DC" then
     moment ← df_getitem df "DC Moment Free Ctr (emu)";
     df_setitem new_df "moment" moment;;
     moment_err ← df_getitem df "DC Moment Err Free Ctr (emu)";
     df_setitem new_df "moment_err" moment_err
   else mret tt);;
  mret new_df.

Section Reader.

(** [pd.read_csv(file, sep=..., skiprows=...)] as a parser of the file's
    lines: [None] is the default delimiter. *)
Variable read_csv : file -> option ascii -> nat -> result DataFrame.

Definition pd_read_csv (f : file) (sep : option ascii) (skiprows : nat) : Py ref :=
  df ← lift (read_csv f sep skiprows); new_object df.

Definition get_data (file_path : file) : Py ref :=
  header ← lift (get_header file_path);
  let skip_rows := length header in
  df ← pd_read_csv file_path (Some tab) skip_rows;
  frame ← deref df;
  if (snd (shape frame) =? 1)%nat then
    df ← pd_read_csv file_path None skip_rows;
    mret df
  else mret df.

Definition magnetic_df (file_path : file) : Py ref :=
  df ← get_data file_path;
  simplify_magnetic_df df.

End Reader.

End u02_parsing.

(** ** Notions used to state the properties *)

Module Spec.
Import Text Pandas.

(** *** Statistics of a series *)

(** The values of a series that are not missing. *)
Definition present (x : Series num) : list num := List.filter notnan (values x).

(** The sum of a list of numbers, added in their order. *)
Definition total (vs : list num) : num := fold_left add vs (Finite 0).

(** The arithmetic mean: the sum over the count. *)
Definition average (vs : list num) : num := div (total vs) (of_nat (length vs)).

(** The sample standard deviation: the root of the sum of the squared
    distances to the mean, over one less than the count; undefined for
    fewer than two values. *)
Definition sample_deviation `{Sqrt} (vs : list num) : num :=
  match vs with
  | [] | [_] => NaN
  | _ =>
      let m := average vs in
      let squares := List.map (fun v => mul (sub v m) (sub v m)) vs in
      sqrt (div (total squares) (of_nat (length vs - 1)))
  end.

(** The z-score of a value against the series it comes from. *)
Definition z_score `{Sqrt} (x : Series num) (v : num) : num :=
  div (sub v (average (present x))) (sample_deviation (present x)).

(** An element is flagged when its absolute z-score exceeds the threshold. *)
Definition flagged `{Sqrt} (x : Series num) (threshold : num) (lv : Z * num) : bool :=
  gtb (Num.abs (z_score x (snd lv))) threshold.


(** [v] is [m] rounded to one decimal: an infinity or NaN stays; else [v]
    is the float nearest to [k / 10] for an integer [k] that is within one
    half, and one rounding of the tenfold, of [10 * m]; or it is the
    infinity of the sign of [m] when the tenfold of [m] is no float. *)
Definition rounded_1 (m v : num) : Prop :=
  match m with
  | Finite q =>
      (exists k : Z,
         (Qabs (q * 10 - inject_Z k)
            <= (1 # 2) + (Qabs (q * 10) * 2 ^ (-53) + 2 ^ (-1075)))%Q /\
         v = round (inject_Z k / 10)) \/
      (isfinite (round (q * 10)) = false /\ v = round (q * 10))
  | _ => v = m
  end.



(** *** Tables *)

(** The columns of an instrument file that the normaliser may read. *)
Definition instrument_columns : list string :=
  ["Time Stamp (sec)"; "Temperature (K)"; "Magnetic Field (Oe)";
   "Moment (emu)"; "M. Std. Err. (emu)";
   "DC Moment Free Ctr (emu)"; "DC Moment Err Free Ctr (emu)"]%string.

Definition has_columns (df : DataFrame) (names : list string) : Prop :=
  Forall (fun name => is_ok (getitem df name) = true) names.

(** The cells of a column, none when the table lacks it. *)
Definition column (df : DataFrame) (name : string) : list cell :=
  default [] (assoc name (df_columns df)).

(** The names of the columns of a table, in order. *)
Definition column_names (df : DataFrame) : list string := List.map fst (df_columns df).

(** The table has every column that the normaliser reads from it: time
    stamp, temperature, field and moment; the error of the moment when the
    moment is complete; else the DC moment and, when that is complete, its
    error. *)
Definition readable (df : DataFrame) : Prop :=
  has_columns df ["Time Stamp (sec)"; "Temperature (K)"; "Magnetic Field (Oe)";
                  "Moment (emu)"]%string /\
  if forallb notna (column df "Moment (emu)") then
    has_columns df ["M. Std. Err. (emu)"%string]
  else
    has_columns df ["DC Moment Free Ctr (emu)"%string] /\
    (forallb notna (column df "DC Moment Free Ctr (emu)") = true ->
     has_columns df ["DC Moment Err Free Ctr (emu)"%string]).

(** The table the normaliser is meant to build from [df], given the cells
    of its "time" column. *)
Definition simplified (df : DataFrame) (time : list cell) : DataFrame :=
  {| df_index := df_index df;
     df_columns :=
       [("time", time);
        ("temp", column df "Temperature (K)");
        ("field", column df "Magnetic Field (Oe)")]%string
       ++ (if forallb notna (column df "Moment (emu)") then
             [("moment", column df "Moment (emu)");
              ("moment_err", column df "M. Std. Err. (emu)")]
           else if forallb notna (column df "DC Moment Free Ctr (emu)") then
             [("moment", column df "DC Moment Free Ctr (emu)");
              ("moment_err", column df "DC Moment Err Free Ctr (emu)")]
           else [])%string |}.

(** Time stamps that can be shifted to start at zero: floats with a finite
    least value, or integers whose spread fits int64. *)
Definition shiftable (stamp : Series cell) : Prop :=
  (exists ts, as_float64 stamp = Ok ts /\ isfinite (min ts) = true) \/
  (exists zs, as_int64 stamp = Some zs /\ zs <> [] /\
     forall a b, In a (values zs) -> In b (values zs) -> a - b < 2 ^ 63).

(** [c] is the least value of the column [s]: it occurs in it, and no
    cell of [s] is below it. *)
Definition cell_ltb (a b : cell) : bool :=
  match a, b with
  | Num x, Num y => ltb x y
  | Int x, Int y => x <? y
  | _, _ => false
  end.

Definition is_least (s : Series cell) (c : cell) : Prop :=
  In c (values s) /\ notna c = true /\
  Forall (fun v => cell_ltb v c = false) (values s).

(** [c] less [least], in the arithmetic of the column. *)
Definition cell_sub (c least : cell) : cell :=
  match c, least with
  | Num x, Num m => Num (sub x m)
  | Int x, Int m => Int (x - m)
  | _, _ => c
  end.

Definition is_zero (c : cell) : bool :=
  match c with
  | Num x => eqb x (Finite 0)
  | Int z => z =? 0
  | Str _ => false
  end.

(** *** The object store *)

(** [m] changes no object but, at most, [new], which it does not drop. *)
Definition only_writes {A} (new : ref) (m : Py A) : Prop :=
  forall h,
    (forall r, r <> new -> (m h).1 !! r = h !! r) /\
    (is_Some (h !! new) -> is_Some ((m h).1 !! new)).

(** [m] changes nothing. *)
Definition read_only {A} (m : Py A) : Prop := forall h, (m h).1 = h.

(** [m] can only return [a]. *)
Definition returns {A} (a : A) (m : Py A) : Prop :=
  forall h v, (m h).2 = Ok v -> v = a.

(** [m] leaves every object of the store it starts from as it is. *)
Definition preserves {A} (m : Py A) : Prop :=
  forall h r, r ∈ dom h -> (m h).1 !! r = h !! r.

(** *** Header lines *)

(** The first tab-separated field of a line: [row[0]] for a line that is
    not blank. *)
Definition first_field (line : string) : string :=
  hd ""%string (split_fields tab line).

(** A header line that [get_header] reads past: not blank, not the marker. *)
Definition plain_line (line : string) : Prop :=
  line <> ""%string /\ first_field line <> "[Data]"%string.

(** A line without a double quote or line-end character, short enough for
    the field size limit of the csv module: its row is its fields as they
    stand. *)
Definition unquoted (line : string) : Prop :=
  Forall (fun c => c <> quote /\ c <> newline /\ c <> carriage_return)
    (list_ascii_of_string line) /\
  Z.of_nat (String.length line) <= Csv.field_limit.

(** The fields of a line with [f] put in front of the first. *)
Definition glue (f : string) (l : list string) : list string :=
  match l with
  | g :: gs => (f ++ g)%string :: gs
  | [] => [f]
  end.

(** The row of an unquoted line. *)
Definition row_of (line : string) : list string :=
  if String.eqb line "" then [] else split_fields tab line.

(** *** DBSCAN *)

(** Two samples within [eps] of one another. *)
Definition near (eps a b : num) : bool := negb (ltb eps (Num.abs (sub a b))).

(** Sample [c] of [X] is a core sample: at least [min_samples] samples of
    [X], itself included, are within [eps] of it. *)
Definition core_sample (eps : num) (min_samples : Z) (X : list num) (c : nat) : bool :=
  min_samples <=? Z.of_nat (length (List.filter (near eps (nth c X NaN)) X)).

Definition unlabelled_count (labels : list Z) : nat :=
  length (List.filter (fun l => l =? -1) labels).

Section Walk.
Variable is_core : list bool.
Variable neighborhoods : list (list nat).
Variable n : nat.

Definition core (c : nat) : Prop := nth c is_core false = true.

(** Every neighbour of a labelled core sample is labelled. *)
Definition closed (labels : list Z) : Prop :=
  forall c v, core c -> Sklearn.get_label labels c <> -1 ->
    In v (nth c neighborhoods []) -> Sklearn.get_label labels v <> -1.

(** The same up to what the walk still has to visit. *)
Definition pending (labels : list Z) (stack : list nat) (i : nat) : Prop :=
  forall c v, core c -> Sklearn.get_label labels c <> -1 ->
    In v (nth c neighborhoods []) ->
    Sklearn.get_label labels v <> -1 \/ In v stack \/ v = i.

(** A sample that is a core sample or a neighbour of one. *)
Definition reached (v : nat) : Prop :=
  core v \/ exists c, core c /\ In v (nth c neighborhoods []).

(** Only reached samples are labelled. *)
Definition grounded (labels : list Z) : Prop :=
  forall v, Sklearn.get_label labels v <> -1 -> reached v.

(** Core samples that are neighbours carry the same label. *)
Definition linked (labels : list Z) : Prop :=
  forall c v, core c -> core v -> In v (nth c neighborhoods []) ->
    Sklearn.get_label labels c <> -1 ->
    Sklearn.get_label labels v = Sklearn.get_label labels c.

End Walk.

End Spec.

(** ** Sample data *)

Module Samples.
Import Text Pandas Spec.

(** A column of whole numbers, as floats. *)
Definition whole (vals : list Z) : list cell := List.map (fun z => Num (of_Z z)) vals.

(** The default row labels 0 .. n-1. *)
Definition range_index (n : nat) : list Z := List.map Z.of_nat (seq 0 n).

(** A series of whole numbers over the default labels. *)
Definition series_of (vals : list Z) : Series num :=
  combine (range_index (length vals)) (List.map of_Z vals).

(** The float nearest to [n / 10], over the default labels. *)
Definition tenths (vals : list Z) : Series num :=
  combine (range_index (length vals)) (List.map (fun n => round (n # 10)) vals).

(** A table with only a temperature column. *)
Definition temperature_table (vals : list Z) : DataFrame :=
  {| df_index := range_index (length vals);
     df_columns := [("Temperature (K)"%string, whole vals)] |}.


(** A ramp 1 .. 15, a reset to 0, a second ramp 1 .. 5. *)
Definition reset_ramp : list Z :=
  [1; 2; 3; 4; 5; 6; 7; 8; 9; 10; 11; 12; 13; 14; 15; 0; 1; 2; 3; 4; 5].



(** A two-row instrument table in VSM mode with the given time stamps. *)
Definition vsm_table (stamps : list cell) : DataFrame :=
  {| df_index := range_index 2;
     df_columns :=
       [("Time Stamp (sec)", stamps);
        ("Temperature (K)", whole [300; 299]);
        ("Magnetic Field (Oe)", whole [100; 100]);
        ("Moment (emu)", whole [7; 8]);
        ("M. Std. Err. (emu)", whole [1; 1]);
        ("DC Moment Free Ctr (emu)", [Num NaN; Num NaN]);
        ("DC Moment Err Free Ctr (emu)", [Num NaN; Num NaN])]%string |}.

(** A VSM table of the five columns that mode needs. *)
Definition vsm_only_table (stamps : list cell) : DataFrame :=
  {| df_index := range_index 2;
     df_columns :=
       [("Time Stamp (sec)", stamps);
        ("Temperature (K)", whole [300; 299]);
        ("Magnetic Field (Oe)", whole [100; 100]);
        ("Moment (emu)", whole [7; 8]);
        ("M. Std. Err. (emu)", whole [1; 1])]%string |}.

(** Time stamps 10.5 and 12.5. *)
Definition half_seconds : list cell := [Num (Finite (21 # 2)); Num (Finite (25 # 2))].

(** A data section with a single column. *)
Definition one_column_file : file := ["[Data]"; "A"; "1"; "2"]%string.

(** A comma-separated data section. *)
Definition comma_file : file := ["title"; "[Data]"; "a,b"; "1,2"; "3,4"]%string.

(** A line of tab-separated fields. *)
Fixpoint tab_line (fields : list string) : string :=
  match fields with
  | [] => ""
  | [f] => f
  | f :: fs => f ++ String tab (tab_line fs)
  end%string.

(** A header of two lines, the marker, a comma-separated data section. *)
Definition titled_file : file :=
  ["title"; tab_line ["x"; "y"]; "[Data]"; "a,b"; "1,2"]%string.

(** A tab-separated data section of two columns. *)
Definition tab_file : file :=
  ["[Data]"; tab_line ["a"; "b"]; tab_line ["1"; "2"]]%string.

(** An instrument file in VSM mode: the DC columns are left empty. *)
Definition vsm_file : file :=
  ["[Header]"%string; "[Data]"%string;
   tab_line instrument_columns;
   tab_line ["10.5"; "300.0"; "100.0"; "7.0"; "1.0"; ""; ""]%string;
   tab_line ["12.5"; "299.0"; "100.0"; "8.0"; "1.0"; ""; ""]%string].

(** The table read from [vsm_file]. *)
Definition vsm_read : DataFrame :=
  {| df_index := range_index 2;
     df_columns :=
       [("Time Stamp (sec)", [Num (Finite (21 # 2)); Num (Finite (25 # 2))]);
        ("Temperature (K)", whole [300; 299]);
        ("Magnetic Field (Oe)", whole [100; 100]);
        ("Moment (emu)", whole [7; 8]);
        ("M. Std. Err. (emu)", whole [1; 1]);
        ("DC Moment Free Ctr (emu)", [Num NaN; Num NaN]);
        ("DC Moment Err Free Ctr (emu)", [Num NaN; Num NaN])]%string |}.

(** A table with the moment column and no rows. *)
Definition no_rows_table : DataFrame :=
  {| df_index := []; df_columns := [("Moment (emu)"%string, [])] |}.

Definition two_plateaus : Series num := series_of [1; 1; 1; 5; 5; 5; 9].


End Samples.

(** * Properties *)

(** ** Order and arithmetic of [num] *)

Module NumFacts.

Lemma ltb_Finite (a b : Q) : ltb (Finite a) (Finite b) = true <-> (a < b)%Q.
Proof.
  simpl. rewrite negb_true_iff. split.
  - intros Hle. apply Qnot_le_lt. intros Hba.
    apply Qle_bool_iff in Hba. congruence.
  - intros Hlt. destruct (Qle_bool b a) eqn:E; [|reflexivity].
    apply Qle_bool_iff in E. lra.
Qed.

Lemma ltb_Finite_false (a b : Q) : ltb (Finite a) (Finite b) = false <-> (b <= a)%Q.
Proof.
  simpl. rewrite negb_false_iff. apply Qle_bool_iff.
Qed.

Lemma ltb_irrefl (x : num) : ltb x x = false.
Proof.
  destruct x as [| | |a]; try reflexivity. apply ltb_Finite_false. lra.
Qed.

Lemma ltb_trans (x y z : num) : ltb x y = true -> ltb y z = true -> ltb x z = true.
Proof.
  destruct x as [| | |a], y as [| | |b], z as [| | |c]; try (simpl; congruence).
  rewrite !ltb_Finite. lra.
Qed.

Lemma ltb_asym (x y : num) : ltb x y = true -> ltb y x = false.
Proof.
  destruct x as [| | |a], y as [| | |b]; try (simpl; congruence).
  rewrite ltb_Finite, ltb_Finite_false. lra.
Qed.

(** Below something that [y] is not below: below [y] (without NaN). *)
Lemma ltb_not_ltb (x y z : num) :
  isnan y = false -> ltb x z = true -> ltb y z = false -> ltb x y = true.
Proof.
  destruct x as [| | |a], y as [| | |b], z as [| | |c]; try (simpl; congruence).
  rewrite !ltb_Finite, ltb_Finite_false. lra.
Qed.

Lemma gtb_NaN (x : num) : gtb NaN x = false.
Proof. destruct x; reflexivity. Qed.



Lemma isfinite_Finite (v : num) : isfinite v = true -> exists a, v = Finite a.
Proof. destruct v; try discriminate. eauto. Qed.

(** *** Rounding *)


Lemma round_half_even_nonneg (x : Q) : (0 <= x)%Q -> 0 <= round_half_even x.
Proof.
  intros Hx. unfold round_half_even.
  assert (Hn : 0 <= Qfloor x).
  { change 0 with (Qfloor 0). apply Qfloor_resp_le, Hx. }
  destruct (_ ?= _)%Q; [destruct (Z.even _)| |]; lia.
Qed.

Lemma two_power_pos (e : Z) : (0 < 2 ^ e)%Q.
Proof. apply Qpower_0_lt. reflexivity. Qed.



Lemma nearest_nonneg (q : Q) : (0 < q)%Q -> (0 <= nearest q)%Q.
Proof.
  intros Hq. unfold nearest. rewrite Qred_correct.
  pose proof (two_power_pos (ulp_exponent q)) as He.
  apply Qmult_le_0_compat; [|lra].
  change 0%Q with (inject_Z 0). rewrite <- Zle_Qle. apply round_half_even_nonneg.
  apply Qle_shift_div_l; lra.
Qed.

(** Rounding sees the value of a rational, not its form. *)
Lemma round_Qeq (p q : Q) : (p == q)%Q -> round p = round q.
Proof. intros Hpq. unfold round. rewrite (Qred_complete p q Hpq). reflexivity. Qed.

Lemma round_zero (q : Q) : (q == 0)%Q -> round q = Finite 0.
Proof. intros Hq. rewrite (round_Qeq q 0 Hq). reflexivity. Qed.

Lemma Qopp_opp_eq (q : Q) : (- - q)%Q = q.
Proof. destruct q as [n d]. unfold Qopp. simpl. rewrite Z.opp_involutive. reflexivity. Qed.

(** Rounding is odd. *)
Lemma round_opp (q : Q) : round (- q) = neg (round q).
Proof.
  unfold round. rewrite Qred_opp.
  destruct (Qred q) as [n d] eqn:E. destruct n as [|p|p].
  - reflexivity.
  - change ((- (Z.pos p # d) ?= 0)%Q) with Lt. change ((Z.pos p # d ?= 0)%Q) with Gt.
    cbv zeta. rewrite Qopp_opp_eq. destruct (Qle_bool _ _); reflexivity.
  - change ((- (Z.neg p # d) ?= 0)%Q) with Gt. change ((Z.neg p # d ?= 0)%Q) with Lt.
    cbv zeta. destruct (Qle_bool (2 ^ 1024) (nearest (- (Z.neg p # d)))); [reflexivity|].
    cbn [neg]. rewrite Qopp_opp_eq. reflexivity.
Qed.

Lemma isnan_round (q : Q) : isnan (round q) = false.
Proof.
  unfold round. destruct (_ ?= _)%Q; cbv zeta; [reflexivity| |];
    destruct (Qle_bool _ _); reflexivity.
Qed.

(** Rounding keeps the sign. *)
Lemma round_nonneg (q : Q) :
  (0 <= q)%Q -> round q = PosInf \/ exists r, round q = Finite r /\ (0 <= r)%Q.
Proof.
  intros Hq. unfold round.
  destruct (Qcompare_spec (Qred q) 0) as [E|E|E].
  - right. exists 0%Q. split; [reflexivity|lra].
  - rewrite Qred_correct in E. lra.
  - cbv zeta. destruct (Qle_bool _ _); [left; reflexivity|right].
    eexists. split; [reflexivity|]. apply nearest_nonneg, E.
Qed.


(** *** Arithmetic *)

Lemma sub_Finite_same (a b : Q) : (a == b)%Q -> sub (Finite a) (Finite b) = Finite 0.
Proof. intros Hab. apply round_zero. rewrite Hab. ring. Qed.

(** A difference turned round changes its sign only. *)
Lemma sub_swap (x y : num) : sub y x = neg (sub x y).
Proof.
  destruct x as [| | |a], y as [| | |b]; try reflexivity.
  change (round (b + - a) = neg (round (a + - b))).
  rewrite <- round_opp. apply round_Qeq. ring.
Qed.

Lemma mul_neg_neg (x : num) : mul (neg x) (neg x) = mul x x.
Proof.
  destruct x as [| | |a]; try reflexivity.
  change (round (- a * - a) = round (a * a)). apply round_Qeq. ring.
Qed.

Lemma square_sub_swap (x y : num) : mul (sub y x) (sub y x) = mul (sub x y) (sub x y).
Proof. rewrite (sub_swap x y). apply mul_neg_neg. Qed.

Lemma abs_neg (x : num) (e : num) : ltb e (abs (neg x)) = ltb e (abs x).
Proof.
  destruct x as [| | |a]; try reflexivity.
  destruct e as [| | |p]; try reflexivity. cbn [neg abs ltb]. f_equal.
  apply Bool.eq_true_iff_eq. rewrite !Qle_bool_iff, Qabs_opp. reflexivity.
Qed.

(** Not below the subtrahend: a difference that is not below zero. *)
Lemma sub_nonneg (a b : Q) :
  (b <= a)%Q ->
  ltb (sub (Finite a) (Finite b)) (Finite 0) = false /\
  isnan (sub (Finite a) (Finite b)) = false.
Proof.
  intros Hba. change (sub (Finite a) (Finite b)) with (round (a + - b)).
  split; [|apply isnan_round].
  destruct (round_nonneg (a + - b)) as [-> | (r & -> & Hr)]; [lra|reflexivity|].
  apply ltb_Finite_false, Hr.
Qed.



End NumFacts.

(** ** Series *)

Module SeriesFacts.
Import Pandas NumFacts.

Lemma index_map_values {A B} (f : A -> B) (s : Series A) :
  index (map_values f s) = index s.
Proof. unfold index, map_values. rewrite List.map_map. reflexivity. Qed.

Lemma values_map_values {A B} (f : A -> B) (s : Series A) :
  values (map_values f s) = List.map f (values s).
Proof. unfold values, map_values. rewrite !List.map_map. reflexivity. Qed.

Lemma map_values_compose {A B C} (f : A -> B) (g : B -> C) (s : Series A) :
  map_values g (map_values f s) = map_values (fun v => g (f v)) s.
Proof. unfold map_values. rewrite List.map_map. reflexivity. Qed.

(** Masking a boolean series by itself keeps the labels of its true
    entries, in their order. *)
Lemma index_mask_self {A} (g : A -> bool) (s : Series A) :
  index (mask (map_values g s) (map_values g s))
  = List.map fst (List.filter (fun lv => g (snd lv)) s).
Proof.
  unfold index, mask, map_values.
  induction s as [|[l v] s IH]; [reflexivity|].
  simpl. destruct (g v); simpl; rewrite IH; reflexivity.
Qed.



End SeriesFacts.

(** ** The outlier detector *)

Module OutlierFacts.
Import Pandas u03_oop Spec NumFacts SeriesFacts.



Section WithSqrt.
Context `{Sqrt}.

(** The mean and the deviation that pandas computes are the mean and the
    sample standard deviation of the values present. *)
Lemma mean_average (x : Series num) : mean x = average (present x).
Proof. reflexivity. Qed.

Lemma std_sample_deviation (x : Series num) : std x = sample_deviation (present x).
Proof.
  unfold std, var, sample_deviation, dropna. fold (present x).
  destruct (present x) as [|a [|b l]]; [reflexivity|reflexivity|].
  cbn [length Nat.leb]. unfold average, total, np_sum. cbv zeta.
  do 3 f_equal. apply List.map_ext. intros v. apply square_sub_swap.
Qed.

Lemma find_outlier_indices_filter (x : Series num) (threshold : num) :
  find_outlier_indices x threshold = List.map fst (List.filter (flagged x threshold) x).
Proof.
  unfold find_outlier_indices, abs, gt_scalar, div_scalar, sub_scalar.
  rewrite !map_values_compose. rewrite index_mask_self.
  rewrite mean_average, std_sample_deviation. reflexivity.
Qed.


(** *** Constant series *)





End WithSqrt.

End OutlierFacts.

(** ** The first least value *)

Module ArgminFacts.
Import Pandas NumFacts.



End ArgminFacts.

(** ** The turnaround finder *)

Module TurnaroundFacts.
Import Pandas u03_oop Spec NumFacts SeriesFacts OutlierFacts ArgminFacts.

Lemma map_fst_combine {A B} (l : list A) (k : list B) :
  (length l <= length k)%nat -> List.map fst (combine l k) = l.
Proof.
  revert k. induction l as [|a l IH]; intros [|b k] Hlen; simpl in *; try reflexivity; try lia.
  f_equal. apply IH. lia.
Qed.

Lemma map_snd_combine {A B} (l : list A) (k : list B) :
  (length k <= length l)%nat -> List.map snd (combine l k) = k.
Proof.
  revert l. induction k as [|b k IH]; intros [|a l] Hlen; simpl in *; try reflexivity; try lia.
  f_equal. apply IH. lia.
Qed.

Lemma length_diff_values (vs : list num) : length (diff_values vs) = length vs.
Proof.
  destruct vs as [|v vs]; [reflexivity|].
  unfold diff_values. cbn [length]. rewrite length_map, length_combine. cbn [length]. lia.
Qed.

Lemma index_diff (s : Series num) : index (diff s) = index s.
Proof.
  unfold diff, index at 1. apply map_fst_combine.
  rewrite length_diff_values. unfold index, values. rewrite !length_map. lia.
Qed.


Lemma length_index {A} (s : Series A) : length (index s) = length s.
Proof. apply length_map. Qed.

Lemma length_values {A} (s : Series A) : length (values s) = length s.
Proof. apply length_map. Qed.


Lemma index_iloc {A} (a b : nat) (s : Series A) :
  index (iloc a b s) = firstn (length s - b - a) (skipn a (index s)).
Proof. unfold index, iloc. rewrite List.skipn_map, List.firstn_map. reflexivity. Qed.







(** *** Columns of floats *)

Lemma as_float64_index (s : Series cell) (f : Series num) :
  as_float64 s = Ok f -> index f = index s /\ of_float64 f = s.
Proof.
  revert f. induction s as [|[l c] s IH]; simpl; intros f.
  - intros [= <-]. split; reflexivity.
  - destruct c as [x| |]; [|discriminate|discriminate].
    destruct (as_float64 s) as [f'|] eqn:Hs; [|discriminate].
    cbn [mbind result_bind]. intros [= <-].
    destruct (IH f' eq_refl) as [IH1 IH2]. unfold index, of_float64, map_values in *.
    simpl. rewrite IH1, IH2. split; reflexivity.
Qed.

Lemma as_float64_of_float64 (f : Series num) : as_float64 (of_float64 f) = Ok f.
Proof.
  induction f as [|[l x] f IH]; [reflexivity|].
  unfold of_float64, map_values in *. simpl. rewrite IH. reflexivity.
Qed.


(** A column of floats is used as it stands in float arithmetic, and is
    no int64 column. *)
Lemma as_float64_to_float64 (s : Series cell) (f : Series num) :
  as_float64 s = Ok f -> to_float64 s = Ok f.
Proof.
  revert f. induction s as [|[l c] s IH]; simpl; intros f; [auto|].
  destruct c as [x| |]; [|discriminate|discriminate].
  destruct (as_float64 s) as [f'|]; [|discriminate].
  rewrite (IH f' eq_refl). auto.
Qed.

Lemma as_float64_not_int64 (s : Series cell) (f : Series num) :
  as_float64 s = Ok f ->
  match as_int64 s with Some (_ :: _) => False | _ => True end.
Proof.
  destruct s as [|[l c] s]; simpl; [auto|].
  destruct c as [x| |]; [auto|discriminate|discriminate].
Qed.





(** Text in a column makes float arithmetic on it raise TypeError. *)
Lemma to_float64_text (s : Series cell) :
  (exists l t, In (l, Str t) s) -> to_float64 s = Raise TypeError.
Proof.
  induction s as [|[l0 c] s IH]; intros (l & t & Hin); [contradiction|].
  simpl. destruct c as [x|z|t0]; [| |reflexivity];
    (destruct Hin as [Hin|Hin]; [discriminate|]); rewrite IH by eauto; reflexivity.
Qed.

Lemma as_int64_text (s : Series cell) :
  (exists l t, In (l, Str t) s) -> as_int64 s = None.
Proof.
  induction s as [|[l0 c] s IH]; intros (l & t & Hin); [contradiction|].
  simpl. destruct c as [x|z|t0]; try reflexivity.
  destruct Hin as [Hin|Hin]; [discriminate|]. rewrite IH by eauto. reflexivity.
Qed.

Lemma column_diff_text (s : Series cell) :
  (exists l t, In (l, Str t) s) -> column_diff s = Raise TypeError.
Proof.
  intros Htext. unfold column_diff.
  rewrite (as_int64_text s Htext), (to_float64_text s Htext). reflexivity.
Qed.

Lemma to_float64_index (s : Series cell) (f : Series num) :
  to_float64 s = Ok f -> index f = index s.
Proof.
  revert f. induction s as [|[l c] s IH]; simpl; intros f.
  - intros [= <-]. reflexivity.
  - destruct c as [x|z|]; [| |discriminate];
      (destruct (to_float64 s) as [f'|] eqn:Hs; [|discriminate]);
      cbn [mbind result_bind]; intros [= <-]; unfold index in *; simpl;
      rewrite (IH f' eq_refl); reflexivity.
Qed.

Lemma as_int64_index (s : Series cell) (zs : Series Z) :
  as_int64 s = Some zs -> index zs = index s.
Proof.
  revert zs. induction s as [|[l c] s IH]; simpl; intros zs.
  - intros [= <-]. reflexivity.
  - destruct c as [|z|]; [discriminate| |discriminate].
    destruct (as_int64 s) as [zs'|] eqn:Hs; [|discriminate].
    cbn. intros [= <-]. unfold index in *. simpl. rewrite (IH zs' eq_refl). reflexivity.
Qed.

Lemma index_diff_int64 (zs : Series Z) : index (diff_int64 zs) = index zs.
Proof.
  unfold diff_int64, index at 1. apply map_fst_combine.
  rewrite length_index, <- (length_values zs).
  destruct (values zs) as [|v vs]; [reflexivity|].
  cbn [length]. rewrite length_map, length_combine. cbn [length]. lia.
Qed.

(** The differences of a column carry its row labels. *)
Lemma index_column_diff (s : Series cell) (d : Series num) :
  column_diff s = Ok d -> index d = index s.
Proof.
  unfold column_diff.
  destruct (as_int64 s) as [[|lz zs]|] eqn:Hint.
  - destruct (to_float64 s) as [f|] eqn:Hf; [|discriminate]. cbn [mbind result_bind].
    intros [= <-]. rewrite index_diff. apply to_float64_index, Hf.
  - intros [= <-]. rewrite index_diff_int64. apply as_int64_index, Hint.
  - destruct (to_float64 s) as [f|] eqn:Hf; [|discriminate]. cbn [mbind result_bind].
    intros [= <-]. rewrite index_diff. apply to_float64_index, Hf.
Qed.

Section WithSqrt.
Context `{Sqrt}.





End WithSqrt.

End TurnaroundFacts.

(** ** Clustering *)

Module ClusterFacts.
Import Pandas Sklearn u03_oop Spec NumFacts SeriesFacts OutlierFacts TurnaroundFacts.

(** *** [np.unique] *)






(** *** DBSCAN keeps one label of at least -1 per sample *)

Lemma expand_cluster_inv (fuel : nat) (is_core : list bool) (nbs : list (list nat))
    (label_num : Z) :
  -1 <= label_num ->
  forall (i : nat) (stack : list nat) (labels : list Z),
    Forall (fun y => -1 <= y) labels ->
    length (expand_cluster fuel is_core nbs label_num i stack labels) = length labels /\
    Forall (fun y => -1 <= y) (expand_cluster fuel is_core nbs label_num i stack labels).
Proof.
  intros Hnum. induction fuel as [|fuel IH]; intros i stack labels Hall; simpl; [auto|].
  set (labels' := if get_label labels i =? -1 then <[i:=label_num]> labels else labels).
  assert (Hlen : length labels' = length labels).
  { unfold labels'. destruct (get_label labels i =? -1); [apply length_insert|reflexivity]. }
  assert (Hall' : Forall (fun y => -1 <= y) labels').
  { unfold labels'. destruct (get_label labels i =? -1); [|exact Hall].
    apply Forall_insert; assumption. }
  match goal with |- context [match ?st with [] => _ | _ :: _ => _ end] => destruct st as [|j st'] end.
  - auto.
  - destruct (IH j st' labels' Hall') as [IH1 IH2]. split; [congruence|exact IH2].
Qed.

Lemma dbscan_inner_inv (is_core : list bool) (nbs : list (list nat)) (todo : list nat) :
  forall (label_num : Z) (labels : list Z),
    0 <= label_num ->
    Forall (fun y => -1 <= y) labels ->
    length (dbscan_inner is_core nbs todo label_num labels) = length labels /\
    Forall (fun y => -1 <= y) (dbscan_inner is_core nbs todo label_num labels).
Proof.
  induction todo as [|i todo IH]; intros label_num labels Hnum Hall; simpl; [auto|].
  destruct (negb (get_label labels i =? -1) || negb (nth i is_core false)).
  - apply IH; assumption.
  - destruct (expand_cluster_inv (length labels * length labels + length labels + 1)
                is_core nbs label_num ltac:(lia) i [] labels Hall) as [E1 E2].
    destruct (IH (label_num + 1) _ ltac:(lia) E2) as [I1 I2].
    split; [congruence|exact I2].
Qed.


Lemma length_standardize `{Sqrt} (X : list num) : length (standardize X) = length X.
Proof.
  unfold standardize. destruct (incremental_mean_and_var X) as [[m v] n]. apply length_map.
Qed.

Lemma StandardScaler_length `{Sqrt} (X X' : list num) :
  StandardScaler_fit_transform X = Ok X' -> length X' = length X.
Proof.
  unfold StandardScaler_fit_transform. destruct X as [|x X]; [discriminate|].
  destruct (forallb _ _); [|discriminate].
  intros Heq. assert (X' = standardize (x :: X)) as -> by congruence.
  apply length_standardize.
Qed.

Lemma DBSCAN_labels (eps : num) (min_samples : Z) (X : list num) (labels : list Z) :
  DBSCAN_fit_predict eps min_samples X = Ok labels ->
  length labels = length X /\ Forall (fun y => -1 <= y) labels.
Proof.
  unfold DBSCAN_fit_predict.
  destruct (negb (gtb eps (Finite 0) && isfinite eps) || (min_samples <? 1)); [discriminate|].
  destruct X as [|x X]; [discriminate|].
  destruct (forallb isfinite (x :: X)); [|discriminate].
  intros Heq. assert (labels = dbscan eps min_samples (x :: X)) as -> by congruence.
  unfold dbscan.
  match goal with |- context [dbscan_inner ?c ?n ?t 0 ?l] =>
    destruct (dbscan_inner_inv c n t 0 l ltac:(lia)) as [I1 I2] end.
  - apply List.Forall_forall. intros y Hy.
    apply List.in_map_iff in Hy as (? & <- & _). lia.
  - split; [|exact I2]. rewrite I1. apply length_map.
Qed.

(** *** Too few samples for a core sample *)


(** A missing sample stays missing under the scaler. *)
Lemma standardize_NaN `{Sqrt} (X : list num) :
  Forall (fun v => isfinite v = true) (standardize X) ->
  Forall (fun v => isnan v = false) X.
Proof.
  unfold standardize. destruct (incremental_mean_and_var X) as [[m v] n].
  rewrite List.Forall_map.
  apply List.Forall_impl. intros w. destruct w; try reflexivity. discriminate.
Qed.

Lemma length_neighborhood (eps : num) (X : list num) (x : num) :
  (length (neighborhood eps X x) <= length X)%nat.
Proof.
  unfold neighborhood. rewrite length_map.
  etransitivity; [apply List.filter_length_le|].
  rewrite length_combine, length_seq. lia.
Qed.





Section WithSqrt.
Context `{Sqrt}.

Lemma label_clusters_labels (x : Series num) (eps : num) (min_samples : Z) (labels : list Z) :
  label_clusters x eps min_samples = Ok labels ->
  length labels = length x /\ Forall (fun y => -1 <= y) labels.
Proof.
  unfold label_clusters.
  destruct (StandardScaler_fit_transform (values x)) as [X'|e] eqn:Hscale; [|discriminate].
  cbn [mbind result_bind].
  destruct (DBSCAN_fit_predict eps min_samples X') as [ls|e] eqn:Hdb; [|discriminate].
  cbn [mbind result_bind]. intros [= <-].
  destruct (DBSCAN_labels _ _ _ _ Hdb) as [Hlen Hall].
  split; [|exact Hall].
  rewrite Hlen, (StandardScaler_length _ _ Hscale). apply length_values.
Qed.

(** What a successful clustering went through. *)
Lemma label_clusters_inv (x : Series num) (eps : num) (min_samples : Z) (labels : list Z) :
  label_clusters x eps min_samples = Ok labels ->
  labels = dbscan eps min_samples (standardize (values x)) /\
  Forall (fun v => isfinite v = true) (standardize (values x)) /\
  Forall (fun v => isfinite v = true) (values x) /\
  gtb eps (Finite 0) = true /\ isfinite eps = true /\ 1 <= min_samples /\ x <> [].
Proof.
  unfold label_clusters, StandardScaler_fit_transform.
  destruct (values x) as [|v vs] eqn:Hv; [discriminate|].
  destruct (forallb _ (v :: vs)) eqn:Hvalid; [|discriminate].
  cbn [mbind result_bind]. unfold DBSCAN_fit_predict.
  destruct (gtb eps (Finite 0)) eqn:Heps; [|discriminate].
  destruct (isfinite eps) eqn:Hfeps; [|discriminate].
  destruct (Z.ltb_spec min_samples 1); [discriminate|]. cbn [negb orb andb].
  destruct (standardize (v :: vs)) as [|w ws] eqn:Hw; [discriminate|].
  destruct (forallb isfinite (w :: ws)) eqn:Hfin; [|discriminate].
  cbn [mbind result_bind]. intros [= <-].
  assert (Hstd : Forall (fun v => isfinite v = true) (standardize (v :: vs))).
  { rewrite Hw. apply List.Forall_forall. apply forallb_forall. exact Hfin. }
  split; [reflexivity|]. split; [rewrite <- Hw; exact Hstd|]. split.
  - pose proof (standardize_NaN _ Hstd) as Hnn.
    rewrite forallb_forall in Hvalid. rewrite List.Forall_forall in Hnn |- *.
    intros y Hy. specialize (Hvalid y Hy). specialize (Hnn y Hy).
    rewrite Hnn in Hvalid. exact Hvalid.
  - repeat split; [lia|]. intros ->. discriminate.
Qed.

(** The clustering runs on a non-empty series of finite samples that stay
    finite under the scaler, with a positive finite [eps] and at least one
    sample asked for. *)
Lemma label_clusters_run (x : Series num) (eps : num) (min_samples : Z) :
  x <> [] -> Forall (fun lv => isfinite (snd lv) = true) x ->
  gtb eps (Finite 0) = true -> isfinite eps = true -> 1 <= min_samples ->
  Forall (fun v => isfinite v = true) (standardize (values x)) ->
  label_clusters x eps min_samples
  = Ok (dbscan eps min_samples (standardize (values x))).
Proof.
  intros Hne Hfin Heps Hfeps Hms Hstd.
  assert (Hfinv : Forall (fun v => isfinite v = true) (values x)).
  { unfold values. rewrite List.Forall_map. exact Hfin. }
  unfold label_clusters, StandardScaler_fit_transform.
  pose proof (length_standardize (values x)) as Hlen.
  destruct (values x) as [|v vs] eqn:Hv; [destruct x; [congruence|discriminate]|].
  assert (Hvalid : forallb (fun x0 => isnan x0 || isfinite x0) (v :: vs) = true).
  { apply forallb_forall. intros y Hy. rewrite List.Forall_forall in Hfinv.
    rewrite (Hfinv y Hy). apply orb_true_r. }
  rewrite Hvalid. cbn [mbind result_bind]. unfold DBSCAN_fit_predict. rewrite Heps, Hfeps.
  destruct (Z.ltb_spec min_samples 1); [lia|]. cbn [negb orb andb].
  destruct (standardize (v :: vs)) as [|w ws] eqn:Hw; [discriminate|].
  assert (Hfinite : forallb isfinite (w :: ws) = true).
  { apply forallb_forall. rewrite List.Forall_forall in Hstd. exact Hstd. }
  rewrite Hfinite. reflexivity.
Qed.






End WithSqrt.

End ClusterFacts.
(** ** Parsing and normalising *)

Module ParsingFacts.
Import Text Pandas u02_parsing Spec NumFacts SeriesFacts TurnaroundFacts.

(** *** What a call leaves of the store *)

Lemma read_only_writes {A} (new : ref) (m : Py A) : read_only m -> only_writes new m.
Proof. intros Hm h. rewrite (Hm h). split; [reflexivity|tauto]. Qed.

Lemma read_only_bind {A B} (m : Py A) (f : A -> Py B) :
  read_only m -> (forall a, read_only (f a)) -> read_only (m ≫= f).
Proof.
  intros Hm Hf h. unfold mbind, Py_bind. specialize (Hm h).
  destruct (m h) as [h' [a|e]]; simpl in *; subst; [apply Hf|reflexivity].
Qed.

Lemma only_writes_bind {A B} (new : ref) (m : Py A) (f : A -> Py B) :
  only_writes new m -> (forall a, only_writes new (f a)) -> only_writes new (m ≫= f).
Proof.
  intros Hm Hf h. unfold mbind, Py_bind. destruct (Hm h) as [Hm1 Hm2].
  destruct (m h) as [h' [a|e]]; simpl in *; [|split; assumption].
  destruct (Hf a h') as [Hf1 Hf2]. split.
  - intros r Hr. rewrite Hf1 by exact Hr. apply Hm1, Hr.
  - intros Hsome. apply Hf2, Hm2, Hsome.
Qed.

Lemma returns_bind {A B} (b : B) (m : Py A) (f : A -> Py B) :
  (forall a, returns b (f a)) -> returns b (m ≫= f).
Proof.
  intros Hf h v. unfold mbind, Py_bind.
  destruct (m h) as [h' [a|e]]; simpl; [apply Hf|discriminate].
Qed.

Lemma returns_ret {A} (a : A) : returns a (mret a : Py A).
Proof. intros h v [= <-]. reflexivity. Qed.

Lemma read_only_ret {A} (a : A) : read_only (mret a : Py A).
Proof. intros h. reflexivity. Qed.

Lemma read_only_lift {A} (r : result A) : read_only (lift r).
Proof. intros h. reflexivity. Qed.

Lemma read_only_deref (r : ref) : read_only (deref r).
Proof. intros h. reflexivity. Qed.

Lemma read_only_getitem (r : ref) (name : string) : read_only (df_getitem r name).
Proof.
  apply read_only_bind; [apply read_only_deref|]. intros; apply read_only_lift.
Qed.

Lemma only_writes_setitem (new : ref) (name : string) (s : Series cell) :
  only_writes new (df_setitem new name s).
Proof.
  apply only_writes_bind; [apply read_only_writes, read_only_deref|].
  intros df. apply only_writes_bind; [apply read_only_writes, read_only_lift|].
  intros df' h. unfold store. simpl. split.
  - intros r Hr. apply lookup_insert_ne. congruence.
  - intros _. rewrite lookup_insert_eq. eauto.
Qed.

Lemma read_only_measurement_type (df : ref) : read_only (measurement_type df).
Proof.
  unfold measurement_type. apply read_only_bind; [apply read_only_getitem|].
  intros moment. destruct (notna_all moment); [apply read_only_ret|].
  apply read_only_bind; [apply read_only_getitem|].
  intros dc. destruct (notna_all dc); apply read_only_ret.
Qed.

Lemma new_object_bind {B} (frame : DataFrame) (f : ref -> Py B) (h : gmap nat DataFrame) :
  (new_object frame ≫= f) h = f (fresh (dom h)) (<[fresh (dom h) := frame]> h).
Proof. reflexivity. Qed.

Ltac frame_step :=
  first [ apply only_writes_setitem
        | apply read_only_writes;
          first [ apply read_only_getitem | apply read_only_lift
                | apply read_only_ret | apply read_only_measurement_type ]
        | apply only_writes_bind; [|intros ?] ].

(** C10: the normaliser builds its table in a new object and changes no
    object that existed before the call, its argument included: whatever
    the call does, every earlier reference still holds the table it held;
    the reference returned is a new one. *)
Theorem simplify_magnetic_df_frame (df : ref) (h : gmap nat DataFrame) :
  (forall r, r ∈ dom h -> (simplify_magnetic_df df h).1 !! r = h !! r) /\
  (forall new_df, (simplify_magnetic_df df h).2 = Ok new_df ->
     (new_df ∉ dom h) /\ is_Some ((simplify_magnetic_df df h).1 !! new_df)).
Proof.
  pose proof (is_fresh (dom h)) as Hfresh.
  unfold simplify_magnetic_df, new_DataFrame. rewrite new_object_bind.
  set (new := fresh (dom h)) in *.
  match goal with |- context [(?b (<[new := empty_frame]> h)).1] => set (body := b) end.
  assert (Hbody : only_writes new body).
  { unfold body. repeat frame_step.
    destruct (String.eqb _ "VSM"); [repeat frame_step|].
    destruct (String.eqb _ "DC"); repeat frame_step. }
  assert (Hret : returns new body).
  { unfold body. repeat (apply returns_bind; intros ?). apply returns_ret. }
  destruct (Hbody (<[new := empty_frame]> h)) as [Hothers Hnew].
  split.
  - intros r Hr. rewrite Hothers by (intros ->; contradiction).
    apply lookup_insert_ne. intros ->; contradiction.
  - intros new_df Hout. apply Hret in Hout as ->. split; [exact Hfresh|].
    apply Hnew. rewrite lookup_insert_eq. eauto.
Qed.

(** *** Running a call on a given store *)

Lemma bind_ok {A B} (m : Py A) (f : A -> Py B) (h h' : gmap nat DataFrame) (a : A) :
  m h = (h', Ok a) -> (m ≫= f) h = f a h'.
Proof. intros Hm. unfold mbind, Py_bind. rewrite Hm. reflexivity. Qed.

Lemma bind_raise {A B} (m : Py A) (f : A -> Py B) (h h' : gmap nat DataFrame) (e : exn) :
  m h = (h', Raise e) -> (m ≫= f) h = (h', Raise e).
Proof. intros Hm. unfold mbind, Py_bind. rewrite Hm. reflexivity. Qed.

Lemma df_getitem_run (r : ref) (name : string) (h : gmap nat DataFrame) (frame : DataFrame) :
  h !! r = Some frame -> df_getitem r name h = (h, getitem frame name).
Proof.
  intros Hr. unfold df_getitem, deref, lift, mbind, Py_bind. rewrite Hr. reflexivity.
Qed.

Lemma df_setitem_run (r : ref) (name : string) (s : Series cell)
    (h : gmap nat DataFrame) (frame frame' : DataFrame) :
  h !! r = Some frame -> setitem frame name s = Ok frame' ->
  df_setitem r name s h = (<[r := frame']> h, Ok tt).
Proof.
  intros Hr Hset. unfold df_setitem, deref, lift, store, mbind, Py_bind.
  rewrite Hr, Hset. reflexivity.
Qed.

(** *** The classifier *)

Lemma notna_false_iff (c : cell) : notna c = false <-> c = Num NaN.
Proof.
  destruct c as [[| | |q]|z|s]; simpl; split; intros E; try discriminate; reflexivity.
Qed.

Lemma notna_all_true (s : Series cell) :
  notna_all s = true <-> ~ In (Num NaN) (values s).
Proof.
  unfold notna_all. rewrite forallb_forall. split.
  - intros Hall Hin. specialize (Hall _ Hin). discriminate.
  - intros Hnot c Hc. destruct (notna c) eqn:E; [reflexivity|].
    apply notna_false_iff in E as ->. contradiction.
Qed.

Lemma notna_all_false (s : Series cell) :
  notna_all s = false <-> In (Num NaN) (values s).
Proof.
  split.
  - unfold notna_all. induction (values s) as [|c cs IH]; simpl; [discriminate|].
    destruct (notna c) eqn:E; simpl.
    + intros Hf. right. apply IH, Hf.
    + intros _. left. apply notna_false_iff in E. congruence.
  - intros Hin. apply not_true_is_false. intros Ht. apply notna_all_true in Ht. contradiction.
Qed.

(** C8, as the code has it: on a table that has the columns the classifier
    consults, it returns VSM when "Moment (emu)" has no missing value,
    whatever the other columns hold; else DC when "DC Moment Free Ctr (emu)"
    has none; else the empty classification.  It raises nothing there and
    leaves the store as it was. *)
Theorem measurement_type_spec
    (df : ref) (h : gmap nat DataFrame) (frame : DataFrame) (moment : Series cell) :
  h !! df = Some frame ->
  getitem frame "Moment (emu)" = Ok moment ->
  (~ In (Num NaN) (values moment) ->
     measurement_type df h = (h, Ok "VSM"%string)) /\
  (In (Num NaN) (values moment) ->
     forall dc_moment, getitem frame "DC Moment Free Ctr (emu)" = Ok dc_moment ->
       (~ In (Num NaN) (values dc_moment) ->
          measurement_type df h = (h, Ok "DC"%string)) /\
       (In (Num NaN) (values dc_moment) ->
          measurement_type df h = (h, Ok ""%string))).
Proof.
  intros Hdf Hmoment. unfold measurement_type.
  rewrite (bind_ok _ _ h h moment) by (rewrite (df_getitem_run _ _ _ _ Hdf), Hmoment; reflexivity).
  split.
  - intros Hfull. apply notna_all_true in Hfull. rewrite Hfull. reflexivity.
  - intros Hmiss dc Hdc. apply notna_all_false in Hmiss. rewrite Hmiss.
    rewrite (bind_ok _ _ h h dc) by (rewrite (df_getitem_run _ _ _ _ Hdf), Hdc; reflexivity).
    split.
    + intros Hfull. apply notna_all_true in Hfull. rewrite Hfull. reflexivity.
    + intros Hmiss'. apply notna_all_false in Hmiss'. rewrite Hmiss'. reflexivity.
Qed.

End ParsingFacts.

(** ** The normaliser *)

Module NormaliserFacts.
Import Text Pandas u02_parsing Spec NumFacts SeriesFacts TurnaroundFacts ParsingFacts.

Lemma fold_min_spec (vs : list num) :
  forall v,
    Forall (fun x => isnan x = false) (v :: vs) ->
    let r := fold_left (fun m x => if ltb x m then x else m) vs v in
    In r (v :: vs) /\ forall w, In w (v :: vs) -> ltb w r = false.
Proof.
  induction vs as [|x vs IH]; intros v Hall; simpl.
  - split; [left; reflexivity|]. intros w [<-|[]]. apply ltb_irrefl.
  - apply Forall_cons_iff in Hall as [Hv Hall].
    pose proof Hall as Hall'. apply Forall_cons_iff in Hall' as [Hx Hvs].
    destruct (ltb x v) eqn:Hxv.
    + destruct (IH x Hall) as [Hin Hmin]. split; [right; exact Hin|].
      intros w [<-|Hw]; [|apply Hmin, Hw].
      pose proof (Hmin x (or_introl eq_refl)) as Hle.
      destruct (ltb v (fold_left _ vs x)) eqn:Hvr; [|reflexivity].
      rewrite (ltb_trans _ _ _ Hxv Hvr) in Hle. discriminate.
    + destruct (IH v ltac:(constructor; assumption)) as [Hin Hmin]. split.
      * destruct Hin as [Hin|Hin]; [left|right; right]; exact Hin.
      * intros w [<-|[<-|Hw]].
        -- apply Hmin. left; reflexivity.
        -- pose proof (Hmin v (or_introl eq_refl)) as Hle.
           destruct (ltb x (fold_left _ vs v)) eqn:Hxr; [|reflexivity].
           rewrite (ltb_not_ltb _ _ _ Hv Hxr Hle) in Hxv. discriminate.
        -- apply Hmin. right. exact Hw.
Qed.

Lemma dropna_notnan (s : Series num) : Forall (fun x => isnan x = false) (dropna s).
Proof.
  unfold dropna. apply List.Forall_forall. intros x Hx.
  apply List.filter_In in Hx as [_ Hx]. unfold notnan in Hx.
  destruct (isnan x); [discriminate|reflexivity].
Qed.

(** [min] is attained and is not above any value present. *)
Lemma min_spec (s : Series num) :
  dropna s <> [] ->
  In (min s) (dropna s) /\ forall w, In w (dropna s) -> ltb w (min s) = false.
Proof.
  intros Hne. unfold min. pose proof (dropna_notnan s) as Hall.
  destruct (dropna s) as [|v vs]; [congruence|].
  apply (fold_min_spec vs v Hall).
Qed.

Lemma min_finite_present (s : Series num) : isfinite (min s) = true -> dropna s <> [].
Proof. unfold min. destruct (dropna s); [discriminate|congruence]. Qed.

(** Shifted by its finite minimum, a series has minimum zero. *)
Lemma min_shifted (ts : Series num) :
  isfinite (min ts) = true ->
  eqb (min (sub_scalar ts (min ts))) (Finite 0) = true.
Proof.
  intros Hfin. pose proof (min_finite_present ts Hfin) as Hne.
  destruct (min_spec ts Hne) as [Hin Hmin].
  destruct (min ts) as [| | |q] eqn:Hm; try discriminate.
  set (t := sub_scalar ts (Finite q)).
  assert (Hdrop : forall w, In w (dropna t) <->
            exists v, In v (values ts) /\ w = sub v (Finite q) /\ isnan w = false).
  { intros w. unfold dropna, t, sub_scalar. rewrite values_map_values.
    rewrite List.filter_In, List.in_map_iff. unfold notnan. split.
    - intros [(v & <- & Hv) Hw]. exists v. repeat split; [exact Hv|].
      destruct (isnan _); [discriminate|reflexivity].
    - intros (v & Hv & -> & Hw). split; [exists v; auto|]. rewrite Hw. reflexivity. }
  assert (Hzero : In (Finite 0) (dropna t)).
  { apply Hdrop. exists (Finite q). split; [|split; [|reflexivity]].
    - unfold dropna in Hin. apply List.filter_In in Hin. tauto.
    - symmetry. apply sub_Finite_same. reflexivity. }
  assert (Hnonneg : forall w, In w (dropna t) -> ltb w (Finite 0) = false).
  { intros w Hw. apply Hdrop in Hw as (v & Hv & -> & Hw).
    assert (Hvd : In v (dropna ts)).
    { unfold dropna. apply List.filter_In. split; [exact Hv|].
      unfold notnan. destruct v; try reflexivity. discriminate. }
    specialize (Hmin v Hvd). destruct v as [| | |a]; try discriminate; try reflexivity.
    apply ltb_Finite_false in Hmin. apply (sub_nonneg a q Hmin). }
  assert (Hne' : dropna t <> []) by (intros E; rewrite E in Hzero; contradiction).
  destruct (min_spec t Hne') as [Hin' Hmin'].
  pose proof (Hnonneg _ Hin') as Hlo. pose proof (Hmin' _ Hzero) as Hhi.
  pose proof (dropna_notnan t) as Hnn. rewrite List.Forall_forall in Hnn.
  specialize (Hnn _ Hin').
  destruct (min t) as [| | |z]; try discriminate.
  apply ltb_Finite_false in Hlo, Hhi. simpl. apply Qeq_bool_iff. lra.
Qed.

(** The least value of a float column is the least of its cells. *)
Lemma is_least_float (ts : Series num) :
  dropna ts <> [] -> is_least (of_float64 ts) (Num (min ts)).
Proof.
  intros Hne. destruct (min_spec ts Hne) as [Hin Hmin].
  pose proof (dropna_notnan ts) as Hnn. rewrite List.Forall_forall in Hnn.
  unfold is_least, of_float64. rewrite values_map_values. split; [|split].
  - apply List.in_map. unfold dropna in Hin. apply List.filter_In in Hin. tauto.
  - simpl. unfold notnan. rewrite (Hnn _ Hin). reflexivity.
  - rewrite List.Forall_map. apply List.Forall_forall. intros v Hv. cbn [cell_ltb].
    destruct (isnan v) eqn:E.
    + destruct v; try discriminate. reflexivity.
    + apply Hmin. unfold dropna. apply List.filter_In. split; [exact Hv|].
      unfold notnan. rewrite E. reflexivity.
Qed.

(** *** Integer columns *)

Lemma fold_Zmin_spec (vs : list Z) :
  forall z,
    In (fold_left Z.min vs z) (z :: vs) /\
    forall w, In w (z :: vs) -> fold_left Z.min vs z <= w.
Proof.
  induction vs as [|x vs IH]; intros z; simpl.
  - split; [left; reflexivity|]. intros w [<-|[]]. lia.
  - destruct (IH (Z.min z x)) as [Hin Hle].
    set (r := fold_left Z.min vs (Z.min z x)) in *. split.
    + destruct Hin as [Hin|Hin]; [|right; right; exact Hin].
      destruct (Z.min_spec z x) as [[_ E]|[_ E]]; [left|right; left]; lia.
    + intros w Hw. pose proof (Hle (Z.min z x) (or_introl eq_refl)) as H0.
      destruct Hw as [<-|[<-|Hw]]; [lia|lia|]. apply Hle. right. exact Hw.
Qed.

Lemma as_int64_inv (s : Series cell) (zs : Series Z) :
  as_int64 s = Some zs -> s = of_int64 zs.
Proof.
  revert zs. induction s as [|[l c] s IH]; simpl; intros zs.
  - intros [= <-]. reflexivity.
  - destruct c as [x|z|t]; try discriminate.
    destruct (as_int64 s) as [zs'|]; [|discriminate].
    cbn [mbind option_bind]. intros [= <-].
    unfold of_int64, map_values in *. simpl. rewrite <- (IH zs' eq_refl). reflexivity.
Qed.

Lemma as_int64_of_int64 (zs : Series Z) : as_int64 (of_int64 zs) = Some zs.
Proof.
  induction zs as [|[l z] zs IH]; [reflexivity|].
  unfold of_int64, map_values in *. simpl. rewrite IH. reflexivity.
Qed.

Lemma wrap64_small (z : Z) : - 2 ^ 63 <= z < 2 ^ 63 -> wrap64 z = z.
Proof. intros Hz. unfold wrap64. rewrite Z.mod_small by lia. lia. Qed.

Lemma map_values_ext_in {A B} (f g : A -> B) (s : Series A) :
  (forall v, In v (values s) -> f v = g v) -> map_values f s = map_values g s.
Proof.
  intros Hfg. unfold map_values. apply List.map_ext_in. intros [l v] Hlv. simpl.
  rewrite Hfg; [reflexivity|]. unfold values. apply (List.in_map snd _ _ Hlv).
Qed.

(** *** The least value and the shift, as pandas computes them *)

Lemma series_min_float (stamp : Series cell) (ts : Series num) :
  as_float64 stamp = Ok ts -> series_min stamp = Ok (Num (min ts)).
Proof.
  intros Hts. unfold series_min.
  pose proof (as_float64_not_int64 _ _ Hts) as Hint.
  rewrite (as_float64_to_float64 _ _ Hts).
  destruct (as_int64 stamp) as [[|[l z] zs]|]; [reflexivity|contradiction|reflexivity].
Qed.

Lemma series_sub_float (stamp : Series cell) (ts : Series num) (c : num) :
  as_float64 stamp = Ok ts ->
  series_sub stamp (Num c) = Ok (of_float64 (sub_scalar ts c)).
Proof.
  intros Hts. unfold series_sub. rewrite (as_float64_to_float64 _ _ Hts).
  destruct (as_int64 stamp) as [[|[l z] zs]|]; reflexivity.
Qed.

(** *** Columns of a well-formed frame *)

Lemma combine_index_values {A} (s : Series A) : combine (index s) (values s) = s.
Proof.
  unfold index, values. induction s as [|[l v] s IH]; [reflexivity|].
  simpl. rewrite IH. reflexivity.
Qed.

Lemma assoc_In {A} (k : string) (l : list (string * A)) (v : A) :
  assoc k l = Some v -> In (k, v) l.
Proof.
  induction l as [|[k' v'] l IH]; simpl; [discriminate|].
  destruct (String.eqb_spec k k') as [<-|_].
  - intros [= <-]. left; reflexivity.
  - intros Hv. right. apply IH, Hv.
Qed.

Lemma getitem_wf (frame : DataFrame) (name : string) (col : Series cell) :
  wf_frame frame -> getitem frame name = Ok col -> index col = df_index frame.
Proof.
  unfold wf_frame, getitem. intros Hwf.
  destruct (assoc name (df_columns frame)) as [c|] eqn:Hc; [|discriminate].
  intros [= <-]. apply assoc_In in Hc. rewrite List.Forall_forall in Hwf.
  specialize (Hwf _ Hc). simpl in Hwf.
  unfold index. apply map_fst_combine. lia.
Qed.

Lemma setitem_aligned (idx : list Z) (cols : list (string * list cell))
    (name : string) (s : Series cell) :
  idx <> [] ->
  index s = idx ->
  setitem {| df_index := idx; df_columns := cols |} name s
  = Ok {| df_index := idx; df_columns := upsert name (values s) cols |}.
Proof.
  intros Hne Hidx. unfold setitem. cbn [df_index df_columns].
  destruct idx eqn:E; [congruence|].
  rewrite bool_decide_eq_true_2 by exact Hidx. reflexivity.
Qed.

Lemma has_columns_In (frame : DataFrame) (names : list string) (name : string) :
  has_columns frame names -> In name names -> exists col, getitem frame name = Ok col.
Proof.
  unfold has_columns. rewrite List.Forall_forall. intros Hall Hin.
  specialize (Hall _ Hin). destruct (getitem frame name); [eauto|discriminate].
Qed.

Lemma getitem_column (frame : DataFrame) (name : string) (s : Series cell) :
  wf_frame frame -> getitem frame name = Ok s ->
  index s = df_index frame /\ values s = column frame name /\
  length s = length (df_index frame).
Proof.
  intros Hwf Hs. split; [eapply getitem_wf; eassumption|].
  unfold getitem, column in *.
  destruct (assoc name (df_columns frame)) as [c|] eqn:Hc; [|discriminate].
  injection Hs as <-. apply assoc_In in Hc.
  unfold wf_frame in Hwf. rewrite List.Forall_forall in Hwf.
  specialize (Hwf _ Hc). simpl in Hwf. split.
  - unfold values. apply map_snd_combine. simpl. rewrite Hwf. reflexivity.
  - rewrite length_combine, Hwf. apply Nat.min_id.
Qed.

Lemma index_nil {A} (s : Series A) : index s = [] -> s = [].
Proof. destruct s; [reflexivity|discriminate]. Qed.

Lemma blank_columns (cols : list (string * list cell)) :
  Forall (fun kc => length (snd kc) = 0%nat) cols ->
  List.map (fun kc : string * list cell => (fst kc, @nil cell)) cols = cols.
Proof.
  induction 1 as [|[k c] cols Hc _ IH]; [reflexivity|].
  simpl in *. destruct c; [|discriminate]. rewrite IH. reflexivity.
Qed.

(** Storing a column over the frame's own index, rows or no rows. *)
Lemma setitem_same_index (idx : list Z) (cols : list (string * list cell))
    (name : string) (s : Series cell) :
  Forall (fun kc => length (snd kc) = length idx) cols ->
  index s = idx ->
  setitem {| df_index := idx; df_columns := cols |} name s
  = Ok {| df_index := idx; df_columns := upsert name (values s) cols |}.
Proof.
  intros Hcols Hidx. destruct idx as [|l idx].
  - apply index_nil in Hidx as ->. unfold setitem. simpl.
    rewrite (blank_columns cols Hcols). reflexivity.
  - apply setitem_aligned; [discriminate|exact Hidx].
Qed.

Lemma notna_all_column (frame : DataFrame) (name : string) (s : Series cell) :
  wf_frame frame -> getitem frame name = Ok s ->
  notna_all s = forallb notna (column frame name).
Proof.
  intros Hwf Hs. destruct (getitem_column _ _ _ Hwf Hs) as (_ & Hv & _).
  unfold notna_all. rewrite Hv. reflexivity.
Qed.

Lemma measurement_type_vsm
    (df : ref) (h : gmap nat DataFrame) (frame : DataFrame) (moment : Series cell) :
  h !! df = Some frame ->
  getitem frame "Moment (emu)" = Ok moment ->
  notna_all moment = true ->
  measurement_type df h = (h, Ok "VSM"%string).
Proof.
  intros Hdf Hmoment Hall. unfold measurement_type.
  rewrite (bind_ok _ _ h h moment) by (rewrite (df_getitem_run _ _ _ _ Hdf), Hmoment; reflexivity).
  rewrite Hall. reflexivity.
Qed.

Lemma measurement_type_other
    (df : ref) (h : gmap nat DataFrame) (frame : DataFrame) (moment dc : Series cell) :
  h !! df = Some frame ->
  getitem frame "Moment (emu)" = Ok moment ->
  notna_all moment = false ->
  getitem frame "DC Moment Free Ctr (emu)" = Ok dc ->
  measurement_type df h = (h, Ok (if notna_all dc then "DC" else "")%string).
Proof.
  intros Hdf Hmoment Hall Hdc. unfold measurement_type.
  rewrite (bind_ok _ _ h h moment) by (rewrite (df_getitem_run _ _ _ _ Hdf), Hmoment; reflexivity).
  rewrite Hall.
  rewrite (bind_ok _ _ h h dc) by (rewrite (df_getitem_run _ _ _ _ Hdf), Hdc; reflexivity).
  destruct (notna_all dc); reflexivity.
Qed.

Lemma measurement_type_run
    (df : ref) (h : gmap nat DataFrame) (frame : DataFrame) (moment dc : Series cell) :
  h !! df = Some frame ->
  getitem frame "Moment (emu)" = Ok moment ->
  getitem frame "DC Moment Free Ctr (emu)" = Ok dc ->
  measurement_type df h
  = (h, Ok (if notna_all moment then "VSM"
            else if notna_all dc then "DC" else "")%string).
Proof.
  intros Hdf Hmoment Hdc. destruct (notna_all moment) eqn:Hall.
  - eapply measurement_type_vsm; eassumption.
  - eapply measurement_type_other; eassumption.
Qed.

(** A table with all the instrument's columns has what the normaliser
    reads. *)
Lemma instrument_readable (frame : DataFrame) :
  has_columns frame instrument_columns -> readable frame.
Proof.
  unfold has_columns, instrument_columns, readable. intros Hall.
  repeat match goal with H : Forall _ (_ :: _) |- _ => apply Forall_cons_iff in H as [? H] end.
  split; [repeat constructor; assumption|].
  destruct (forallb notna _); [repeat constructor; assumption|].
  split; [repeat constructor; assumption|]. intros _. repeat constructor; assumption.
Qed.

(** One step of a run: a read of [df], a pure step, a write to the new
    object, which is the one the store was last updated at. *)
Ltac lookup_df :=
  repeat (rewrite lookup_insert_ne by eassumption); eassumption.
Ltac read_df Hdf Hcol :=
  erewrite bind_ok
    by (erewrite df_getitem_run by lookup_df; rewrite Hcol; reflexivity).
Ltac pure_step Heq :=
  erewrite bind_ok by (unfold lift; rewrite Heq; reflexivity).
Ltac write_new Hcol :=
  erewrite bind_ok
    by (eapply df_setitem_run;
        [ apply lookup_insert_eq
        | apply setitem_same_index;
          [ repeat constructor; simpl; congruence | exact Hcol ] ]).

(** The run of the normaliser on a table that has what it reads, once the
    least time stamp and the shifted column are there. *)
Lemma simplify_run_shift
    (df : ref) (h : gmap nat DataFrame) (frame : DataFrame)
    (stamp time : Series cell) (least : cell) :
  h !! df = Some frame ->
  wf_frame frame ->
  readable frame ->
  getitem frame "Time Stamp (sec)" = Ok stamp ->
  series_min stamp = Ok least ->
  series_sub stamp least = Ok time ->
  index time = index stamp ->
  simplify_magnetic_df df h
  = (<[fresh (dom h) := simplified frame (values time)]> h, Ok (fresh (dom h))).
Proof.
  intros Hdf Hwf [Hcols Hmom] Hstamp Hmin Hsub Hitime.
  destruct (has_columns_In _ _ "Temperature (K)" Hcols) as [temp Htemp]; [simpl; tauto|].
  destruct (has_columns_In _ _ "Magnetic Field (Oe)" Hcols) as [field Hfield]; [simpl; tauto|].
  destruct (has_columns_In _ _ "Moment (emu)" Hcols) as [moment Hmoment]; [simpl; tauto|].
  destruct (getitem_column _ _ _ Hwf Hstamp) as (Histamp & _ & Hlstamp).
  destruct (getitem_column _ _ _ Hwf Htemp) as (Hitemp & Hvtemp & Hltemp).
  destruct (getitem_column _ _ _ Hwf Hfield) as (Hifield & Hvfield & Hlfield).
  destruct (getitem_column _ _ _ Hwf Hmoment) as (Himoment & Hvmoment & Hlmoment).
  rewrite Histamp in Hitime.
  assert (Hltime : length (values time) = length (df_index frame)).
  { rewrite <- Hitime. unfold index, values. rewrite !length_map. reflexivity. }
  assert (Hlen : forall s : Series cell, length (values s) = length s)
    by (intros; apply length_values).
  rewrite <- Hlen in Hltemp, Hlfield, Hlmoment.
  pose proof (is_fresh (dom h)) as Hfresh.
  assert (Hnew_df : fresh (dom h) <> df).
  { intros E. apply Hfresh. apply elem_of_dom. exists frame.
    etransitivity; [|exact Hdf]. f_equal. exact E. }
  unfold simplify_magnetic_df, new_DataFrame. rewrite new_object_bind.
  assert (Hfirst : setitem empty_frame "time" time
                   = Ok {| df_index := df_index frame;
                           df_columns := [("time"%string, values time)] |}).
  { unfold setitem. simpl. rewrite Hitime. reflexivity. }
  read_df Hdf Hstamp. read_df Hdf Hstamp. pure_step Hmin. pure_step Hsub.
  erewrite bind_ok by (eapply df_setitem_run; [apply lookup_insert_eq | exact Hfirst]).
  read_df Hdf Htemp. write_new Hitemp.
  read_df Hdf Hfield. write_new Hifield.
  unfold simplified.
  rewrite <- (notna_all_column _ _ _ Hwf Hmoment) in Hmom |- *.
  rewrite <- Hvtemp, <- Hvfield, <- Hvmoment.
  destruct (notna_all moment) eqn:Hvsm.
  - destruct (has_columns_In _ _ "M. Std. Err. (emu)" Hmom) as [err Herr]; [simpl; tauto|].
    destruct (getitem_column _ _ _ Hwf Herr) as (Hierr & Hverr & Hlerr).
    rewrite <- Hlen in Hlerr. rewrite <- Hverr.
    erewrite bind_ok
      by (eapply measurement_type_vsm; [lookup_df | exact Hmoment | exact Hvsm]).
    cbn [df_index df_columns upsert String.eqb Ascii.eqb Bool.eqb].
    erewrite bind_ok.
    2:{ read_df Hdf Hmoment. write_new Himoment. read_df Hdf Herr.
        eapply df_setitem_run; [apply lookup_insert_eq|].
        apply setitem_same_index; [repeat constructor; simpl; congruence|exact Hierr]. }
    rewrite !insert_insert_eq. reflexivity.
  - destruct Hmom as [Hdcol Hdcerr].
    destruct (has_columns_In _ _ "DC Moment Free Ctr (emu)" Hdcol) as [dc Hdc]; [simpl; tauto|].
    destruct (getitem_column _ _ _ Hwf Hdc) as (Hidc & Hvdc & Hldc).
    rewrite <- Hlen in Hldc.
    rewrite <- (notna_all_column _ _ _ Hwf Hdc) in Hdcerr |- *.
    rewrite <- Hvdc.
    erewrite bind_ok
      by (eapply measurement_type_other; [lookup_df | exact Hmoment | exact Hvsm | exact Hdc]).
    cbn [df_index df_columns upsert String.eqb Ascii.eqb Bool.eqb].
    destruct (notna_all dc); cbn [String.eqb Ascii.eqb Bool.eqb].
    + destruct (has_columns_In _ _ "DC Moment Err Free Ctr (emu)" (Hdcerr eq_refl))
        as [dcerr Hdcerr']; [simpl; tauto|].
      destruct (getitem_column _ _ _ Hwf Hdcerr') as (Hidcerr & Hvdcerr & Hldcerr).
      rewrite <- Hlen in Hldcerr. rewrite <- Hvdcerr.
      erewrite bind_ok.
      2:{ read_df Hdf Hdc. write_new Hidc. read_df Hdf Hdcerr'.
          eapply df_setitem_run; [apply lookup_insert_eq|].
          apply setitem_same_index; [repeat constructor; simpl; congruence|exact Hidcerr]. }
      rewrite !insert_insert_eq. reflexivity.
    + erewrite bind_ok by reflexivity.
      rewrite !insert_insert_eq. reflexivity.
Qed.

Lemma getitem_simplified (frame : DataFrame) (time : list cell) (name raw : string)
    (s : Series cell) :
  wf_frame frame ->
  getitem frame raw = Ok s ->
  assoc name (df_columns (simplified frame time)) = Some (column frame raw) ->
  getitem (simplified frame time) name = Ok s.
Proof.
  intros Hwf Hs Hassoc. unfold getitem. rewrite Hassoc.
  destruct (getitem_column _ _ _ Hwf Hs) as (Hi & Hv & _).
  cbn [simplified df_index]. rewrite <- Hi, <- Hv, combine_index_values. reflexivity.
Qed.

(** C9, as the code has it: on a table that has the columns the normaliser
    reads, whose time stamps are floats with a finite least value or
    integers whose spread fits int64, the normaliser returns a new table
    whose "time" column is the time stamp column less its least value, cell
    by cell, so that the least value of "time" is zero, and whose "temp"
    and "field" columns are the temperature and field columns unchanged. *)
Theorem simplify_magnetic_df_spec
    (df : ref) (h : gmap nat DataFrame) (frame : DataFrame) (stamp : Series cell) :
  h !! df = Some frame ->
  wf_frame frame ->
  readable frame ->
  getitem frame "Time Stamp (sec)" = Ok stamp ->
  shiftable stamp ->
  exists (new_frame : DataFrame) (time temp field : Series cell) (least zero : cell),
    simplify_magnetic_df df h = (<[fresh (dom h) := new_frame]> h, Ok (fresh (dom h))) /\
    getitem new_frame "time" = Ok time /\
    is_least stamp least /\
    time = map_values (fun c => cell_sub c least) stamp /\
    is_least time zero /\ is_zero zero = true /\
    series_min time = Ok zero /\
    getitem frame "Temperature (K)" = Ok temp /\
    getitem new_frame "temp" = Ok temp /\
    getitem frame "Magnetic Field (Oe)" = Ok field /\
    getitem new_frame "field" = Ok field.
Proof.
  intros Hdf Hwf Hread Hstamp Hshift.
  pose proof Hread as [Hcols _].
  destruct (has_columns_In _ _ "Temperature (K)" Hcols) as [temp Htemp]; [simpl; tauto|].
  destruct (has_columns_In _ _ "Magnetic Field (Oe)" Hcols) as [field Hfield]; [simpl; tauto|].
  destruct (getitem_column _ _ _ Hwf Hstamp) as (Histamp & _ & _).
  assert (Hout : forall (time : Series cell) (least zero : cell),
            series_min stamp = Ok least ->
            series_sub stamp least = Ok time ->
            index time = index stamp ->
            is_least stamp least ->
            time = map_values (fun c => cell_sub c least) stamp ->
            is_least time zero -> is_zero zero = true -> series_min time = Ok zero ->
            exists (new_frame : DataFrame) (time temp field : Series cell) (least zero : cell),
              simplify_magnetic_df df h
              = (<[fresh (dom h) := new_frame]> h, Ok (fresh (dom h))) /\
              getitem new_frame "time" = Ok time /\
              is_least stamp least /\
              time = map_values (fun c => cell_sub c least) stamp /\
              is_least time zero /\ is_zero zero = true /\
              series_min time = Ok zero /\
              getitem frame "Temperature (K)" = Ok temp /\
              getitem new_frame "temp" = Ok temp /\
              getitem frame "Magnetic Field (Oe)" = Ok field /\
              getitem new_frame "field" = Ok field).
  { intros time least zero Hmin Hsub Hitime Hleast Htime Hzero Hz Hmin'.
    exists (simplified frame (values time)), time, temp, field, least, zero.
    split; [eapply simplify_run_shift; eassumption|].
    split.
    { unfold getitem. cbn [simplified df_columns df_index assoc String.eqb Ascii.eqb Bool.eqb app].
      rewrite <- Histamp, <- Hitime, combine_index_values. reflexivity. }
    repeat (split; [assumption|]).
    split; [eapply getitem_simplified; [exact Hwf|exact Htemp|reflexivity]|].
    split; [assumption|].
    eapply getitem_simplified; [exact Hwf|exact Hfield|reflexivity]. }
  destruct Hshift as [(ts & Hts & Hfin)|(zs & Hzs & Hne & Hspread)].
  - (* float time stamps *)
    destruct (as_float64_index _ _ Hts) as [Hidx Hback].
    pose proof (min_finite_present ts Hfin) as Hpresent.
    pose proof (min_shifted ts Hfin) as Hzero.
    set (time := of_float64 (sub_scalar ts (min ts))).
    apply (Hout time (Num (min ts)) (Num (min (sub_scalar ts (min ts))))).
    + apply series_min_float, Hts.
    + apply series_sub_float, Hts.
    + unfold time, of_float64, sub_scalar. rewrite !index_map_values. exact Hidx.
    + rewrite <- Hback. apply is_least_float, Hpresent.
    + rewrite <- Hback. unfold time, of_float64, sub_scalar.
      rewrite !map_values_compose. reflexivity.
    + apply is_least_float. apply min_finite_present.
      destruct (min (sub_scalar ts (min ts))); try discriminate. reflexivity.
    + exact Hzero.
    + apply series_min_float, as_float64_of_float64.
  - (* int64 time stamps *)
    pose proof (as_int64_inv _ _ Hzs) as ->.
    destruct zs as [|[l z] zs]; [congruence|].
    set (m := fold_left Z.min (values zs) z).
    destruct (fold_Zmin_spec (values zs) z) as [Hin Hle]. fold m in Hin, Hle.
    change (z :: values zs) with (values ((l, z) :: zs)) in Hin, Hle.
    set (s := (l, z) :: zs) in *.
    assert (Hsmall : forall v, In v (values s) -> wrap64 (v - m) = v - m).
    { intros v Hv. apply wrap64_small. specialize (Hle v Hv).
      specialize (Hspread v m Hv Hin). lia. }
    set (time := of_int64 (map_values (fun v => v - m) s)).
    assert (Htime : as_int64 time = Some (map_values (fun v => v - m) s))
      by apply as_int64_of_int64.
    assert (H0 : fold_left Z.min (List.map (fun v => v - m) (values zs)) (z - m) = 0).
    { destruct (fold_Zmin_spec (List.map (fun v => v - m) (values zs)) (z - m)) as [Hin0 Hle0].
      change ((z - m) :: List.map (fun v => v - m) (values zs))
        with (List.map (fun v => v - m) (values s)) in Hin0, Hle0.
      apply List.in_map_iff in Hin0 as (v & Hv & Hvin). specialize (Hle v Hvin).
      specialize (Hle0 (m - m)). rewrite List.in_map_iff in Hle0.
      specialize (Hle0 ltac:(exists m; split; [reflexivity|exact Hin])). lia. }
    apply (Hout time (Int m) (Int 0)).
    + unfold series_min. rewrite as_int64_of_int64. reflexivity.
    + unfold series_sub. rewrite as_int64_of_int64. unfold time. do 2 f_equal.
      apply map_values_ext_in. exact Hsmall.
    + unfold time, of_int64. rewrite !index_map_values. reflexivity.
    + unfold is_least, of_int64. rewrite values_map_values. split; [|split].
      * apply List.in_map, Hin.
      * reflexivity.
      * rewrite List.Forall_map. apply List.Forall_forall. intros v Hv. cbn [cell_ltb].
        specialize (Hle v Hv). lia.
    + unfold time, of_int64. rewrite !map_values_compose. reflexivity.
    + unfold is_least, time, of_int64. rewrite !values_map_values, List.map_map.
      split; [|split].
      * apply List.in_map_iff. exists m. split; [f_equal; lia|exact Hin].
      * reflexivity.
      * rewrite List.Forall_map. apply List.Forall_forall. intros v Hv. cbn [cell_ltb].
        specialize (Hle v Hv). lia.
    + reflexivity.
    + unfold series_min. rewrite Htime. unfold s, map_values. cbn [List.map fst snd].
      do 2 f_equal. rewrite <- H0. f_equal. unfold values. rewrite !List.map_map.
      reflexivity.
Qed.

End NormaliserFacts.
(** ** The data reader *)

Module ReaderFacts.
Import Text Pandas u02_parsing Spec ParsingFacts.

Lemma bind_mret (m : Py ref) (h : gmap nat DataFrame) : (m ≫= mret) h = m h.
Proof. unfold mbind, Py_bind. destruct (m h) as [h' [r|e]]; reflexivity. Qed.

(** C7, as the code has it: when the tab-delimited attempt yields a table
    of exactly one column, [get_data] reads the same file again, from the
    same line, with the default delimiter, and its outcome is that of this
    second attempt whatever it is: the table read, of any width, or the
    reader's own exception.  The second table is not inspected. *)
Theorem get_data_retry
    (read_csv : file -> option ascii -> nat -> result DataFrame)
    (file_path : file) (h : gmap nat DataFrame)
    (header : list (list string)) (frame : DataFrame) :
  get_header file_path = Ok header ->
  read_csv file_path (Some tab) (length header) = Ok frame ->
  snd (shape frame) = 1%nat ->
  get_data read_csv file_path h
  = pd_read_csv read_csv file_path None (length header) (<[fresh (dom h) := frame]> h).
Proof.
  intros Hheader Htab Hone. unfold get_data.
  erewrite bind_ok by (unfold lift; rewrite Hheader; reflexivity).
  erewrite bind_ok.
  2:{ unfold pd_read_csv. erewrite bind_ok by (unfold lift; rewrite Htab; reflexivity).
      reflexivity. }
  erewrite bind_ok by (unfold deref; rewrite lookup_insert_eq; reflexivity).
  rewrite Hone. cbn [Nat.eqb]. apply bind_mret.
Qed.

End ReaderFacts.

(** ** The properties on sample data *)

Module Examples.
Import Text Pandas Sklearn u03_oop u02_parsing Spec Samples.
Import NumFacts OutlierFacts TurnaroundFacts ClusterFacts ParsingFacts NormaliserFacts ReaderFacts.

(** The detector on [1, 1, 1, 1, 100] at threshold 1 and on [5, 5, 5, 5]. *)
Example find_outlier_indices_peak :
  find_outlier_indices (series_of [1; 1; 1; 1; 100]) (of_Z 1) = [4].
Proof. vm_compute. reflexivity. Qed.

Example find_outlier_indices_plateau :
  find_outlier_indices (series_of [5; 5; 5; 5]) (of_Z 1) = [].
Proof. vm_compute. reflexivity. Qed.










(** Away from a tie the rounded value is determined: 1.23 can only be
    rounded to the float nearest to 1.2. *)
Example rounded_1_determined (v : num) :
  rounded_1 (Finite (123 # 100)) v -> v = round (12 # 10).
Proof.
  intros [(k & Hk & ->)|[Hinf _]]; [|vm_compute in Hinf; discriminate].
  assert (Hslack : ((1 # 2) + (Qabs ((123 # 100) * 10) * 2 ^ (-53) + 2 ^ (-1075)) <= 3 # 5)%Q)
    by (vm_compute; discriminate).
  apply Qabs_Qle_condition in Hk as [Hlo Hhi].
  assert (Hk : k = 12).
  { assert (H1 : ((117 # 10) <= inject_Z k)%Q) by lra.
    assert (H2 : (inject_Z k <= (129 # 10))%Q) by lra.
    unfold Qle in H1, H2. simpl in H1, H2. lia. }
  subst k. apply round_Qeq. reflexivity.
Qed.

(** A mean that is not a whole number: 0.1 and 0.6 make 0.35, which is
    rounded to the float nearest to 0.4. *)
Example unique_values_tenths :
  unique_values (tenths [1; 6]) (of_Z 1) 5 = Ok [round (4 # 10)].
Proof. vm_compute. reflexivity. Qed.



Lemma get_data_retry_witness :
  (get_data read_csv comma_file ∅).2 = Ok 1%nat /\
  (snd <$> (shape <$> (get_data read_csv comma_file ∅).1 !! 1%nat)) = Some 2%nat.
Proof.
  rewrite (get_data_retry read_csv comma_file ∅
             [["title"]; ["[Data]"]]%string
             {| df_index := [0; 1];
                df_columns := [("a,b"%string, [Str "1,2"; Str "3,4"])] |}).
  - split; vm_compute; reflexivity.
  - vm_compute. reflexivity.
  - vm_compute. reflexivity.
  - reflexivity.
Defined.

(** Neither delimiter splits [one_column_file]; the table of the second
    attempt is returned all the same. *)
Lemma get_data_single_column_returned :
  (exists t, read_csv one_column_file (Some tab) 1 = Ok t /\ snd (shape t) = 1%nat) /\
  (exists t, read_csv one_column_file None 1 = Ok t /\ snd (shape t) = 1%nat) /\
  (get_data read_csv one_column_file ∅).2 = Ok 1%nat /\
  (snd <$> (shape <$> (get_data read_csv one_column_file ∅).1 !! 1%nat)) = Some 1%nat.
Proof.
  split; [|split; [|split]].
  - eexists. split; vm_compute; reflexivity.
  - eexists. split; vm_compute; reflexivity.
  - vm_compute. reflexivity.
  - vm_compute. reflexivity.
Qed.

Lemma measurement_type_spec_witness :
  measurement_type 0%nat {[ 0%nat := vsm_table (whole [10; 12]) ]}
  = ({[ 0%nat := vsm_table (whole [10; 12]) ]}, Ok "VSM"%string).
Proof.
  refine (proj1 (measurement_type_spec 0%nat {[ 0%nat := vsm_table (whole [10; 12]) ]}
                   (vsm_table (whole [10; 12]))
                   (combine (range_index 2) (whole [7; 8])) _ _) _).
  - apply lookup_singleton_eq.
  - reflexivity.
  - vm_compute. intros [H|[H|[]]]; discriminate.
Defined.

(** A table without the column "Moment (emu)". *)
Lemma measurement_type_raises :
  (measurement_type 0%nat {[ 0%nat := temperature_table [1; 2; 3] ]}).2 = Raise KeyError.
Proof. vm_compute. reflexivity. Qed.

(** A VSM table of five columns, with time stamps 10.5 and 12.5. *)
Lemma simplify_magnetic_df_spec_witness :
  exists (new_frame : DataFrame) (time temp field : Series cell) (least zero : cell),
    simplify_magnetic_df 0%nat {[ 0%nat := vsm_only_table half_seconds ]}
    = (<[fresh (dom ({[ 0%nat := vsm_only_table half_seconds ]} : gmap nat DataFrame))
          := new_frame]> {[ 0%nat := vsm_only_table half_seconds ]},
       Ok (fresh (dom ({[ 0%nat := vsm_only_table half_seconds ]} : gmap nat DataFrame)))) /\
    getitem new_frame "time" = Ok time /\
    is_least (combine (range_index 2) half_seconds) least /\
    time = map_values (fun c => cell_sub c least) (combine (range_index 2) half_seconds) /\
    is_least time zero /\ is_zero zero = true /\
    series_min time = Ok zero /\
    getitem (vsm_only_table half_seconds) "Temperature (K)" = Ok temp /\
    getitem new_frame "temp" = Ok temp /\
    getitem (vsm_only_table half_seconds) "Magnetic Field (Oe)" = Ok field /\
    getitem new_frame "field" = Ok field.
Proof.
  apply (simplify_magnetic_df_spec 0%nat {[ 0%nat := vsm_only_table half_seconds ]}
           (vsm_only_table half_seconds) (combine (range_index 2) half_seconds)).
  - apply lookup_singleton_eq.
  - repeat constructor.
  - split; vm_compute; repeat constructor.
  - reflexivity.
  - left. eexists. split; reflexivity.
Defined.

(** The same with whole seconds, which pandas reads as int64. *)
Example simplify_magnetic_df_seconds :
  let run := simplify_magnetic_df 0%nat {[ 0%nat := vsm_only_table [Int 10; Int 12] ]} in
  run.2 = Ok 1%nat /\
  (run.1 !! 1%nat) ≫= (fun t => assoc "time"%string (df_columns t)) = Some [Int 0; Int 2].
Proof. split; vm_compute; reflexivity. Qed.

(** A table of two rows whose time stamps are both missing: the "time"
    column of the output has no minimum. *)
Lemma simplify_magnetic_df_missing_stamps :
  let run := simplify_magnetic_df 0%nat {[ 0%nat := vsm_table [Num NaN; Num NaN] ]} in
  run.2 = Ok 1%nat /\
  exists new_frame time,
    run.1 !! 1%nat = Some new_frame /\
    getitem new_frame "time" = Ok time /\
    values time = [Num NaN; Num NaN] /\
    series_min time = Ok (Num NaN) /\
    is_zero (Num NaN) = false.
Proof.
  split; [vm_compute; reflexivity|].
  eexists _, _. split; [vm_compute; reflexivity|].
  split; [vm_compute; reflexivity|]. split; [|split]; reflexivity.
Qed.

End Examples.

(** * Further properties *)

(** ** The header reader *)

Module HeaderFacts.
Import Text Csv Pandas u02_parsing Spec ParsingFacts.

Lemma split_fields_cons (sep : ascii) (line : string) :
  exists f fs, split_fields sep line = f :: fs.
Proof.
  induction line as [|c rest (f & fs & IH)]; simpl; [eauto|].
  destruct (Ascii.eqb c sep); [eauto|]. rewrite IH. eauto.
Qed.

(** *** The csv reader on lines without quotes *)

Lemma append_nil_r (s : string) : (s ++ "")%string = s.
Proof.
  induction s as [|c s IH]; [reflexivity|].
  change (String c (s ++ "")%string = String c s). f_equal. exact IH.
Qed.

Lemma append_char_assoc (a : string) (c : ascii) (g : string) :
  ((a ++ String c "") ++ g)%string = (a ++ String c g)%string.
Proof.
  induction a as [|b a IH]; [reflexivity|].
  change (String b ((a ++ String c "") ++ g)%string = String b (a ++ String c g)%string).
  f_equal. exact IH.
Qed.

Lemma length_append_char (a : string) (c : ascii) :
  String.length (a ++ String c "") = S (String.length a).
Proof.
  induction a as [|b a IH]; [reflexivity|].
  change (S (String.length (a ++ String c "")) = S (S (String.length a))).
  f_equal. exact IH.
Qed.

(** A character that is no quote and no line end, inside a record. *)
Lemma process_field_char (p : parser) (c : ascii) :
  st p = START_FIELD \/ st p = IN_FIELD ->
  c <> quote -> c <> newline -> c <> carriage_return ->
  parse_process_char tab p (Some c)
  = if Ascii.eqb c tab then
      Ok {| st := START_FIELD; fields := fields p ++ [field p]; field := "" |}
    else if field_limit <=? Z.of_nat (String.length (field p)) then Raise CsvError
    else Ok {| st := IN_FIELD; fields := fields p; field := field p ++ String c "" |}.
Proof.
  intros Hst Hq Hn Hr. destruct p as [s fs f]. cbn [st fields field] in *.
  apply Ascii.eqb_neq in Hq, Hn, Hr.
  unfold parse_process_char, is_eol, parse_add_char, parse_save_field, set_state.
  cbn [st fields field]. rewrite Hq, Hn, Hr. cbn [orb].
  destruct Hst as [-> | ->]; destruct (Ascii.eqb c tab); try reflexivity;
    destruct (field_limit <=? Z.of_nat (String.length f)); reflexivity.
Qed.

Lemma process_field_eol (p : parser) :
  st p = START_FIELD \/ st p = IN_FIELD ->
  parse_process_char tab p (Some newline)
  = Ok {| st := EAT_CRNL; fields := fields p ++ [field p]; field := "" |}.
Proof.
  intros Hst. destruct p as [s fs f]. cbn [st fields field] in *.
  destruct Hst as [-> | ->]; reflexivity.
Qed.

(** The characters of an unquoted line and its newline, from inside a
    record: the fields of the line are added, the first of them to the
    field that was begun. *)
Lemma parse_chars_unquoted (line : string) :
  forall p : parser,
    st p = START_FIELD \/ st p = IN_FIELD ->
    Forall (fun c => c <> quote /\ c <> newline /\ c <> carriage_return)
      (list_ascii_of_string line) ->
    Z.of_nat (String.length (field p)) + Z.of_nat (String.length line) <= field_limit ->
    parse_chars tab p (list_ascii_of_string line ++ [newline])
    = Ok {| st := EAT_CRNL;
            fields := fields p ++ glue (field p) (split_fields tab line);
            field := "" |}.
Proof.
  induction line as [|c rest IH]; intros p Hst Hall Hlen.
  - cbn [list_ascii_of_string app parse_chars]. rewrite (process_field_eol p Hst).
    cbn [mbind result_bind split_fields glue]. rewrite append_nil_r. reflexivity.
  - cbn [list_ascii_of_string app parse_chars].
    apply Forall_cons_iff in Hall as [(Hq & Hn & Hr) Hall].
    rewrite (process_field_char p c Hst Hq Hn Hr).
    cbn [String.length] in Hlen. cbn [split_fields].
    destruct (Ascii.eqb c tab).
    + cbn [mbind result_bind]. rewrite IH; [|left; reflexivity|exact Hall|cbn; lia].
      cbn [fields field]. destruct (split_fields_cons tab rest) as (g & gs & ->).
      cbn [glue]. rewrite append_nil_r, <- app_assoc. reflexivity.
    + destruct (Z.leb_spec field_limit (Z.of_nat (String.length (field p)))); [lia|].
      cbn [mbind result_bind]. rewrite IH; [|right; reflexivity|exact Hall|].
      * cbn [fields field]. destruct (split_fields_cons tab rest) as (g & gs & ->).
        cbn [glue]. rewrite append_char_assoc. reflexivity.
      * cbn [field]. rewrite length_append_char. lia.
Qed.

(** An unquoted line is one record: its fields as they stand. *)
Lemma parse_line_unquoted (line : string) :
  unquoted line ->
  parse_line tab parse_reset line
  = Ok {| st := START_RECORD; fields := row_of line; field := "" |}.
Proof.
  intros [Hall Hlen]. unfold parse_line, row_of. destruct line as [|c rest].
  - reflexivity.
  - cbn [String.eqb].
    assert (Hstart : parse_chars tab parse_reset (list_ascii_of_string (String c rest) ++ [newline])
                     = parse_chars tab (set_state START_FIELD parse_reset)
                         (list_ascii_of_string (String c rest) ++ [newline])).
    { cbn [list_ascii_of_string app parse_chars].
      pose proof Hall as Hc. apply Forall_inv in Hc as (_ & Hn & Hr).
      apply Ascii.eqb_neq in Hn, Hr.
      unfold parse_process_char at 1 2, is_eol. cbn [st parse_reset set_state].
      rewrite Hn, Hr. reflexivity. }
    rewrite Hstart, parse_chars_unquoted; [|left; reflexivity|exact Hall|exact Hlen].
    cbn [mbind result_bind]. destruct (split_fields_cons tab (String c rest)) as (g & gs & ->).
    reflexivity.
Qed.

Lemma rows_unquoted (pre rest : file) :
  Forall unquoted pre ->
  rows tab parse_reset (pre ++ rest)
  = List.map (fun line => Ok (row_of line)) pre ++ rows tab parse_reset rest.
Proof.
  induction 1 as [|line pre Hline _ IH]; [reflexivity|].
  cbn [app rows List.map]. rewrite (parse_line_unquoted line Hline). cbn [st fields].
  rewrite IH. reflexivity.
Qed.

Lemma csv_reader_unquoted (f : file) :
  Forall unquoted f -> csv_reader tab f = List.map (fun line => Ok (row_of line)) f.
Proof.
  intros Hall. unfold csv_reader, reader.
  rewrite <- (app_nil_r f) at 1. rewrite (rows_unquoted f [] Hall). apply app_nil_r.
Qed.

(** *** The loop over the rows *)

(** The row of a plain line starts with a field that is not the marker. *)
Lemma csv_row_plain (line : string) :
  plain_line line ->
  exists f fs, row_of line = f :: fs /\ String.eqb f "[Data]" = false.
Proof.
  intros [Hne Hf]. unfold row_of. destruct (String.eqb_spec line ""); [contradiction|].
  destruct (split_fields_cons tab line) as (f & fs & E).
  exists f, fs. split; [exact E|]. unfold first_field in Hf. rewrite E in Hf. simpl in Hf.
  destruct (String.eqb_spec f "[Data]"); [contradiction|reflexivity].
Qed.

Lemma csv_row_marker (line : string) :
  first_field line = "[Data]"%string ->
  exists fs, row_of line = "[Data]"%string :: fs.
Proof.
  intros Hf. unfold row_of. destruct (String.eqb_spec line "") as [->|_]; [discriminate|].
  destruct (split_fields_cons tab line) as (f & fs & E).
  unfold first_field in Hf. rewrite E in Hf. simpl in Hf. subst f. eauto.
Qed.

Lemma get_header_loop_plain
    (pre : file) (reader : list (result (list string))) (header : list (list string)) :
  Forall plain_line pre ->
  get_header_loop (List.map (fun line => Ok (row_of line)) pre ++ reader) header
  = get_header_loop reader (header ++ List.map row_of pre).
Proof.
  revert header. induction pre as [|line pre IH]; intros header Hall; simpl.
  - rewrite app_nil_r. reflexivity.
  - apply Forall_cons_iff in Hall as [Hline Hall].
    destruct (csv_row_plain line Hline) as (f & fs & -> & ->).
    rewrite IH by exact Hall. rewrite <- app_assoc. reflexivity.
Qed.

(** The header is every line up to the first line whose first field is
    the marker, that line included, each split at its tabs; what follows
    is not looked at.  The lines read hold no quote and no line end of
    their own, and do not exceed the field size limit. *)
Theorem get_header_marker (pre rest : file) (mark : string) :
  Forall unquoted (pre ++ [mark]) ->
  Forall plain_line pre ->
  first_field mark = "[Data]"%string ->
  get_header (pre ++ mark :: rest) = Ok (List.map row_of (pre ++ [mark])) /\
  length (List.map row_of (pre ++ [mark])) = S (length pre).
Proof.
  intros Hplain Hpre Hmark. split.
  - unfold get_header, csv_reader, reader.
    change (pre ++ mark :: rest) with (pre ++ [mark] ++ rest).
    rewrite app_assoc, (rows_unquoted _ rest Hplain).
    rewrite List.map_app, <- app_assoc, get_header_loop_plain by exact Hpre.
    cbn [List.map app get_header_loop].
    rewrite (List.map_app row_of). cbn [List.map].
    destruct (csv_row_marker mark Hmark) as (fs & ->). reflexivity.
  - rewrite length_map, length_app. simpl. lia.
Qed.

Lemma get_header_all_plain (f : file) :
  Forall unquoted f ->
  Forall plain_line f ->
  get_header f = Ok (List.map row_of f).
Proof.
  intros Hun Hall. unfold get_header. rewrite (csv_reader_unquoted f Hun).
  rewrite <- (app_nil_r (List.map _ f)).
  rewrite get_header_loop_plain by exact Hall. reflexivity.
Qed.

(** A blank line ahead of the marker stops the reader with an IndexError,
    and [get_data] passes it on without touching the store or the
    table reader. *)
Theorem get_header_blank_line
    (read_csv : file -> option ascii -> nat -> result DataFrame)
    (pre rest : file) (h : gmap nat DataFrame) :
  Forall unquoted pre ->
  Forall plain_line pre ->
  get_header (pre ++ ""%string :: rest) = Raise IndexError /\
  get_data read_csv (pre ++ ""%string :: rest) h = (h, Raise IndexError).
Proof.
  intros Hun Hpre.
  assert (Hh : get_header (pre ++ ""%string :: rest) = Raise IndexError).
  { unfold get_header, csv_reader, reader.
    rewrite (rows_unquoted pre _ Hun), get_header_loop_plain by exact Hpre.
    reflexivity. }
  split; [exact Hh|].
  unfold get_data. erewrite bind_raise; [reflexivity|].
  unfold lift. rewrite Hh. reflexivity.
Qed.

End HeaderFacts.

(** ** The data reader, further *)

Module DataFacts.
Import Text Pandas u02_parsing Spec ParsingFacts HeaderFacts.

Section Reader.
Variable read_csv : file -> option ascii -> nat -> result DataFrame.

(** [get_data] spelled out on the outcomes of the header and table reads. *)
Lemma get_data_run (file_path : file) (h : gmap nat DataFrame) :
  get_data read_csv file_path h =
  match get_header file_path with
  | Raise e => (h, Raise e)
  | Ok header =>
      match read_csv file_path (Some tab) (length header) with
      | Raise e => (h, Raise e)
      | Ok t1 =>
          let h1 := <[fresh (dom h) := t1]> h in
          if (snd (shape t1) =? 1)%nat then
            match read_csv file_path None (length header) with
            | Raise e => (h1, Raise e)
            | Ok t2 => (<[fresh (dom h1) := t2]> h1, Ok (fresh (dom h1)))
            end
          else (h1, Ok (fresh (dom h)))
      end
  end.
Proof.
  unfold get_data, pd_read_csv, lift, new_object, deref, mbind, Py_bind, mret, Py_ret.
  destruct (get_header file_path) as [header|e]; [|reflexivity].
  destruct (read_csv file_path (Some tab) (length header)) as [t1|e]; [|reflexivity].
  rewrite lookup_insert_eq.
  destruct (snd (shape t1) =? 1)%nat; [|reflexivity].
  destruct (read_csv file_path None (length header)) as [t2|e]; reflexivity.
Qed.

(** A tab-delimited table that does not have exactly one column is
    returned as it is: one table is created and the file is read once. *)
Theorem get_data_no_retry
    (file_path : file) (h : gmap nat DataFrame)
    (header : list (list string)) (frame : DataFrame) :
  get_header file_path = Ok header ->
  read_csv file_path (Some tab) (length header) = Ok frame ->
  snd (shape frame) <> 1%nat ->
  get_data read_csv file_path h = (<[fresh (dom h) := frame]> h, Ok (fresh (dom h))).
Proof.
  intros Hheader Htab Hcols. rewrite get_data_run, Hheader, Htab. cbv zeta.
  destruct (Nat.eqb_spec (snd (shape frame)) 1); [contradiction|reflexivity].
Qed.

(** [get_data] raises what the header reader or a table read raises, and
    nothing of its own: it ends in an exception exactly when the header
    reader does, or the tab-delimited read does, or that read gives a
    single column and the second read raises. *)
Theorem get_data_raises (file_path : file) (h : gmap nat DataFrame) (e : exn) :
  (get_data read_csv file_path h).2 = Raise e <->
  get_header file_path = Raise e \/
  exists header,
    get_header file_path = Ok header /\
    (read_csv file_path (Some tab) (length header) = Raise e \/
     exists frame,
       read_csv file_path (Some tab) (length header) = Ok frame /\
       snd (shape frame) = 1%nat /\
       read_csv file_path None (length header) = Raise e).
Proof.
  rewrite get_data_run.
  destruct (get_header file_path) as [header|e0].
  2:{ cbn [snd]. split; [intros E; left; congruence|].
      intros [E|(header & E & _)]; [congruence|discriminate]. }
  destruct (read_csv file_path (Some tab) (length header)) as [t1|e1] eqn:Htab.
  2:{ cbn [snd]. split.
      - intros E. right. exists header. split; [reflexivity|]. left. rewrite Htab. congruence.
      - intros [E|(header' & E' & [E|(frame & E & _)])]; [discriminate| |];
          injection E' as <-; congruence. }
  cbv zeta. destruct (Nat.eqb_spec (snd (shape t1)) 1) as [Hone|Hmore].
  - destruct (read_csv file_path None (length header)) as [t2|e2] eqn:Hdef; cbn [snd].
    + split; [discriminate|].
      intros [E|(header' & E' & [E|(frame & _ & _ & E)])]; [discriminate| |];
        injection E' as <-; congruence.
    + split.
      * intros E. right. exists header. split; [reflexivity|]. right.
        exists t1. split; [exact Htab|]. split; [exact Hone|]. rewrite Hdef. congruence.
      * intros [E|(header' & E' & [E|(frame & _ & _ & E)])]; [discriminate| |];
          injection E' as <-; congruence.
  - cbn [snd]. split; [discriminate|].
    intros [E|(header' & E' & [E|(frame & E & Hone & _)])]; [discriminate| |];
      injection E' as <-; [congruence|].
    rewrite Htab in E. injection E as <-. contradiction.
Qed.

(** [get_data] changes no table that was there before the call, and the
    table it returns is a new object: the tab-delimited table, or the
    table of the second read when the first has a single column; both
    are read past as many lines as the header has rows. *)
Theorem get_data_frame (file_path : file) (h : gmap nat DataFrame) :
  (forall r, r ∈ dom h -> (get_data read_csv file_path h).1 !! r = h !! r) /\
  (forall df, (get_data read_csv file_path h).2 = Ok df ->
     (df ∉ dom h) /\
     exists header frame,
       get_header file_path = Ok header /\
       (get_data read_csv file_path h).1 !! df = Some frame /\
       (read_csv file_path (Some tab) (length header) = Ok frame /\ snd (shape frame) <> 1%nat
        \/ read_csv file_path None (length header) = Ok frame)).
Proof.
  rewrite get_data_run.
  pose proof (is_fresh (dom h)) as Hfresh.
  destruct (get_header file_path) as [header|e]; [|split; [reflexivity|discriminate]].
  destruct (read_csv file_path (Some tab) (length header)) as [t1|e] eqn:Htab;
    [|split; [reflexivity|discriminate]].
  cbv zeta. set (h1 := <[fresh (dom h) := t1]> h).
  assert (Hold : forall r, r ∈ dom h -> h1 !! r = h !! r).
  { intros r Hr. apply lookup_insert_ne. intros <-. contradiction. }
  assert (Hsub : forall r, r ∈ dom h -> r ∈ dom h1).
  { intros r Hr. apply elem_of_dom. rewrite Hold by exact Hr. apply elem_of_dom, Hr. }
  pose proof (is_fresh (dom h1)) as Hfresh1.
  destruct (Nat.eqb_spec (snd (shape t1)) 1) as [Hone|Hmore].
  - destruct (read_csv file_path None (length header)) as [t2|e] eqn:Hdef.
    + split.
      * intros r Hr. simpl. rewrite lookup_insert_ne; [apply Hold, Hr|].
        intros <-. apply Hfresh1, Hsub, Hr.
      * intros df [= <-]. split; [intros Hin; apply Hfresh1, Hsub, Hin|].
        exists header, t2. split; [reflexivity|]. split; [apply lookup_insert_eq|].
        right. exact Hdef.
    + split; [exact Hold|discriminate].
  - split; [exact Hold|].
    intros df [= <-]. split; [exact Hfresh|].
    exists header, t1. split; [reflexivity|]. split; [apply lookup_insert_eq|].
    left. split; [exact Htab|exact Hmore].
Qed.

End Reader.

Lemma unquoted_no_quote (f : file) :
  Forall unquoted f ->
  existsb (fun line => existsb (Ascii.eqb quote) (list_ascii_of_string line)) f = false.
Proof.
  induction 1 as [|line f [Hline _] _ IH]; [reflexivity|].
  cbn [existsb]. rewrite IH, orb_false_r.
  induction Hline as [|c cs (Hq & _) _ IHc]; [reflexivity|].
  cbn [existsb]. rewrite IHc, orb_false_r. apply Ascii.eqb_neq. congruence.
Qed.

(** Without a marker line the whole file is taken as the header; with the
    reader of pandas no data section is left then, and [get_data] raises
    EmptyDataError.  The lines hold no quote and no line end of their own,
    and do not exceed the field size limit. *)
Theorem get_header_no_marker (f : file) (h : gmap nat DataFrame) :
  Forall unquoted f ->
  Forall plain_line f ->
  get_header f = Ok (List.map row_of f) /\
  get_data read_csv f h = (h, Raise EmptyDataError).
Proof.
  intros Hun Hall. pose proof (get_header_all_plain f Hun Hall) as Hh.
  split; [exact Hh|].
  rewrite get_data_run, Hh, length_map.
  unfold read_csv. rewrite (unquoted_no_quote f Hun), skipn_all. reflexivity.
Qed.

End DataFacts.

(** ** The normaliser, further *)

Module SimplifyFacts.
Import Text Pandas u02_parsing Spec.
Import NumFacts SeriesFacts TurnaroundFacts ParsingFacts NormaliserFacts.

(** The run of the normaliser on a table that has what it reads. *)
Lemma simplify_run
    (df : ref) (h : gmap nat DataFrame) (frame : DataFrame)
    (stamp : Series cell) (ts : Series num) :
  h !! df = Some frame ->
  wf_frame frame ->
  has_columns frame instrument_columns ->
  getitem frame "Time Stamp (sec)" = Ok stamp ->
  as_float64 stamp = Ok ts ->
  simplify_magnetic_df df h
  = (<[fresh (dom h) :=
         simplified frame (List.map (fun v => Num (sub v (min ts))) (values ts))]> h,
     Ok (fresh (dom h))).
Proof.
  intros Hdf Hwf Hcols Hstamp Hts.
  rewrite (simplify_run_shift df h frame stamp
             (of_float64 (sub_scalar ts (min ts))) (Num (min ts)) Hdf Hwf
             (instrument_readable _ Hcols) Hstamp
             (series_min_float _ _ Hts) (series_sub_float _ _ _ Hts)).
  - do 3 f_equal. unfold of_float64, sub_scalar.
    rewrite !values_map_values, List.map_map. reflexivity.
  - unfold of_float64, sub_scalar. rewrite !index_map_values.
    apply (as_float64_index _ _ Hts).
Qed.

Lemma getitem_missing (frame : DataFrame) (name : string) :
  ~ In name (column_names frame) <-> getitem frame name = Raise KeyError.
Proof.
  unfold getitem, column_names. induction (df_columns frame) as [|[k c] cols IH]; simpl.
  - split; [reflexivity|tauto].
  - destruct (String.eqb_spec name k) as [->|Hne].
    + split; [intros Hn; exfalso; apply Hn; left; reflexivity|discriminate].
    + rewrite <- IH. split; [tauto|]. intros Hn [Hk|Hin]; [congruence|contradiction].
Qed.

Lemma simplified_wf (frame : DataFrame) (time : list cell) :
  wf_frame frame ->
  has_columns frame instrument_columns ->
  length time = length (df_index frame) ->
  wf_frame (simplified frame time).
Proof.
  intros Hwf Hcols Htime.
  assert (Hcol : forall name, In name instrument_columns ->
            length (column frame name) = length (df_index frame)).
  { intros name Hin. destruct (has_columns_In _ _ name Hcols Hin) as [s Hs].
    destruct (getitem_column _ _ _ Hwf Hs) as (_ & <- & <-). apply length_values. }
  unfold wf_frame, simplified. cbn [df_index df_columns].
  apply List.Forall_app. split.
  - repeat constructor; simpl; [exact Htime| |]; apply Hcol; simpl; tauto.
  - destruct (forallb notna (column frame "Moment (emu)")); [|destruct (forallb notna _)];
      repeat constructor; simpl; apply Hcol; simpl; tauto.
Qed.

(** The normaliser computes the table [simplified]: the index of its
    input; "time", the time stamps less their minimum; "temp" and "field";
    then "moment" and "moment_err" from the VSM pair of columns when
    "Moment (emu)" is complete, else from the DC pair when "DC Moment Free
    Ctr (emu)" is complete, else no moment column at all.  The new table
    has one cell per row in each column. *)
Theorem simplify_magnetic_df_table
    (df : ref) (h : gmap nat DataFrame) (frame : DataFrame)
    (stamp : Series cell) (ts : Series num) :
  h !! df = Some frame ->
  wf_frame frame ->
  has_columns frame instrument_columns ->
  getitem frame "Time Stamp (sec)" = Ok stamp ->
  as_float64 stamp = Ok ts ->
  let time := List.map (fun v => Num (sub v (min ts))) (values ts) in
  simplify_magnetic_df df h
  = (<[fresh (dom h) := simplified frame time]> h, Ok (fresh (dom h))) /\
  wf_frame (simplified frame time) /\
  column_names (simplified frame time)
  = ["time"%string; "temp"%string; "field"%string]
    ++ (if forallb notna (column frame "Moment (emu)")
           || forallb notna (column frame "DC Moment Free Ctr (emu)")
        then ["moment"%string; "moment_err"%string] else []).
Proof.
  intros Hdf Hwf Hcols Hstamp Hts time. split; [|split].
  - apply (simplify_run df h frame stamp ts); assumption.
  - apply simplified_wf; [exact Hwf|exact Hcols|].
    unfold time. rewrite length_map, length_values.
    destruct (as_float64_index _ _ Hts) as [Hidx _].
    destruct (getitem_column _ _ _ Hwf Hstamp) as (Hi & _ & _).
    rewrite <- Hi, <- Hidx. symmetry. apply length_index.
  - unfold column_names, simplified. cbn [df_columns].
    destruct (forallb notna (column frame "Moment (emu)")); [reflexivity|].
    destruct (forallb notna (column frame "DC Moment Free Ctr (emu)")); reflexivity.
Qed.

Lemma shifted_nonnegative (ts : Series num) :
  isfinite (min ts) = true ->
  Forall (fun v => isnan v = true \/ ltb v (Finite 0) = false /\ isnan v = false)
    (values (sub_scalar ts (min ts))) /\
  Forall2 (fun v t => isnan t = isnan v) (values ts) (values (sub_scalar ts (min ts))).
Proof.
  intros Hfin. pose proof (min_finite_present ts Hfin) as Hne.
  destruct (min_spec ts Hne) as [_ Hmin].
  destruct (min ts) as [| | |q] eqn:Hm; try discriminate.
  unfold sub_scalar. rewrite values_map_values. split.
  - rewrite List.Forall_map. apply List.Forall_forall. intros v Hv.
    destruct v as [| | |a]; [left; reflexivity| |right; split; reflexivity|].
    + (* -inf is below the finite minimum *)
      assert (Hd : In NegInf (dropna ts)).
      { unfold dropna. apply List.filter_In. split; [exact Hv|reflexivity]. }
      specialize (Hmin _ Hd). discriminate.
    + right.
      assert (Hd : In (Finite a) (dropna ts)).
      { unfold dropna. apply List.filter_In. split; [exact Hv|reflexivity]. }
      specialize (Hmin _ Hd). apply ltb_Finite_false in Hmin.
      apply (sub_nonneg a q Hmin).
  - induction (values ts) as [|v vs IH]; cbn [List.map]; constructor; [|exact IH].
    destruct v; try reflexivity. apply isnan_round.
Qed.

(** No time is negative: on a table the normaliser accepts, with a finite
    least time stamp, the "time" column of the output holds, row by row, a
    missing value where the time stamp is missing and otherwise a number
    that is not below zero. *)
Theorem simplify_time_nonnegative
    (df : ref) (h : gmap nat DataFrame) (frame : DataFrame)
    (stamp : Series cell) (ts : Series num) :
  h !! df = Some frame ->
  wf_frame frame ->
  has_columns frame instrument_columns ->
  getitem frame "Time Stamp (sec)" = Ok stamp ->
  as_float64 stamp = Ok ts ->
  isfinite (min ts) = true ->
  exists (new_frame : DataFrame) (time : list num),
    simplify_magnetic_df df h = (<[fresh (dom h) := new_frame]> h, Ok (fresh (dom h))) /\
    column new_frame "time" = List.map Num time /\
    Forall (fun t => isnan t = true \/ ltb t (Finite 0) = false /\ isnan t = false) time /\
    Forall2 (fun v t => isnan t = isnan v) (values ts) time.
Proof.
  intros Hdf Hwf Hcols Hstamp Hts Hfin.
  destruct (shifted_nonnegative ts Hfin) as [Hpos Hnan].
  exists (simplified frame (List.map (fun v => Num (sub v (min ts))) (values ts))),
    (values (sub_scalar ts (min ts))).
  split; [apply (simplify_run df h frame stamp ts); assumption|].
  split; [|split; assumption].
  unfold column, simplified, sub_scalar. cbn [df_columns app assoc String.eqb Ascii.eqb Bool.eqb].
  rewrite values_map_values, List.map_map. reflexivity.
Qed.

(** A table that lacks "Time Stamp (sec)" makes the normaliser raise
    KeyError; so does one with numeric time stamps that lacks "Temperature
    (K)" or "Magnetic Field (Oe)". *)
Theorem simplify_missing_column
    (df : ref) (h : gmap nat DataFrame) (frame : DataFrame) (name : string) :
  h !! df = Some frame ->
  wf_frame frame ->
  (forall stamp, getitem frame "Time Stamp (sec)" = Ok stamp -> is_ok (as_float64 stamp) = true) ->
  In name ["Time Stamp (sec)"; "Temperature (K)"; "Magnetic Field (Oe)"]%string ->
  ~ In name (column_names frame) ->
  (simplify_magnetic_df df h).2 = Raise KeyError.
Proof.
  intros Hdf Hwf Hnum Hname Hmiss.
  pose proof (is_fresh (dom h)) as Hfresh.
  assert (Hnew_df : fresh (dom h) <> df).
  { intros E. apply Hfresh. apply elem_of_dom. exists frame.
    etransitivity; [|exact Hdf]. f_equal. exact E. }
  unfold simplify_magnetic_df, new_DataFrame. rewrite new_object_bind.
  destruct (getitem frame "Time Stamp (sec)") as [stamp|e] eqn:Hstamp.
  2:{ assert (e = KeyError) as ->.
      { unfold getitem in Hstamp. destruct (assoc _ _); congruence. }
      erewrite bind_raise; [reflexivity|].
      erewrite df_getitem_run by lookup_df. rewrite Hstamp. reflexivity. }
  specialize (Hnum stamp eq_refl).
  destruct (as_float64 stamp) as [ts|] eqn:Hts; [|discriminate].
  destruct (as_float64_index _ _ Hts) as [Hidx _].
  destruct (getitem_column _ _ _ Hwf Hstamp) as (Histamp & _ & _).
  set (time := of_float64 (sub_scalar ts (min ts))).
  pose proof (series_min_float _ _ Hts) as Hmin.
  assert (Hsub : series_sub stamp (Num (min ts)) = Ok time)
    by apply (series_sub_float _ _ _ Hts).
  assert (Hitime : index time = df_index frame).
  { unfold time, of_float64, sub_scalar. rewrite !index_map_values, Hidx. exact Histamp. }
  assert (Hfirst : setitem empty_frame "time" time
                   = Ok {| df_index := df_index frame;
                           df_columns := [("time"%string, values time)] |}).
  { unfold setitem. simpl. rewrite Hitime. reflexivity. }
  assert (Hltime : length (values time) = length (df_index frame)).
  { rewrite <- Hitime. unfold index, values. rewrite !length_map. reflexivity. }
  read_df Hdf Hstamp. read_df Hdf Hstamp. pure_step Hmin. pure_step Hsub.
  erewrite bind_ok by (eapply df_setitem_run; [apply lookup_insert_eq | exact Hfirst]).
  destruct (getitem frame "Temperature (K)") as [temp|e] eqn:Htemp.
  2:{ assert (e = KeyError) as ->.
      { unfold getitem in Htemp. destruct (assoc _ _); congruence. }
      erewrite bind_raise; [reflexivity|].
      erewrite df_getitem_run by lookup_df. rewrite Htemp. reflexivity. }
  destruct (getitem_column _ _ _ Hwf Htemp) as (Hitemp & _ & Hltemp).
  rewrite <- (length_values temp) in Hltemp.
  read_df Hdf Htemp. write_new Hitemp.
  destruct (getitem frame "Magnetic Field (Oe)") as [field|e] eqn:Hfield.
  2:{ assert (e = KeyError) as ->.
      { unfold getitem in Hfield. destruct (assoc _ _); congruence. }
      erewrite bind_raise; [reflexivity|].
      erewrite df_getitem_run by lookup_df. rewrite Hfield. reflexivity. }
  (* all three are there: the column said to be missing is not *)
  exfalso. apply getitem_missing in Hmiss.
  destruct Hname as [<-|[<-|[<-|[]]]]; congruence.
Qed.

(** Text among the time stamps makes the normaliser raise TypeError; the
    empty table it had created stays behind, the input is as before. *)
Theorem simplify_text_stamps
    (df : ref) (h : gmap nat DataFrame) (frame : DataFrame) (stamp : Series cell) :
  h !! df = Some frame ->
  getitem frame "Time Stamp (sec)" = Ok stamp ->
  (exists l t, In (l, Str t) stamp) ->
  simplify_magnetic_df df h = (<[fresh (dom h) := empty_frame]> h, Raise TypeError).
Proof.
  intros Hdf Hstamp Htext.
  pose proof (is_fresh (dom h)) as Hfresh.
  assert (Hnew_df : fresh (dom h) <> df).
  { intros E. apply Hfresh. apply elem_of_dom. exists frame.
    etransitivity; [|exact Hdf]. f_equal. exact E. }
  unfold simplify_magnetic_df, new_DataFrame. rewrite new_object_bind.
  read_df Hdf Hstamp. read_df Hdf Hstamp.
  erewrite bind_raise; [reflexivity|].
  unfold lift, series_min.
  rewrite (as_int64_text stamp Htext), (to_float64_text stamp Htext). reflexivity.
Qed.

(** The normaliser cannot be applied to its own output: the table it
    returns has no "Time Stamp (sec)" column, and a second call on it
    raises KeyError. *)
Theorem simplify_twice
    (df : ref) (h : gmap nat DataFrame) (frame : DataFrame)
    (stamp : Series cell) (ts : Series num) :
  h !! df = Some frame ->
  wf_frame frame ->
  has_columns frame instrument_columns ->
  getitem frame "Time Stamp (sec)" = Ok stamp ->
  as_float64 stamp = Ok ts ->
  exists new_df h',
    simplify_magnetic_df df h = (h', Ok new_df) /\
    (simplify_magnetic_df new_df h').2 = Raise KeyError.
Proof.
  intros Hdf Hwf Hcols Hstamp Hts.
  eexists _, _. split; [apply (simplify_run df h frame stamp ts); assumption|].
  set (out := simplified frame _).
  set (h' := <[fresh (dom h) := out]> h).
  assert (Hout : h' !! fresh (dom h) = Some out) by apply lookup_insert_eq.
  assert (Hmiss : getitem out "Time Stamp (sec)" = Raise KeyError).
  { apply getitem_missing. unfold out, column_names, simplified. cbn [df_columns].
    destruct (forallb notna (column frame "Moment (emu)")); [|destruct (forallb notna _)];
      simpl; intros H; repeat (destruct H as [H|H]; [discriminate|]); exact H. }
  pose proof (is_fresh (dom h')) as Hfresh.
  assert (Hne : fresh (dom h') <> fresh (dom h)).
  { intros E. apply Hfresh. apply elem_of_dom. exists out.
    etransitivity; [|exact Hout]. f_equal. exact E. }
  unfold simplify_magnetic_df, new_DataFrame. rewrite new_object_bind.
  erewrite bind_raise; [reflexivity|].
  erewrite df_getitem_run by (rewrite lookup_insert_ne by exact Hne; exact Hout).
  rewrite Hmiss. reflexivity.
Qed.

End SimplifyFacts.

(** ** The classifier and the whole pipeline *)

Module PipelineFacts.
Import Text Pandas u02_parsing Spec.
Import NumFacts SeriesFacts TurnaroundFacts ParsingFacts NormaliserFacts.
Import HeaderFacts DataFacts SimplifyFacts.

Lemma getitem_raises_KeyError (frame : DataFrame) (name : string) (e : exn) :
  getitem frame name = Raise e -> e = KeyError.
Proof. unfold getitem. destruct (assoc _ _); congruence. Qed.

(** The classifier reads only: the store is as before; it returns "VSM",
    "DC" or "" or raises KeyError, and it raises exactly when "Moment
    (emu)" is missing from the table, or has a missing value while "DC
    Moment Free Ctr (emu)" is missing from the table. *)
Theorem measurement_type_outcomes (df : ref) (h : gmap nat DataFrame) (frame : DataFrame) :
  h !! df = Some frame ->
  wf_frame frame ->
  (measurement_type df h).1 = h /\
  ((measurement_type df h).2 = Ok "VSM"%string \/
   (measurement_type df h).2 = Ok "DC"%string \/
   (measurement_type df h).2 = Ok ""%string \/
   (measurement_type df h).2 = Raise KeyError) /\
  ((measurement_type df h).2 = Raise KeyError <->
   ~ In "Moment (emu)"%string (column_names frame) \/
   (In (Num NaN) (column frame "Moment (emu)") /\
    ~ In "DC Moment Free Ctr (emu)"%string (column_names frame))).
Proof.
  intros Hdf Hwf. split; [apply read_only_measurement_type|].
  unfold measurement_type.
  destruct (getitem frame "Moment (emu)") as [moment|e] eqn:Hmoment.
  2:{ pose proof (getitem_raises_KeyError _ _ _ Hmoment) as ->.
      erewrite bind_raise
        by (rewrite (df_getitem_run _ _ _ _ Hdf), Hmoment; reflexivity).
      split; [tauto|]. split; [intros _; left; apply getitem_missing, Hmoment|reflexivity]. }
  assert (Hhas : ~ ~ In "Moment (emu)"%string (column_names frame)).
  { intros Hn. apply getitem_missing in Hn. congruence. }
  destruct (getitem_column _ _ _ Hwf Hmoment) as (_ & Hvm & _).
  erewrite bind_ok by (rewrite (df_getitem_run _ _ _ _ Hdf), Hmoment; reflexivity).
  destruct (notna_all moment) eqn:Hfull.
  { split; [tauto|]. split; [discriminate|].
    intros [Hn|[Hnan _]]; [contradiction|].
    apply notna_all_true in Hfull. rewrite Hvm in Hfull. contradiction. }
  apply notna_all_false in Hfull. rewrite Hvm in Hfull.
  destruct (getitem frame "DC Moment Free Ctr (emu)") as [dc|e] eqn:Hdc.
  2:{ pose proof (getitem_raises_KeyError _ _ _ Hdc) as ->.
      erewrite bind_raise
        by (rewrite (df_getitem_run _ _ _ _ Hdf), Hdc; reflexivity).
      split; [tauto|]. split; [intros _; right; split; [exact Hfull|]|reflexivity].
      apply getitem_missing, Hdc. }
  erewrite bind_ok by (rewrite (df_getitem_run _ _ _ _ Hdf), Hdc; reflexivity).
  assert (Hnot : ~ (~ In "Moment (emu)"%string (column_names frame) \/
                    In (Num NaN) (column frame "Moment (emu)") /\
                    ~ In "DC Moment Free Ctr (emu)"%string (column_names frame))).
  { intros [Hn|[_ Hn]]; [contradiction|]. apply getitem_missing in Hn. congruence. }
  destruct (notna_all dc); (split; [tauto|]); (split; [discriminate|intros; contradiction]).
Qed.

(** A table that has the column "Moment (emu)" but no rows classifies as
    VSM: no row holds a missing value. *)
Theorem measurement_type_no_rows (df : ref) (h : gmap nat DataFrame) (frame : DataFrame) :
  h !! df = Some frame ->
  df_index frame = [] ->
  In "Moment (emu)"%string (column_names frame) ->
  measurement_type df h = (h, Ok "VSM"%string).
Proof.
  intros Hdf Hrows Hin. unfold measurement_type.
  destruct (getitem frame "Moment (emu)") as [moment|e] eqn:Hmoment.
  2:{ pose proof (getitem_raises_KeyError _ _ _ Hmoment) as ->.
      apply getitem_missing in Hmoment. contradiction. }
  erewrite bind_ok by (rewrite (df_getitem_run _ _ _ _ Hdf), Hmoment; reflexivity).
  assert (moment = []) as ->.
  { unfold getitem in Hmoment. destruct (assoc _ _); [|discriminate].
    rewrite Hrows in Hmoment. injection Hmoment as <-. reflexivity. }
  reflexivity.
Qed.

(** *** The store under the normaliser, the reader and their composition *)

Lemma preserves_bind {A B} (m : Py A) (f : A -> Py B) :
  preserves m -> (forall a, preserves (f a)) -> preserves (m ≫= f).
Proof.
  intros Hm Hf h r Hr. unfold mbind, Py_bind. specialize (Hm h r Hr).
  destruct (m h) as [h' [a|e]]; simpl in *; [|exact Hm].
  rewrite (Hf a h' r); [exact Hm|].
  apply elem_of_dom. rewrite Hm. apply elem_of_dom, Hr.
Qed.

Lemma simplify_preserves (df : ref) : preserves (simplify_magnetic_df df).
Proof.
  intros h r Hr. pose proof (is_fresh (dom h)) as Hfresh.
  unfold simplify_magnetic_df, new_DataFrame. rewrite new_object_bind.
  set (new := fresh (dom h)) in *.
  match goal with |- context [(?b (<[new := empty_frame]> h)).1] => set (body := b) end.
  assert (Hbody : only_writes new body).
  { unfold body. repeat frame_step.
    destruct (String.eqb _ "VSM"); [repeat frame_step|].
    destruct (String.eqb _ "DC"); repeat frame_step. }
  destruct (Hbody (<[new := empty_frame]> h)) as [Hothers _].
  rewrite Hothers by (intros ->; contradiction).
  apply lookup_insert_ne. intros ->; contradiction.
Qed.

Section Reader.
Variable read_csv : file -> option ascii -> nat -> result DataFrame.

Lemma get_data_preserves (file_path : file) : preserves (get_data read_csv file_path).
Proof.
  intros h r Hr. rewrite get_data_run.
  pose proof (is_fresh (dom h)) as Hfresh.
  destruct (get_header file_path) as [header|e]; [|reflexivity].
  destruct (read_csv file_path (Some tab) (length header)) as [t1|e]; [|reflexivity].
  cbv zeta. set (h1 := <[fresh (dom h) := t1]> h).
  assert (Hold : h1 !! r = h !! r).
  { apply lookup_insert_ne. intros <-. contradiction. }
  assert (Hsub : r ∈ dom h1).
  { apply elem_of_dom. rewrite Hold. apply elem_of_dom, Hr. }
  pose proof (is_fresh (dom h1)) as Hfresh1.
  destruct (snd (shape t1) =? 1)%nat; [|exact Hold].
  destruct (read_csv file_path None (length header)) as [t2|e]; [|exact Hold].
  simpl. rewrite lookup_insert_ne; [exact Hold|]. intros <-. contradiction.
Qed.

(** [magnetic_df] changes no table that was in the store before the call,
    whether it returns or raises. *)
Theorem magnetic_df_preserves (file_path : file) (h : gmap nat DataFrame) (r : ref) :
  r ∈ dom h -> (magnetic_df read_csv file_path h).1 !! r = h !! r.
Proof.
  revert h r. change (preserves (magnetic_df read_csv file_path)).
  apply preserves_bind; [apply get_data_preserves|]. intros df. apply simplify_preserves.
Qed.

(** [magnetic_df] is the normaliser applied to the table read: when the
    tab-delimited read gives a table of the instrument with several columns and
    numeric time stamps, the store gains that table and, after it, its
    normalised form, which is returned. *)
Theorem magnetic_df_pipeline
    (file_path : file) (h : gmap nat DataFrame)
    (header : list (list string)) (frame : DataFrame)
    (stamp : Series cell) (ts : Series num) :
  get_header file_path = Ok header ->
  read_csv file_path (Some tab) (length header) = Ok frame ->
  wf_frame frame ->
  has_columns frame instrument_columns ->
  getitem frame "Time Stamp (sec)" = Ok stamp ->
  as_float64 stamp = Ok ts ->
  let h1 := <[fresh (dom h) := frame]> h in
  magnetic_df read_csv file_path h
  = (<[fresh (dom h1) :=
         simplified frame (List.map (fun v => Num (sub v (min ts))) (values ts))]> h1,
     Ok (fresh (dom h1))).
Proof.
  intros Hheader Htab Hwf Hcols Hstamp Hts h1.
  assert (Hmany : snd (shape frame) <> 1%nat).
  { unfold shape. simpl. intros Hone.
    destruct (has_columns_In _ _ "Time Stamp (sec)" Hcols) as [a Ha]; [simpl; tauto|].
    destruct (has_columns_In _ _ "Temperature (K)" Hcols) as [b Hb]; [simpl; tauto|].
    unfold getitem in Ha, Hb.
    destruct (assoc "Time Stamp (sec)" (df_columns frame)) as [ca|] eqn:Hca; [|discriminate].
    destruct (assoc "Temperature (K)" (df_columns frame)) as [cb|] eqn:Hcb; [|discriminate].
    apply assoc_In in Hca, Hcb.
    destruct (df_columns frame) as [|[k c] [|kc cols]]; try discriminate.
    destruct Hca as [Hca|[]], Hcb as [Hcb|[]]. congruence. }
  unfold magnetic_df. erewrite bind_ok.
  2:{ rewrite get_data_run, Hheader, Htab. cbv zeta.
      destruct (Nat.eqb_spec (snd (shape frame)) 1); [contradiction|reflexivity]. }
  apply (simplify_run _ _ frame stamp ts); try assumption.
  apply lookup_insert_eq.
Qed.

End Reader.

End PipelineFacts.

(** ** The outlier detector and the turnaround finder, further *)

Module DetectorFacts.
Import Pandas u03_oop Spec.
Import NumFacts SeriesFacts OutlierFacts ArgminFacts TurnaroundFacts NormaliserFacts SimplifyFacts.

Lemma le_ltb_trans (t1 t2 a : num) :
  isnan t1 = false -> ltb t2 t1 = false -> ltb t2 a = true -> ltb t1 a = true.
Proof.
  destruct t1 as [| | |p], t2 as [| | |q], a as [| | |r]; try (simpl; congruence).
  rewrite ltb_Finite_false, !ltb_Finite. lra.
Qed.


Section WithSqrt.
Context `{Sqrt}.




(** A higher threshold reports no more: the labels found at the higher
    threshold are among those found at the lower one, in the same order. *)
Theorem find_outlier_indices_threshold (x : Series num) (low high : num) :
  isnan low = false ->
  ltb high low = false ->
  find_outlier_indices x high `sublist_of` find_outlier_indices x low.
Proof.
  intros Hlow Hle. rewrite !find_outlier_indices_filter.
  assert (Himp : forall lv, flagged x high lv = true -> flagged x low lv = true).
  { intros lv. unfold flagged, gtb. apply le_ltb_trans; assumption. }
  revert Himp. generalize (flagged x high) (flagged x low). intros P Q Himp.
  induction x as [|lv x IH]; simpl; [constructor|].
  destruct (P lv) eqn:HP.
  - rewrite (Himp lv HP). simpl. constructor. exact IH.
  - destruct (Q lv); simpl; [constructor|]; exact IH.
Qed.

(** With fewer than two values present the deviation is undefined, and
    nothing is an outlier: so for the empty series, a single value, or a
    series that is missing throughout. *)
Theorem find_outlier_indices_too_few (x : Series num) (threshold : num) :
  (length (dropna x) <= 1)%nat ->
  find_outlier_indices x threshold = [].
Proof.
  intros Hfew. rewrite find_outlier_indices_filter.
  assert (Hstd : sample_deviation (present x) = NaN).
  { change (present x) with (dropna x).
    destruct (dropna x) as [|a [|b vs]]; [reflexivity|reflexivity|simpl in Hfew; lia]. }
  assert (Hnone : forall lv, flagged x threshold lv = false).
  { intros [l v]. unfold flagged, z_score. rewrite Hstd. cbn [snd].
    replace (div (sub v (average (present x))) NaN) with NaN
      by (destruct (sub v (average (present x))); reflexivity).
    apply gtb_NaN. }
  revert Hnone. generalize (flagged x threshold). clear Hfew Hstd. intros P HP.
  induction x as [|lv x IH]; [reflexivity|]. simpl. rewrite HP. apply IH.
Qed.

(** *** The turnaround finder *)

Lemma index_getitem_incl (df : DataFrame) (name : string) (s : Series cell) :
  getitem df name = Ok s -> incl (index s) (df_index df).
Proof.
  unfold getitem. destruct (assoc name (df_columns df)) as [c|]; [|discriminate].
  intros [= <-] l Hl. unfold index in Hl. apply List.in_map_iff in Hl as ([l' v] & <- & Hin).
  apply in_combine_l in Hin. exact Hin.
Qed.

Lemma idxmin_In (s : Series num) (l : Z) : idxmin s = Ok l -> In l (index s).
Proof.
  unfold idxmin. destruct (values s) as [|v vs]; [discriminate|].
  destruct (forallb isnan (v :: vs)); [discriminate|].
  destruct (nth_error (index s) _) as [l'|] eqn:Hl; [|discriminate].
  intros [= <-]. eapply nth_error_In, Hl.
Qed.

Lemma index_iloc_incl {A} (a b : nat) (s : Series A) : incl (index (iloc a b s)) (index s).
Proof.
  rewrite index_iloc. intros l Hl.
  apply In_nth_error in Hl as [k Hk].
  rewrite List.nth_error_firstn in Hk.
  destruct (k <? length s - b - a)%nat; [|discriminate].
  rewrite List.nth_error_skipn in Hk. eapply nth_error_In, Hk.
Qed.

(** Whatever the finder returns is a row label of the table. *)
Theorem find_temp_turnaround_point_label (df : DataFrame) (l : Z) :
  find_temp_turnaround_point df = Ok l -> In l (df_index df).
Proof.
  unfold find_temp_turnaround_point.
  destruct (getitem df "Temperature (K)") as [col|] eqn:Hcol; [|discriminate].
  cbn [mbind result_bind].
  destruct (column_diff col) as [differences|] eqn:Hdiff; [|discriminate].
  cbn [mbind result_bind].
  pose proof (index_column_diff _ _ Hdiff) as Hidx.
  pose proof (index_getitem_incl _ _ _ Hcol) as Hincl.
  destruct (find_outlier_indices differences (of_Z 3)) as [|i rest] eqn:Hout.
  - cbn [length Nat.eqb].
    destruct (column_diff (iloc 20 20 col)) as [trimmed|] eqn:Htrim; [|discriminate].
    cbn [mbind result_bind].
    destruct (idxmin _) as [z|] eqn:Hz; [|discriminate].
    cbn [mbind result_bind]. intros [= <-]. apply Hincl.
    apply idxmin_In in Hz. unfold abs in Hz.
    rewrite index_map_values, (index_column_diff _ _ Htrim) in Hz.
    eapply index_iloc_incl, Hz.
  - cbn [length Nat.eqb]. intros [= <-]. apply Hincl. rewrite <- Hidx.
    assert (Hin : In i (find_outlier_indices differences (of_Z 3)))
      by (rewrite Hout; left; reflexivity).
    rewrite find_outlier_indices_filter in Hin.
    apply List.in_map_iff in Hin as (lv & <- & Hlv). apply List.filter_In in Hlv as [Hlv _].
    unfold index. apply List.in_map, Hlv.
Qed.



(** A table without the column "Temperature (K)" raises KeyError, one
    with text in it TypeError. *)
Theorem find_temp_turnaround_point_bad_column (df : DataFrame) :
  (~ In "Temperature (K)"%string (column_names df) ->
   find_temp_turnaround_point df = Raise KeyError) /\
  (forall col, getitem df "Temperature (K)" = Ok col ->
     (exists l t, In (l, Str t) col) ->
     find_temp_turnaround_point df = Raise TypeError).
Proof.
  split.
  - intros Hmiss. apply getitem_missing in Hmiss.
    unfold find_temp_turnaround_point. rewrite Hmiss. reflexivity.
  - intros col Hcol Htext. unfold find_temp_turnaround_point.
    rewrite Hcol. cbn [mbind result_bind]. rewrite (column_diff_text col Htext). reflexivity.
Qed.

End WithSqrt.

End DetectorFacts.

(** ** DBSCAN: what the labels mean *)

Module DbscanFacts.
Import Pandas Sklearn u03_oop Spec.
Import NumFacts SeriesFacts OutlierFacts TurnaroundFacts ClusterFacts.

Lemma get_label_insert (labels : list Z) (i v : nat) (z : Z) :
  (i < length labels)%nat ->
  get_label (<[i := z]> labels) v = if decide (v = i) then z else get_label labels v.
Proof.
  unfold get_label. revert i v. induction labels as [|l labels IH]; intros i v Hi; simpl in Hi; [lia|].
  destruct i as [|i], v as [|v]; simpl; try reflexivity.
  rewrite IH by lia. destruct (decide (v = i)), (decide (S v = S i)); try reflexivity; lia.
Qed.

Lemma get_label_bound (labels : list Z) (v : nat) :
  get_label labels v <> -1 -> (v < length labels)%nat.
Proof.
  unfold get_label. intros Hv. destruct (Nat.lt_ge_cases v (length labels)); [assumption|].
  rewrite nth_overflow in Hv by assumption. contradiction.
Qed.

Lemma unlabelled_count_insert (labels : list Z) (i : nat) (z : Z) :
  (i < length labels)%nat -> get_label labels i = -1 -> z <> -1 ->
  unlabelled_count labels = S (unlabelled_count (<[i := z]> labels)).
Proof.
  unfold unlabelled_count, get_label. revert i.
  induction labels as [|l labels IH]; intros i Hi Hl Hz; simpl in Hi; [lia|].
  destruct i as [|i]; simpl in *.
  - subst l. simpl. destruct (Z.eqb_spec z (-1)); [contradiction|reflexivity].
  - destruct (l =? -1); simpl; rewrite (IH i) by (assumption || lia); reflexivity.
Qed.

Lemma unlabelled_count_le (labels : list Z) : (unlabelled_count labels <= length labels)%nat.
Proof. apply List.filter_length_le. Qed.

Section Walk.
Variable is_core : list bool.
Variable nbs : list (list nat).
Variable n : nat.
Hypothesis nbs_bound : forall c v, In v (nth c nbs []) -> (v < n)%nat.
Hypothesis nbs_length : forall c, (length (nth c nbs []) <= n)%nat.

#[local] Abbreviation core := (core is_core).
#[local] Abbreviation closed := (closed is_core nbs).
#[local] Abbreviation pending := (pending is_core nbs).
#[local] Abbreviation reached := (reached is_core nbs).
#[local] Abbreviation grounded := (grounded is_core nbs).
#[local] Abbreviation linked := (linked is_core nbs).

(** One walk: it ends with every neighbour of a labelled core sample
    labelled, labels only samples it reached, and gives the new label to
    unlabelled samples only. *)
Lemma expand_cluster_walk (label_num : Z) (Hnum : label_num <> -1) (fuel : nat) :
  forall (i : nat) (stack : list nat) (labels : list Z),
    length labels = n ->
    (length stack + n * unlabelled_count labels < fuel)%nat ->
    (i < n)%nat ->
    Forall (fun v => (v < n)%nat) stack ->
    pending labels stack i ->
    grounded labels -> reached i -> Forall reached stack ->
    let L := expand_cluster fuel is_core nbs label_num i stack labels in
    length L = n /\ closed L /\ grounded L /\ get_label L i <> -1 /\
    (forall p, get_label L p = get_label labels p \/
               (get_label labels p = -1 /\ get_label L p = label_num)).
Proof.
  induction fuel as [|fuel IH]; intros i stack labels Hlen Hfuel Hi Hstack Hpend Hground Hri Hrs;
    [lia|].
  cbn [expand_cluster].
  set (unl := get_label labels i =? -1).
  set (labels' := if unl then <[i := label_num]> labels else labels).
  set (stack' := if unl && nth i is_core false
                 then rev (List.filter (fun v => get_label labels' v =? -1) (nth i nbs [])) ++ stack
                 else stack).
  assert (Hlen' : length labels' = n).
  { unfold labels'. destruct unl; [rewrite length_insert|]; exact Hlen. }
  assert (Hnew : forall p, get_label labels' p = get_label labels p \/
                           (get_label labels p = -1 /\ get_label labels' p = label_num)).
  { intros p. unfold labels', unl. destruct (Z.eqb_spec (get_label labels i) (-1)) as [E|E]; [|auto].
    rewrite get_label_insert by lia. destruct (decide (p = i)) as [->|]; auto. }
  assert (Hkeep : forall p, get_label labels p <> -1 -> get_label labels' p <> -1).
  { intros p Hp. destruct (Hnew p) as [->|[E _]]; [exact Hp|contradiction]. }
  assert (Hi' : get_label labels' i <> -1).
  { unfold labels', unl. destruct (Z.eqb_spec (get_label labels i) (-1)) as [E|E]; [|exact E].
    rewrite get_label_insert by lia. destruct (decide (i = i)); [exact Hnum|contradiction]. }
  assert (Hground' : grounded labels').
  { intros v Hv. destruct (Hnew v) as [E|[_ E]].
    - apply Hground. rewrite <- E. exact Hv.
    - unfold labels', unl in Hv. destruct (Z.eqb_spec (get_label labels i) (-1)) as [Ei|Ei].
      + rewrite get_label_insert in Hv by lia. destruct (decide (v = i)) as [->|]; [exact Hri|].
        apply Hground, Hv.
      + apply Hground, Hv. }
  assert (Hstack' : Forall (fun v => (v < n)%nat) stack' /\ Forall reached stack').
  { unfold stack'. destruct (unl && nth i is_core false) eqn:Hpush; [|split; assumption].
    apply andb_true_iff in Hpush as [_ Hcore].
    split; apply List.Forall_app; split; try assumption;
      apply List.Forall_forall; intros v Hv; apply List.in_rev, List.filter_In in Hv as [Hv _].
    - eapply nbs_bound, Hv.
    - right. exists i. split; [exact Hcore|exact Hv]. }
  destruct Hstack' as [Hbound' Hrs'].
  assert (Hpend' : forall c v, core c -> get_label labels' c <> -1 ->
            In v (nth c nbs []) -> get_label labels' v <> -1 \/ In v stack').
  { intros c v Hc Hlc Hv.
    destruct (Z.eqb_spec (get_label labels' v) (-1)) as [Ev|Ev]; [right|left; exact Ev].
    destruct (Z.eqb_spec (get_label labels c) (-1)) as [Ec|Ec].
    - (* [c] has just been labelled: it is [i], and a core sample *)
      assert (c = i /\ unl = true) as [-> Hunl].
      { unfold labels', unl in Hlc |- *.
        destruct (Z.eqb_spec (get_label labels i) (-1)) as [Ei|Ei]; [|contradiction].
        rewrite get_label_insert in Hlc by lia. destruct (decide (c = i)); [auto|contradiction]. }
      unfold stack'. rewrite Hunl. unfold Spec.core in Hc. rewrite Hc. cbn [andb].
      apply List.in_or_app. left. apply List.in_rev. rewrite List.rev_involutive.
      apply List.filter_In. split; [exact Hv|]. apply Z.eqb_eq, Ev.
    - destruct (Hpend c v Hc Ec Hv) as [Hl|[Hs| ->]].
      + apply Hkeep in Hl. contradiction.
      + unfold stack'. destruct (unl && _); [apply List.in_or_app; right|]; exact Hs.
      + contradiction. }
  assert (Hmeasure : (length stack' + n * unlabelled_count labels'
                      <= length stack + n * unlabelled_count labels)%nat).
  { unfold stack', labels', unl. destruct (Z.eqb_spec (get_label labels i) (-1)) as [Ei|Ei];
      cbn [andb]; [|lia].
    rewrite (unlabelled_count_insert labels i label_num) by (assumption || lia).
    rewrite Nat.mul_succ_r.
    destruct (nth i is_core false); [|lia].
    rewrite length_app, length_rev.
    pose proof (List.filter_length_le
                  (fun v => get_label (<[i:=label_num]> labels) v =? -1) (nth i nbs [])).
    pose proof (nbs_length i). lia. }
  clearbody stack' labels'. clear unl.
  destruct stack' as [|j rest].
  - split; [exact Hlen'|]. split.
    { intros c v Hc Hlc Hv. destruct (Hpend' c v Hc Hlc Hv) as [Hl|[]]. exact Hl. }
    split; [exact Hground'|]. split; [exact Hi'|exact Hnew].
  - apply Forall_cons_iff in Hbound' as [Hj Hbound'].
    apply Forall_cons_iff in Hrs' as [Hrj Hrs'].
    destruct (IH j rest labels' Hlen') as (Hl & Hcl & Hgr & _ & Hnew'); try assumption.
    + simpl in Hmeasure. lia.
    + intros c v Hc Hlc Hv. destruct (Hpend' c v Hc Hlc Hv) as [Hlv|[->|Hin]]; auto.
    + split; [exact Hl|]. split; [exact Hcl|]. split; [exact Hgr|]. split.
      * destruct (Hnew' i) as [->|[E _]]; [exact Hi'|contradiction].
      * intros p. destruct (Hnew' p) as [->|[E1 E2]]; [apply Hnew|].
        destruct (Hnew p) as [E|[E _]]; right; (split; [congruence|exact E2]).
Qed.

Hypothesis nbs_sym : forall c v, (c < n)%nat -> In v (nth c nbs []) -> In c (nth v nbs []).

(** The loop over the samples keeps all of it, never changes a label once
    given, and leaves no core sample it has passed without a label. *)
Lemma dbscan_inner_walk (todo : list nat) :
  forall (label_num : Z) (labels : list Z),
    0 <= label_num ->
    length labels = n ->
    Forall (fun i => (i < n)%nat) todo ->
    closed labels -> grounded labels -> linked labels ->
    let L := dbscan_inner is_core nbs todo label_num labels in
    length L = n /\ closed L /\ grounded L /\ linked L /\
    (forall p, get_label labels p <> -1 -> get_label L p = get_label labels p) /\
    (forall i, In i todo -> core i -> get_label L i <> -1).
Proof.
  induction todo as [|i todo IH]; intros label_num labels Hnum Hlen Htodo Hcl Hgr Hli.
  - simpl. repeat split; auto; intros i [].
  - apply Forall_cons_iff in Htodo as [Hi Htodo]. cbn [dbscan_inner].
    destruct (Z.eqb_spec (get_label labels i) (-1)) as [Eunl|Elab]; cbn [negb orb].
    2:{ destruct (IH label_num labels Hnum Hlen Htodo Hcl Hgr Hli)
          as (Hl & Hc & Hg & Hk & Hkeep & Hdone).
        repeat split; try assumption.
        intros j [<-|Hj] Hcj; [rewrite Hkeep by exact Elab; exact Elab|apply Hdone; assumption]. }
    destruct (nth i is_core false) eqn:Hcore; cbn [negb].
    2:{ destruct (IH label_num labels Hnum Hlen Htodo Hcl Hgr Hli)
          as (Hl & Hc & Hg & Hk & Hkeep & Hdone).
        repeat split; try assumption.
        intros j [<-|Hj] Hcj; [unfold Spec.core in Hcj; congruence|apply Hdone; assumption]. }
    set (L1 := expand_cluster (length labels * length labels + length labels + 1)
                 is_core nbs label_num i [] labels).
    destruct (expand_cluster_walk label_num ltac:(lia)
                (length labels * length labels + length labels + 1) i [] labels)
      as (Hl1 & Hc1 & Hg1 & Hi1 & Hnew); try assumption.
    + pose proof (unlabelled_count_le labels). rewrite Hlen in *. simpl. nia.
    + constructor.
    + intros c v Hc Hlc Hv. left. eapply Hcl; eassumption.
    + left. exact Hcore.
    + constructor.
    + fold L1 in Hl1, Hc1, Hg1, Hi1, Hnew.
      assert (Hkeep1 : forall p, get_label labels p <> -1 -> get_label L1 p = get_label labels p).
      { intros p Hp. destruct (Hnew p) as [E|[E _]]; [exact E|contradiction]. }
      assert (Hli1 : linked L1).
      { intros c v Hc Hv Hin Hlc.
        pose proof (Hc1 c v Hc Hlc Hin) as Hlv.
        destruct (Z.eqb_spec (get_label labels c) (-1)) as [Ec|Ec].
        - destruct (Hnew c) as [E|[_ E]]; [congruence|]. rewrite E.
          destruct (Hnew v) as [Ev|[_ Ev]]; [|exact Ev].
          (* [v] was labelled before: then so was its neighbour [c] *)
          exfalso. assert (Hv0 : get_label labels v <> -1) by congruence.
          assert (Hcn : (c < n)%nat) by (rewrite <- Hl1; apply get_label_bound, Hlc).
          apply (Hcl v c Hv Hv0 (nbs_sym c v Hcn Hin)). exact Ec.
        - rewrite (Hkeep1 c Ec). pose proof (Hcl c v Hc Ec Hin) as Hv0.
          rewrite (Hkeep1 v Hv0). apply Hli; assumption. }
      destruct (IH (label_num + 1) L1 ltac:(lia) Hl1 Htodo Hc1 Hg1 Hli1)
        as (Hl & Hc & Hg & Hk & Hkeep & Hdone).
      repeat split; try assumption.
      * intros p Hp. rewrite Hkeep; [apply Hkeep1, Hp|]. rewrite Hkeep1; exact Hp.
      * intros j [<-|Hj] Hcj; [rewrite Hkeep; exact Hi1|apply Hdone; assumption].
Qed.

(** The first sample of a run, when it is an unlabelled core sample, gets
    the label the run starts with. *)
Lemma dbscan_inner_first (i : nat) (todo : list nat) (label_num : Z) (labels : list Z) :
  0 <= label_num ->
  length labels = n ->
  Forall (fun i => (i < n)%nat) (i :: todo) ->
  closed labels -> grounded labels -> linked labels ->
  core i -> get_label labels i = -1 ->
  get_label (dbscan_inner is_core nbs (i :: todo) label_num labels) i = label_num.
Proof.
  intros Hnum Hlen Htodo Hcl Hgr Hli Hcore Hunl.
  apply Forall_cons_iff in Htodo as [Hi Htodo]. cbn [dbscan_inner].
  rewrite Hunl. unfold Spec.core in Hcore. rewrite Hcore. cbn [Z.eqb negb orb].
  destruct (expand_cluster_walk label_num ltac:(lia)
              (length labels * length labels + length labels + 1) i [] labels)
    as (Hl1 & Hc1 & Hg1 & Hi1 & Hnew); try assumption.
  - pose proof (unlabelled_count_le labels). rewrite Hlen in *. simpl. nia.
  - constructor.
  - intros c v Hc Hlc Hv. left. eapply Hcl; eassumption.
  - left. exact Hcore.
  - constructor.
  - set (L1 := expand_cluster _ is_core nbs label_num i [] labels) in *.
    assert (Hli1 : linked L1).
    { intros c v Hc Hv Hin Hlc.
      assert (Hkeep1 : forall p, get_label labels p <> -1 -> get_label L1 p = get_label labels p).
      { intros p Hp. destruct (Hnew p) as [E|[E _]]; [exact E|contradiction]. }
      pose proof (Hc1 c v Hc Hlc Hin) as Hlv.
      destruct (Z.eqb_spec (get_label labels c) (-1)) as [Ec|Ec].
      - destruct (Hnew c) as [E|[_ E]]; [congruence|]. rewrite E.
        destruct (Hnew v) as [Ev|[_ Ev]]; [|exact Ev].
        exfalso. assert (Hv0 : get_label labels v <> -1) by congruence.
        assert (Hcn : (c < n)%nat) by (rewrite <- Hl1; apply get_label_bound, Hlc).
        apply (Hcl v c Hv Hv0 (nbs_sym c v Hcn Hin)). exact Ec.
      - rewrite (Hkeep1 c Ec). pose proof (Hcl c v Hc Ec Hin) as Hv0.
        rewrite (Hkeep1 v Hv0). apply Hli; assumption. }
    destruct (dbscan_inner_walk todo (label_num + 1) L1 ltac:(lia) Hl1 Htodo Hc1 Hg1 Hli1)
      as (_ & _ & _ & _ & Hkeep & _).
    rewrite Hkeep by exact Hi1.
    destruct (Hnew i) as [E|[_ E]]; [congruence|exact E].
Qed.

End Walk.

(** *** Neighbourhoods *)

Lemma in_combine_seq {A} (X : list A) (a v : nat) (y : A) :
  In (v, y) (combine (seq a (length X)) X) <->
  (a <= v)%nat /\ nth_error X (v - a) = Some y.
Proof.
  revert a. induction X as [|x X IH]; intros a; simpl.
  - split; [tauto|]. intros [_ Hn]. destruct (v - a)%nat; discriminate.
  - rewrite IH. split.
    + intros [[= <- <-]|[Hle Hn]].
      * split; [lia|]. rewrite Nat.sub_diag. reflexivity.
      * split; [lia|]. replace (v - a)%nat with (S (v - S a)) by lia. exact Hn.
    + intros [Hle Hn]. destruct (Nat.eq_dec a v) as [->|Hne].
      * left. rewrite Nat.sub_diag in Hn. simpl in Hn. congruence.
      * right. split; [lia|]. replace (v - a)%nat with (S (v - S a)) in Hn by lia. exact Hn.
Qed.

Lemma In_neighborhood (eps : num) (X : list num) (x : num) (v : nat) :
  In v (neighborhood eps X x) <->
  (v < length X)%nat /\ near eps x (nth v X NaN) = true.
Proof.
  unfold neighborhood. rewrite List.in_map_iff. split.
  - intros ([v' y] & <- & Hin). apply List.filter_In in Hin as [Hin Hnear].
    apply in_combine_seq in Hin as [_ Hn]. simpl in *. rewrite Nat.sub_0_r in Hn.
    split; [apply List.nth_error_Some; congruence|].
    rewrite (nth_error_nth _ _ _ Hn). exact Hnear.
  - intros [Hv Hnear]. exists (v, nth v X NaN). split; [reflexivity|].
    apply List.filter_In. split; [|exact Hnear].
    apply in_combine_seq. split; [lia|]. rewrite Nat.sub_0_r. apply nth_error_nth', Hv.
Qed.

Lemma length_filter_combine {A B} (P : B -> bool) (l : list A) (k : list B) :
  length l = length k ->
  length (List.filter (fun p => P (snd p)) (combine l k)) = length (List.filter P k).
Proof.
  revert k. induction l as [|a l IH]; intros [|b k] Hlen; simpl in *; try lia; try reflexivity.
  destruct (P b); simpl; rewrite IH by lia; reflexivity.
Qed.

Lemma length_neighborhood_near (eps : num) (X : list num) (x : num) :
  length (neighborhood eps X x) = length (List.filter (near eps x) X).
Proof.
  unfold neighborhood. rewrite length_map.
  apply (length_filter_combine (near eps x)). apply length_seq.
Qed.

Lemma nth_neighborhoods (eps : num) (X : list num) (c : nat) :
  nth c (List.map (neighborhood eps X) X) []
  = if (c <? length X)%nat then neighborhood eps X (nth c X NaN) else [].
Proof.
  destruct (Nat.ltb_spec c (length X)) as [Hc|Hc].
  - rewrite (nth_indep _ [] (neighborhood eps X NaN)) by (rewrite length_map; exact Hc).
    apply List.map_nth.
  - apply nth_overflow. rewrite length_map. exact Hc.
Qed.

Lemma nth_is_core (eps : num) (min_samples : Z) (X : list num) (c : nat) :
  nth c (List.map (fun nb => min_samples <=? Z.of_nat (length nb))
           (List.map (neighborhood eps X) X)) false
  = (c <? length X)%nat && core_sample eps min_samples X c.
Proof.
  destruct (Nat.ltb_spec c (length X)) as [Hc|Hc]; cbn [andb].
  - rewrite List.map_map.
    rewrite (nth_indep _ false (min_samples <=? Z.of_nat (length (neighborhood eps X NaN))))
      by (rewrite length_map; exact Hc).
    rewrite (List.map_nth (fun x => min_samples <=? Z.of_nat (length (neighborhood eps X x)))).
    unfold core_sample. rewrite length_neighborhood_near. reflexivity.
  - apply nth_overflow. rewrite !length_map. exact Hc.
Qed.

Lemma ltb_Qeq (e : num) (p q : Q) : (p == q)%Q -> ltb e (Finite p) = ltb e (Finite q).
Proof.
  intros Hpq. destruct e as [| | |a]; try reflexivity. simpl. f_equal.
  destruct (Qle_bool p a) eqn:E1, (Qle_bool q a) eqn:E2; try reflexivity.
  - apply Qle_bool_iff in E1. rewrite Hpq in E1. apply Qle_bool_iff in E1. congruence.
  - apply Qle_bool_iff in E2. rewrite <- Hpq in E2. apply Qle_bool_iff in E2. congruence.
Qed.

Lemma near_sym (eps a b : num) : near eps a b = near eps b a.
Proof. unfold near. rewrite (sub_swap a b), abs_neg. reflexivity. Qed.

Lemma near_refl (eps : num) (a : num) :
  gtb eps (Finite 0) = true -> isfinite a = true -> near eps a a = true.
Proof.
  intros Heps Ha. apply isfinite_Finite in Ha as [p ->].
  unfold near. apply negb_true_iff.
  rewrite (sub_Finite_same p p) by reflexivity.
  apply ltb_asym. exact Heps.
Qed.

(** *** The labels of [dbscan] *)

Lemma get_label_blank {A} (X : list A) (p : nat) : get_label (List.map (fun _ => -1) X) p = -1.
Proof.
  unfold get_label. destruct (nth_in_or_default p (List.map (fun _ : A => -1) X) (-1)) as [Hin|E];
    [|exact E].
  apply List.in_map_iff in Hin as (? & E & _). congruence.
Qed.

Lemma dbscan_walk (eps : num) (min_samples : Z) (X : list num) :
  let nbs := List.map (neighborhood eps X) X in
  let is_core := List.map (fun nb => min_samples <=? Z.of_nat (length nb)) nbs in
  let L := dbscan eps min_samples X in
  length L = length X /\
  closed is_core nbs L /\ grounded is_core nbs L /\ linked is_core nbs L /\
  (forall i, (i < length X)%nat -> core is_core i -> get_label L i <> -1) /\
  (forall todo, seq 0 (length X) = 0%nat :: todo -> core is_core 0 -> get_label L 0%nat = 0).
Proof.
  intros nbs is_core L.
  assert (Hbound : forall c v, In v (nth c nbs []) -> (v < length X)%nat).
  { intros c v. unfold nbs. rewrite nth_neighborhoods.
    destruct (c <? length X)%nat; [|intros []]. intros Hv. apply In_neighborhood in Hv. tauto. }
  assert (Hlength : forall c, (length (nth c nbs []) <= length X)%nat).
  { intros c. unfold nbs. rewrite nth_neighborhoods.
    destruct (c <? length X)%nat; [apply length_neighborhood|simpl; lia]. }
  assert (Hsym : forall c v, (c < length X)%nat -> In v (nth c nbs []) -> In c (nth v nbs [])).
  { intros c v Hc. unfold nbs. rewrite !nth_neighborhoods.
    destruct (Nat.ltb_spec c (length X)); [|lia]. intros Hv.
    apply In_neighborhood in Hv as [Hv Hnear].
    destruct (Nat.ltb_spec v (length X)); [|lia].
    apply In_neighborhood. split; [exact Hc|]. rewrite near_sym. exact Hnear. }
  assert (Hblank : forall p, get_label (List.map (fun _ => -1) X) p = -1)
    by apply get_label_blank.
  assert (Hcl0 : closed is_core nbs (List.map (fun _ => -1) X)).
  { intros c v _ Hc. rewrite Hblank in Hc. contradiction. }
  assert (Hgr0 : grounded is_core nbs (List.map (fun _ => -1) X)).
  { intros v Hv. rewrite Hblank in Hv. contradiction. }
  assert (Hli0 : linked is_core nbs (List.map (fun _ => -1) X)).
  { intros c v _ _ _ Hc. rewrite Hblank in Hc. contradiction. }
  assert (Htodo : Forall (fun i => (i < length X)%nat) (seq 0 (length X))).
  { apply List.Forall_forall. intros i Hi. apply in_seq in Hi. lia. }
  destruct (dbscan_inner_walk is_core nbs (length X) Hbound Hlength Hsym
              (seq 0 (length X)) 0 (List.map (fun _ => -1) X)
              ltac:(lia) ltac:(apply length_map) Htodo Hcl0 Hgr0 Hli0)
    as (Hl & Hc & Hg & Hk & _ & Hdone).
  split; [exact Hl|]. split; [exact Hc|]. split; [exact Hg|]. split; [exact Hk|]. split.
  - intros i Hi Hcore. apply Hdone; [|exact Hcore]. apply in_seq. lia.
  - intros todo Hseq Hcore. unfold L, dbscan. fold nbs. fold is_core. rewrite Hseq.
    apply (dbscan_inner_first is_core nbs (length X) Hbound Hlength Hsym); try assumption.
    + lia.
    + apply length_map.
    + rewrite <- Hseq. exact Htodo.
    + apply Hblank.
Qed.

End DbscanFacts.

(** ** Clusters of a series *)

Module LabelFacts.
Import Pandas Sklearn u03_oop Spec.
Import NumFacts SeriesFacts OutlierFacts TurnaroundFacts ClusterFacts DbscanFacts.

Section WithSqrt.
Context `{Sqrt}.

(** The label array has the size of the series, and each label is -1 or a
    cluster number from 0 on. *)
Theorem label_clusters_shape
    (x : Series num) (eps : num) (min_samples : Z) (labels : list Z) :
  label_clusters x eps min_samples = Ok labels ->
  length labels = length x /\ Forall (fun l => -1 <= l) labels.
Proof. apply label_clusters_labels. Qed.

(** The clustering succeeds exactly on a non-empty series of finite
    samples that stay finite under the scaler, with [eps] above zero and
    finite and [min_samples] at least 1; otherwise it raises ValueError. *)
Theorem label_clusters_raises (x : Series num) (eps : num) (min_samples : Z) :
  (is_ok (label_clusters x eps min_samples) = true <->
   x <> [] /\ Forall (fun lv => isfinite (snd lv) = true) x /\
   gtb eps (Finite 0) = true /\ isfinite eps = true /\ 1 <= min_samples /\
   Forall (fun v => isfinite v = true) (standardize (values x))) /\
  (forall e, label_clusters x eps min_samples = Raise e -> e = ValueError).
Proof.
  split.
  - split.
    + destruct (label_clusters x eps min_samples) as [labels|] eqn:Hl; [|discriminate].
      intros _.
      destruct (label_clusters_inv _ _ _ _ Hl) as (_ & Hstd & Hfin & Heps & Hfeps & Hms & Hne).
      split; [exact Hne|]. split; [|repeat split; assumption].
      unfold values in Hfin. rewrite List.Forall_map in Hfin. exact Hfin.
    + intros (Hne & Hfin & Heps & Hfeps & Hms & Hstd).
      rewrite (label_clusters_run x eps min_samples Hne Hfin Heps Hfeps Hms Hstd).
      reflexivity.
  - intros e. unfold label_clusters, StandardScaler_fit_transform, DBSCAN_fit_predict.
    destruct (values x) as [|v vs]; [intros [= <-]; reflexivity|].
    destruct (forallb _ (v :: vs)); [|intros [= <-]; reflexivity]. cbn [mbind result_bind].
    destruct (negb _ || _); [intros [= <-]; reflexivity|].
    destruct (standardize (v :: vs)); [intros [= <-]; reflexivity|].
    destruct (forallb isfinite _); [discriminate|intros [= <-]; reflexivity].
Qed.

(** The walk of DBSCAN read on the standardized samples of [x]. *)
Lemma label_clusters_walk (x : Series num) (eps : num) (min_samples : Z) (labels : list Z) :
  label_clusters x eps min_samples = Ok labels ->
  let X := standardize (values x) in
  (* a core sample is labelled *)
  (forall c, (c < length x)%nat -> core_sample eps min_samples X c = true ->
     nth c labels (-1) <> -1) /\
  (* so is every sample near one *)
  (forall c v, (c < length x)%nat -> (v < length x)%nat ->
     core_sample eps min_samples X c = true ->
     near eps (nth c X NaN) (nth v X NaN) = true ->
     nth v labels (-1) <> -1) /\
  (* and no other *)
  (forall v, nth v labels (-1) <> -1 ->
     exists c, (c < length x)%nat /\ core_sample eps min_samples X c = true /\
               near eps (nth c X NaN) (nth v X NaN) = true) /\
  (* near core samples share their label *)
  (forall c v, (c < length x)%nat -> (v < length x)%nat ->
     core_sample eps min_samples X c = true -> core_sample eps min_samples X v = true ->
     near eps (nth c X NaN) (nth v X NaN) = true ->
     nth v labels (-1) = nth c labels (-1)) /\
  (* the first sample, if core, opens cluster 0 *)
  (core_sample eps min_samples X 0 = true -> nth 0 labels (-1) = 0).
Proof.
  intros Hl X.
  destruct (label_clusters_inv _ _ _ _ Hl) as (-> & Hfin & _ & Heps & _ & Hms & Hne).
  fold X in Hfin |- *.
  assert (HlenX : length X = length x).
  { unfold X. rewrite length_standardize. apply length_values. }
  destruct (dbscan_walk eps min_samples X) as (Hlen & Hcl & Hgr & Hli & Hdone & Hfirst).
  set (nbs := List.map (neighborhood eps X) X) in *.
  set (is_core := List.map (fun nb => min_samples <=? Z.of_nat (length nb)) nbs) in *.
  assert (Hcore : forall c, core is_core c <->
            (c < length x)%nat /\ core_sample eps min_samples X c = true).
  { intros c. unfold core, is_core, nbs. rewrite nth_is_core, andb_true_iff, HlenX.
    rewrite Nat.ltb_lt. reflexivity. }
  assert (Hnb : forall c v, (c < length x)%nat ->
            (In v (nth c nbs []) <->
             (v < length x)%nat /\ near eps (nth c X NaN) (nth v X NaN) = true)).
  { intros c v Hc. unfold nbs. rewrite nth_neighborhoods, HlenX.
    destruct (Nat.ltb_spec c (length x)); [|lia]. rewrite In_neighborhood, HlenX. reflexivity. }
  change (nth ?p (dbscan eps min_samples X) (-1)) with (get_label (dbscan eps min_samples X) p).
  split; [|split; [|split; [|split]]].
  - intros c Hc Hcs. apply Hdone; [lia|]. apply Hcore. auto.
  - intros c v Hc Hv Hcs Hnear.
    apply (Hcl c v); [apply Hcore; auto| |apply Hnb; auto].
    apply Hdone; [lia|]. apply Hcore. auto.
  - intros v Hv. pose proof (get_label_bound _ _ Hv) as Hvn. rewrite Hlen, HlenX in Hvn.
    destruct (Hgr v Hv) as [Hcv|(c & Hc & Hin)].
    + apply Hcore in Hcv as [_ Hcv]. exists v. split; [exact Hvn|]. split; [exact Hcv|].
      apply near_refl; [exact Heps|].
      rewrite List.Forall_forall in Hfin. apply Hfin, nth_In. lia.
    + apply Hcore in Hc as [Hc Hcs]. exists c. split; [exact Hc|]. split; [exact Hcs|].
      apply (Hnb c v Hc), Hin.
  - intros c v Hc Hv Hcs Hvs Hnear.
    apply (Hli c v); [apply Hcore; auto|apply Hcore; auto|apply Hnb; auto|].
    apply Hdone; [lia|]. apply Hcore. auto.
  - intros Hcs. destruct x as [|lv x']; [congruence|].
    apply (Hfirst (seq 1 (length X - 1))).
    + destruct X; [simpl in HlenX; discriminate|]. simpl. rewrite Nat.sub_0_r. reflexivity.
    + apply Hcore. split; [simpl; lia|exact Hcs].
Qed.

(** Noise is what is near no core sample: a sample is labelled -1 exactly
    when no core sample, itself included, is within [eps] of it on the
    standardized scale. *)
Theorem label_clusters_noise
    (x : Series num) (eps : num) (min_samples : Z) (labels : list Z) (v : nat) :
  label_clusters x eps min_samples = Ok labels ->
  (v < length x)%nat ->
  let X := standardize (values x) in
  nth v labels (-1) = -1 <->
  forall c, (c < length x)%nat -> core_sample eps min_samples X c = true ->
            near eps (nth c X NaN) (nth v X NaN) = false.
Proof.
  intros Hl Hv X.
  destruct (label_clusters_walk _ _ _ _ Hl) as (_ & Hnear & Hback & _ & _). fold X in Hnear, Hback.
  split.
  - intros Hnoise c Hc Hcs. apply not_true_is_false. intros Hn.
    apply (Hnear c v Hc Hv Hcs Hn). exact Hnoise.
  - intros Hfar. destruct (Z.eq_dec (nth v labels (-1)) (-1)) as [E|E]; [exact E|].
    destruct (Hback v E) as (c & Hc & Hcs & Hn). rewrite (Hfar c Hc Hcs) in Hn. discriminate.
Qed.

(** Two core samples within [eps] of one another are in the same cluster. *)
Theorem label_clusters_same_cluster
    (x : Series num) (eps : num) (min_samples : Z) (labels : list Z) (c v : nat) :
  label_clusters x eps min_samples = Ok labels ->
  (c < length x)%nat -> (v < length x)%nat ->
  let X := standardize (values x) in
  core_sample eps min_samples X c = true ->
  core_sample eps min_samples X v = true ->
  near eps (nth c X NaN) (nth v X NaN) = true ->
  nth v labels (-1) = nth c labels (-1) /\ 0 <= nth c labels (-1).
Proof.
  intros Hl Hc Hv X Hcs Hvs Hn.
  destruct (label_clusters_walk _ _ _ _ Hl) as (Hcore & _ & _ & Hsame & _).
  split; [apply Hsame; assumption|].
  destruct (label_clusters_labels _ _ _ _ Hl) as [Hlen Hall].
  specialize (Hcore c Hc Hcs).
  rewrite List.Forall_forall in Hall. specialize (Hall (nth c labels (-1))).
  assert (-1 <= nth c labels (-1)) by (apply Hall, nth_In; lia). lia.
Qed.

(** With [min_samples = 1] every sample is a core sample, and none is
    labelled noise. *)
Theorem label_clusters_no_noise (x : Series num) (eps : num) (labels : list Z) :
  label_clusters x eps 1 = Ok labels ->
  Forall (fun l => 0 <= l) labels.
Proof.
  intros Hl.
  destruct (label_clusters_walk _ _ _ _ Hl) as (Hcore & _).
  destruct (label_clusters_labels _ _ _ _ Hl) as [Hlen Hall].
  destruct (label_clusters_inv _ _ _ _ Hl) as (_ & Hfin & _ & Heps & _ & _ & _).
  set (X := standardize (values x)) in *.
  assert (HlenX : length X = length x).
  { unfold X. rewrite length_standardize. apply length_values. }
  apply List.Forall_forall. intros l Hin.
  apply In_nth with (d := -1) in Hin as (p & Hp & <-).
  rewrite List.Forall_forall in Hall.
  assert (-1 <= nth p labels (-1)) by (apply Hall, nth_In, Hp).
  assert (nth p labels (-1) <> -1); [|lia].
  apply Hcore; [lia|]. unfold core_sample. apply Z.leb_le.
  assert (Hself : In (nth p X NaN) (List.filter (near eps (nth p X NaN)) X)).
  { apply List.filter_In. split; [apply nth_In; lia|].
    apply near_refl; [exact Heps|]. rewrite List.Forall_forall in Hfin. apply Hfin, nth_In. lia. }
  destruct (List.filter _ X); [contradiction|]. simpl. lia.
Qed.

(** *** A constant series *)






End WithSqrt.

End LabelFacts.

(** ** The further properties on sample data *)

Module MoreExamples.
Import Text Pandas Sklearn u03_oop u02_parsing Spec Samples.
Import HeaderFacts DataFacts SimplifyFacts PipelineFacts DetectorFacts LabelFacts.

(** The lines are checked character by character. *)
Ltac check_lines :=
  cbn; repeat constructor;
  try (let E := fresh in intros E; vm_compute in E; discriminate E);
  try (vm_compute; discriminate).

Lemma get_header_marker_witness :
  get_header titled_file
  = Ok [["title"]; ["x"; "y"]; ["[Data]"]]%string.
Proof.
  refine (proj1 (get_header_marker ["title"; tab_line ["x"; "y"]]%string
                   ["a,b"; "1,2"]%string "[Data]" _ _ _)).
  - check_lines.
  - repeat constructor; try discriminate; vm_compute; discriminate.
  - reflexivity.
Defined.

Lemma get_header_no_marker_witness :
  get_header ["title"; "a,b"]%string = Ok [["title"]; ["a,b"]]%string /\
  get_data read_csv ["title"; "a,b"]%string ∅ = (∅, Raise EmptyDataError).
Proof.
  apply (get_header_no_marker ["title"; "a,b"]%string ∅).
  - check_lines.
  - repeat constructor; try discriminate; vm_compute; discriminate.
Defined.

Lemma get_header_blank_line_witness :
  get_header ["title"; ""; "[Data]"]%string = Raise IndexError /\
  get_data read_csv ["title"; ""; "[Data]"]%string ∅ = (∅, Raise IndexError).
Proof.
  apply (get_header_blank_line read_csv ["title"%string] ["[Data]"%string] ∅).
  - check_lines.
  - repeat constructor; try discriminate; vm_compute; discriminate.
Defined.

Lemma get_data_no_retry_witness :
  get_data read_csv tab_file ∅
  = (<[fresh (dom (∅ : gmap nat DataFrame)) :=
         {| df_index := [0];
            df_columns := [("a"%string, [Int 1]); ("b"%string, [Int 2])] |}]> ∅,
     Ok (fresh (dom (∅ : gmap nat DataFrame)))).
Proof.
  apply (get_data_no_retry read_csv tab_file ∅ [["[Data]"%string]]).
  - vm_compute. reflexivity.
  - vm_compute. reflexivity.
  - simpl. lia.
Defined.

Lemma measurement_type_outcomes_witness :
  (measurement_type 0%nat {[ 0%nat := vsm_table (whole [10; 12]) ]}).1
  = {[ 0%nat := vsm_table (whole [10; 12]) ]}.
Proof.
  refine (proj1 (measurement_type_outcomes 0%nat {[ 0%nat := vsm_table (whole [10; 12]) ]}
                   (vsm_table (whole [10; 12])) _ _)).
  - apply lookup_singleton_eq.
  - repeat constructor.
Defined.

Lemma measurement_type_no_rows_witness :
  measurement_type 0%nat {[ 0%nat := no_rows_table ]}
  = ({[ 0%nat := no_rows_table ]}, Ok "VSM"%string).
Proof.
  apply (measurement_type_no_rows 0%nat {[ 0%nat := no_rows_table ]} no_rows_table).
  - apply lookup_singleton_eq.
  - reflexivity.
  - left. reflexivity.
Defined.

Lemma simplify_magnetic_df_table_witness :
  (simplify_magnetic_df 0%nat {[ 0%nat := vsm_table (whole [10; 12]) ]}).2
  = Ok (fresh (dom ({[ 0%nat := vsm_table (whole [10; 12]) ]} : gmap nat DataFrame))).
Proof.
  refine (f_equal snd
            (proj1 (simplify_magnetic_df_table 0%nat {[ 0%nat := vsm_table (whole [10; 12]) ]}
                      (vsm_table (whole [10; 12]))
                      (combine (range_index 2) (whole [10; 12])) (series_of [10; 12])
                      _ _ _ _ _))).
  - apply lookup_singleton_eq.
  - repeat constructor.
  - repeat constructor.
  - reflexivity.
  - reflexivity.
Defined.

Lemma simplify_time_nonnegative_witness :
  exists (new_frame : DataFrame) (time : list num),
    simplify_magnetic_df 0%nat {[ 0%nat := vsm_table (whole [10; 12]) ]}
    = (<[fresh (dom ({[ 0%nat := vsm_table (whole [10; 12]) ]} : gmap nat DataFrame))
          := new_frame]> {[ 0%nat := vsm_table (whole [10; 12]) ]},
       Ok (fresh (dom ({[ 0%nat := vsm_table (whole [10; 12]) ]} : gmap nat DataFrame)))) /\
    column new_frame "time" = List.map Num time /\
    Forall (fun t => isnan t = true \/ ltb t (Finite 0) = false /\ isnan t = false) time /\
    Forall2 (fun v t => isnan t = isnan v) (values (series_of [10; 12])) time.
Proof.
  apply (simplify_time_nonnegative 0%nat {[ 0%nat := vsm_table (whole [10; 12]) ]}
           (vsm_table (whole [10; 12]))
           (combine (range_index 2) (whole [10; 12])) (series_of [10; 12])).
  - apply lookup_singleton_eq.
  - repeat constructor.
  - repeat constructor.
  - reflexivity.
  - reflexivity.
  - reflexivity.
Defined.

Lemma simplify_missing_column_witness :
  (simplify_magnetic_df 0%nat {[ 0%nat := temperature_table [1; 2; 3] ]}).2 = Raise KeyError.
Proof.
  apply (simplify_missing_column 0%nat {[ 0%nat := temperature_table [1; 2; 3] ]}
           (temperature_table [1; 2; 3]) "Time Stamp (sec)").
  - apply lookup_singleton_eq.
  - repeat constructor.
  - intros stamp Hs. vm_compute in Hs. discriminate.
  - left. reflexivity.
  - simpl. intros [E|[]]. discriminate.
Defined.

Lemma simplify_text_stamps_witness :
  simplify_magnetic_df 0%nat {[ 0%nat := vsm_table [Str "a"; Str "b"] ]}
  = (<[fresh (dom ({[ 0%nat := vsm_table [Str "a"; Str "b"] ]} : gmap nat DataFrame))
        := empty_frame]> {[ 0%nat := vsm_table [Str "a"; Str "b"] ]},
     Raise TypeError).
Proof.
  apply (simplify_text_stamps 0%nat {[ 0%nat := vsm_table [Str "a"; Str "b"] ]}
           (vsm_table [Str "a"; Str "b"])
           (combine (range_index 2) [Str "a"; Str "b"])).
  - apply lookup_singleton_eq.
  - reflexivity.
  - exists 0, "a"%string. left. reflexivity.
Defined.

Lemma simplify_twice_witness :
  exists new_df h',
    simplify_magnetic_df 0%nat {[ 0%nat := vsm_table (whole [10; 12]) ]} = (h', Ok new_df) /\
    (simplify_magnetic_df new_df h').2 = Raise KeyError.
Proof.
  apply (simplify_twice 0%nat {[ 0%nat := vsm_table (whole [10; 12]) ]}
           (vsm_table (whole [10; 12]))
           (combine (range_index 2) (whole [10; 12])) (series_of [10; 12])).
  - apply lookup_singleton_eq.
  - repeat constructor.
  - repeat constructor.
  - reflexivity.
  - reflexivity.
Defined.

Lemma magnetic_df_preserves_witness :
  (magnetic_df read_csv vsm_file {[ 0%nat := temperature_table [1; 2; 3] ]}).1 !! 0%nat
  = Some (temperature_table [1; 2; 3]).
Proof.
  refine (eq_trans
            (magnetic_df_preserves read_csv vsm_file
               {[ 0%nat := temperature_table [1; 2; 3] ]} 0%nat _) _).
  - apply elem_of_dom. eexists. apply lookup_singleton_eq.
  - apply lookup_singleton_eq.
Defined.

Lemma magnetic_df_pipeline_witness :
  (magnetic_df read_csv vsm_file ∅).2
  = Ok (fresh (dom (<[fresh (dom (∅ : gmap nat DataFrame)) := vsm_read]>
                      (∅ : gmap nat DataFrame)))).
Proof.
  refine (f_equal snd
            (magnetic_df_pipeline read_csv vsm_file ∅
               [["[Header]"]; ["[Data]"]]%string vsm_read
               (combine (range_index 2) half_seconds)
               [(0, Finite (21 # 2)); (1, Finite (25 # 2))]
               _ _ _ _ _ _)).
  - vm_compute. reflexivity.
  - vm_compute. reflexivity.
  - repeat constructor.
  - repeat constructor.
  - reflexivity.
  - reflexivity.
Defined.

Lemma find_outlier_indices_threshold_witness :
  find_outlier_indices (series_of [1; 1; 1; 1; 100]) (of_Z 3)
  `sublist_of` find_outlier_indices (series_of [1; 1; 1; 1; 100]) (of_Z 1).
Proof.
  apply (find_outlier_indices_threshold (series_of [1; 1; 1; 1; 100]) (of_Z 1) (of_Z 3));
    reflexivity.
Defined.

Lemma find_outlier_indices_too_few_witness :
  find_outlier_indices (series_of [7]) (of_Z 0) = [].
Proof.
  apply (find_outlier_indices_too_few (series_of [7]) (of_Z 0)). simpl. lia.
Defined.

Lemma find_temp_turnaround_point_label_witness :
  In 15 (df_index (temperature_table reset_ramp)).
Proof.
  apply (find_temp_turnaround_point_label (temperature_table reset_ramp) 15).
  vm_compute. reflexivity.
Defined.



(** A third row with a field too many: the tab-delimited read raises
    ParserError, and so does [get_data]. *)
Example get_data_parser_error :
  get_data read_csv
    ["[Data]"; tab_line ["a"; "b"]; tab_line ["1"; "2"]; tab_line ["1"; "2"; "3"]]%string ∅
  = (∅, Raise ParserError).
Proof. vm_compute. reflexivity. Qed.

(** A field too many from the first row on labels the rows. *)
Example read_csv_row_labels :
  read_csv ["[Data]"; tab_line ["a"; "b"]; tab_line ["1"; "2"; "3"]]%string (Some tab) 1
  = Ok {| df_index := [1]; df_columns := [("a"%string, [Int 2]); ("b"%string, [Int 3])] |}.
Proof. vm_compute. reflexivity. Qed.

Lemma get_data_frame_witness :
  fresh (dom (∅ : gmap nat DataFrame)) ∉ dom (∅ : gmap nat DataFrame).
Proof.
  refine (proj1 (proj2 (get_data_frame read_csv tab_file ∅) _ _)).
  vm_compute. reflexivity.
Defined.

Lemma find_temp_turnaround_point_bad_column_witness :
  find_temp_turnaround_point no_rows_table = Raise KeyError.
Proof.
  apply (proj1 (find_temp_turnaround_point_bad_column no_rows_table)).
  simpl. intros [E|[]]. discriminate.
Defined.

Lemma two_plateaus_labels :
  label_clusters two_plateaus (Finite (1 # 1000)) 3 = Ok [0; 0; 0; 1; 1; 1; -1].
Proof. vm_compute. reflexivity. Qed.

Lemma label_clusters_shape_witness :
  length [0; 0; 0; 1; 1; 1; -1] = length two_plateaus /\
  Forall (fun l => -1 <= l) [0; 0; 0; 1; 1; 1; -1].
Proof.
  apply (label_clusters_shape two_plateaus (Finite (1 # 1000)) 3).
  apply two_plateaus_labels.
Defined.

(** The last sample of [two_plateaus] is noise: it is not within reach of
    the core sample at position 3. *)
Lemma label_clusters_noise_witness :
  near (Finite (1 # 1000)) (nth 3 (standardize (values two_plateaus)) NaN)
       (nth 6 (standardize (values two_plateaus)) NaN) = false.
Proof.
  refine (proj1 (label_clusters_noise two_plateaus (Finite (1 # 1000)) 3
                   [0; 0; 0; 1; 1; 1; -1] 6 two_plateaus_labels _) _ 3%nat _ _).
  - vm_compute. lia.
  - reflexivity.
  - vm_compute. lia.
  - vm_compute. reflexivity.
Defined.

Lemma label_clusters_same_cluster_witness :
  nth 1 [0; 0; 0; 1; 1; 1; -1] (-1) = nth 0 [0; 0; 0; 1; 1; 1; -1] (-1) /\
  0 <= nth 0 [0; 0; 0; 1; 1; 1; -1] (-1).
Proof.
  apply (label_clusters_same_cluster two_plateaus (Finite (1 # 1000)) 3
           [0; 0; 0; 1; 1; 1; -1] 0 1 two_plateaus_labels).
  - vm_compute. lia.
  - vm_compute. lia.
  - vm_compute. reflexivity.
  - vm_compute. reflexivity.
  - vm_compute. reflexivity.
Defined.

Lemma label_clusters_no_noise_witness :
  Forall (fun l => 0 <= l) [0; 1; 2].
Proof.
  apply (label_clusters_no_noise (series_of [1; 5; 9]) (Finite (1 # 1000)) [0; 1; 2]).
  vm_compute. reflexivity.
Defined.


(** The clustering refuses an infinite [eps], and samples that overflow
    under the scaler. *)
Example label_clusters_infinite_eps :
  label_clusters (series_of [1; 2; 3]) PosInf 2 = Raise ValueError.
Proof. vm_compute. reflexivity. Qed.

Example label_clusters_overflow :
  label_clusters [(0, round (2 ^ 1023)); (1, round (- 2 ^ 1023)); (2, round (2 ^ 1023))]
    (of_Z 1) 2
  = Raise ValueError.
Proof. vm_compute. reflexivity. Qed.

End MoreExamples.
